(** * AffiliateFlow server: authentication, role gate and resource handlers

    A shallow embedding of the Express server of the repository
    ([src/server/types/index.ts], [src/server/middleware/auth.ts],
    [src/server/routes/auth.ts], [src/server/routes/posts.ts] and the users
    router that follows it), and the properties of its token service, its
    authorization gate and the handlers built on them.

    Conventions.
    - A JavaScript value that may be [undefined] is an [option].
    - A handler is a function of the datastore, the clock and the request,
      returning the response it sends and the datastore it leaves.  The
      clock [now] is [Date.now()], in milliseconds, one instant per request.
    - A middleware either calls [next()] or sends a response: [Step].
    - An exception is the [Throw] case of [Result].
    - A JavaScript string is held as the bytes of its UTF-8 form; its
      [length], in UTF-16 code units, is [Js.length].
    - A JavaScript number that holds a whole number is a [Js.Number]: the
      whole numbers a double represents, the two infinities and [NaN].
    - The packages the server imports ([jws] under [jsonwebtoken],
      [validator] under [express-validator], [bcryptjs], the process
      environment and the Prisma schema) are interfaces: type classes whose
      operations the server code calls. *)

From Stdlib Require Import ZArith String Ascii List Bool Lia.
From stdpp Require Import base option gmap strings.
Import ListNotations.

Local Open Scope string_scope.
Local Open Scope Z_scope.

(** ** JavaScript primitives used by the server *)

Module Js.

(** [s.split(c)] for a one-character separator. *)
Fixpoint split (sep : ascii) (s : string) : list string :=
  match s with
  | EmptyString => [EmptyString]
  | String c rest =>
      if Ascii.eqb c sep then EmptyString :: split sep rest
      else match split sep rest with
           | [] => [String c EmptyString]
           | h :: t => String c h :: t
           end
  end.

(** [a[i]]: [undefined] out of range. *)
Definition index {A} (l : list A) (i : nat) : option A := nth_error l i.

(** Truthiness of a value that is a string or [undefined]. *)
Definition truthy (v : option string) : bool :=
  match v with
  | None => false
  | Some s => negb (String.eqb s "")
  end.

(** [a || b] on strings. *)
Definition or_else (a : option string) (b : string) : string :=
  match a with
  | Some s => if String.eqb s "" then b else s
  | None => b
  end.

Definition is_digit (c : ascii) : bool :=
  let n := Z.of_N (N_of_ascii c) in (48 <=? n) && (n <=? 57).

Definition digit_val (c : ascii) : Z := Z.of_N (N_of_ascii c) - 48.

(** The longest prefix of decimal digits, as a number, and the rest.
    The count of digits read tells an empty prefix from a zero. *)
Fixpoint digits (acc : Z) (count : nat) (s : string) : Z * nat * string :=
  match s with
  | String c rest =>
      if is_digit c then digits (10 * acc + digit_val c) (S count) rest
      else (acc, count, s)
  | EmptyString => (acc, count, s)
  end.

(** The numbers of the server are whole: a double that holds a whole
    number, an infinity, or [NaN]. *)
Inductive Number :=
| Finite (z : Z)
| PosInfinity
| NegInfinity
| NaN.

(** The double nearest to a whole number, ties to the even significand of
    53 bits; from [2^1024 - 2^970] on, the infinity. *)
Definition round (n : Z) : Number :=
  let a := Z.abs n in
  if a <? 2 ^ 53 then Finite n
  else
    let e := Z.log2 a - 52 in
    let q := a / 2 ^ e in
    let r := a mod 2 ^ e in
    let half := 2 ^ (e - 1) in
    let q := if (half <? r) || ((r =? half) && Z.odd q) then q + 1 else q in
    if 2 ^ 1024 <=? q * 2 ^ e then (if n <? 0 then NegInfinity else PosInfinity)
    else Finite (Z.sgn n * (q * 2 ^ e)).

(** [a - b] *)
Definition sub (a b : Number) : Number :=
  match a, b with
  | Finite x, Finite y => round (x - y)
  | NaN, _ | _, NaN => NaN
  | PosInfinity, PosInfinity | NegInfinity, NegInfinity => NaN
  | PosInfinity, _ | _, NegInfinity => PosInfinity
  | NegInfinity, _ | _, PosInfinity => NegInfinity
  end.

(** [a * b] *)
Definition mul (a b : Number) : Number :=
  match a, b with
  | Finite x, Finite y => round (x * y)
  | NaN, _ | _, NaN => NaN
  | Finite x, PosInfinity | PosInfinity, Finite x =>
      if x =? 0 then NaN else if 0 <? x then PosInfinity else NegInfinity
  | Finite x, NegInfinity | NegInfinity, Finite x =>
      if x =? 0 then NaN else if 0 <? x then NegInfinity else PosInfinity
  | PosInfinity, PosInfinity | NegInfinity, NegInfinity => PosInfinity
  | PosInfinity, NegInfinity | NegInfinity, PosInfinity => NegInfinity
  end.

(** [a <= b] *)
Definition leb (a b : Number) : bool :=
  match a, b with
  | NaN, _ | _, NaN => false
  | NegInfinity, _ | _, PosInfinity => true
  | Finite x, Finite y => x <=? y
  | _, _ => false
  end.

(** [Math.ceil(total / limit)] for a count [total].  A count below 2^45
    divided by a limit of at most 100 is a whole number or at least a
    hundredth away from one, so the rounding of the quotient does not
    show. *)
Definition ceil_quotient (total : Z) (limit : Number) : Number :=
  match limit with
  | Finite l =>
      if l =? 0 then
        if total =? 0 then NaN else if 0 <? total then PosInfinity else NegInfinity
      else Finite (- ((- total) / l))
  | PosInfinity | NegInfinity => Finite 0
  | NaN => NaN
  end.

(** [parseInt(s)] on a string with an optional sign followed by decimal
    digits, read to the nearest double as V8 does; [parseInt(undefined)]
    and a string without a digit give [NaN].  (The server only applies it
    to values that passed [isInt], or to [undefined].) *)
Definition parseInt (v : option string) : Number :=
  match v with
  | None => NaN
  | Some s =>
      let '(neg, body) :=
        match s with
        | String "-" r => (true, r)
        | String "+" r => (false, r)
        | _ => (false, s)
        end in
      let '(n, count, _) := digits 0 0 body in
      match count with
      | O => NaN
      | _ => round (if neg then - n else n)
      end
  end.

(** [n || d] where [n] is a number: zero and [NaN] are falsy. *)
Definition num_or (n : Number) (d : Z) : Number :=
  match n with
  | Finite v => if v =? 0 then Finite d else n
  | NaN => Finite d
  | _ => n
  end.

Definition is_space (c : ascii) : bool :=
  let n := N_of_ascii c in
  (N.eqb n 32 || N.eqb n 9 || N.eqb n 10 || N.eqb n 11 || N.eqb n 12 || N.eqb n 13)%bool.

(** [s.trim() === ''] *)
Fixpoint blank (s : string) : bool :=
  match s with
  | EmptyString => true
  | String c rest => is_space c && blank rest
  end.

Definition lower (c : ascii) : ascii :=
  let n := N_of_ascii c in
  if (N.leb 65 n && N.leb n 90)%bool then ascii_of_N (n + 32) else c.

(** [s.toLowerCase()] on ASCII text. *)
Fixpoint toLowerCase (s : string) : string :=
  match s with
  | EmptyString => EmptyString
  | String c rest => String (lower c) (toLowerCase rest)
  end.

Fixpoint prefix_of (p s : string) : bool :=
  match p, s with
  | EmptyString, _ => true
  | String a p', String b s' => Ascii.eqb a b && prefix_of p' s'
  | String _ _, EmptyString => false
  end.

(** [s.includes(p)] *)
Fixpoint includes (p s : string) : bool :=
  prefix_of p s ||
  match s with
  | EmptyString => false
  | String _ s' => includes p s'
  end.

(** A byte that continues a character of more than one byte. *)
Definition continuation (c : ascii) : bool :=
  let n := N_of_ascii c in (N.leb 128 n && N.leb n 191)%bool.

(** The first byte of a character outside the basic plane, which takes two
    UTF-16 code units. *)
Definition astral_lead (c : ascii) : bool := N.leb 240 (N_of_ascii c).

(** [s.length]: the UTF-16 code units of the string. *)
Fixpoint length (s : string) : nat :=
  match s with
  | EmptyString => O
  | String c rest =>
      ((if continuation c then 0 else if astral_lead c then 2 else 1) + length rest)%nat
  end.

(** The characters of the string. *)
Fixpoint characters (s : string) : nat :=
  match s with
  | EmptyString => O
  | String c rest => ((if continuation c then 0 else 1) + characters rest)%nat
  end.

(** Text of ASCII characters only. *)
Fixpoint ascii_text (s : string) : bool :=
  match s with
  | EmptyString => true
  | String c rest => N.ltb (N_of_ascii c) 128 && ascii_text rest
  end.

End Js.

Coercion Js.Finite : Z >-> Js.Number.

(** ** Exceptions *)

Inductive JsError :=
| TokenExpiredError (message : string)
| JsonWebTokenError (message : string)
| Error (message : string).

Inductive Result (A : Type) :=
| Ok (a : A)
| Throw (e : JsError).
Arguments Ok {A} a.
Arguments Throw {A} e.

Definition bindR {A B} (r : Result A) (k : A -> Result B) : Result B :=
  match r with
  | Ok a => k a
  | Throw e => Throw e
  end.

Notation "'let?' x ':=' r 'in' k" := (bindR r (fun x => k))
  (at level 10, x pattern, r at level 100, k at level 200).

(** [try { r } catch (error) { h(error) }] *)
Definition try_catch {A} (r : Result A) (h : JsError -> Result A) : Result A :=
  match r with
  | Ok a => Ok a
  | Throw e => h e
  end.

(** ** types/index.ts *)

Inductive Role := ADMIN | STAFF | MEMBER | OWNER.
Inductive PostStatus := DRAFT | PUBLISHED | ARCHIVED.

#[global] Instance Role_eq_dec : EqDecision Role.
Proof. solve_decision. Defined.
#[global] Instance PostStatus_eq_dec : EqDecision PostStatus.
Proof. solve_decision. Defined.

Definition Role_name (r : Role) : string :=
  match r with
  | ADMIN => "ADMIN" | STAFF => "STAFF" | MEMBER => "MEMBER" | OWNER => "OWNER"
  end.

Definition Role_of_name (s : string) : option Role :=
  if String.eqb s "ADMIN" then Some ADMIN
  else if String.eqb s "STAFF" then Some STAFF
  else if String.eqb s "MEMBER" then Some MEMBER
  else if String.eqb s "OWNER" then Some OWNER
  else None.

Definition PostStatus_name (s : PostStatus) : string :=
  match s with
  | DRAFT => "DRAFT" | PUBLISHED => "PUBLISHED" | ARCHIVED => "ARCHIVED"
  end.

Module JWTPayload.
Record t := mk {
  userId : string;
  email : string;
  role : Role;
  iat : option Z;
  exp : option Z
}.
End JWTPayload.

(** A row of the user table. *)
Module User.
Record t := mk {
  id : string;
  email : string;
  password : string;
  name : option string;
  role : Role;
  isActive : bool;
  createdAt : Z;
  updatedAt : Z
}.
End User.

(** A row of the post table. *)
Module Post.
Record t := mk {
  id : string;
  title : string;
  content : string;
  status : PostStatus;
  authorId : string;
  createdById : string;
  createdAt : Z;
  updatedAt : Z
}.
End Post.

(** The external relational store, through the queries the server makes. *)
Record Db := mkDb {
  users : gmap string User.t;
  posts : list Post.t
}.

(** The primary key: a row is stored under its own [id]. *)
Definition keyed_by_id (db : Db) : Prop :=
  map_Forall (fun key user => User.id user = key) (users db).

#[global] Instance keyed_by_id_dec (db : Db) : Decision (keyed_by_id db).
Proof. unfold keyed_by_id. apply _. Defined.

(** ** The packages the server imports *)

(** What the Prisma schema decides: the primary key generated for a new
    user, the default of the active flag, and the delete of a user. *)
Class Schema := {
  cuid : gmap string User.t -> string;
  isActive_default : bool;
  (** [prisma.user.delete({ where: { id } })] on a row that exists: the
      schema's referential actions decide what becomes of the posts that
      refer to it, and whether the delete is refused. *)
  user_delete : Db -> string -> Result Db
}.

(** The [jws] package, on which [jsonwebtoken] signs, decodes and checks
    compact tokens.  [jws_decode] yields the header's [alg], the payload and
    the signature text of a three-part token, [None] for anything else. *)
Class Jws := {
  jws_sign : string -> JWTPayload.t -> string -> string;
  jws_decode : string -> option (string * JWTPayload.t * string);
  jws_verify : string -> string -> string -> bool
}.

(** [process.env] *)
Class Env := {
  JWT_ACCESS_SECRET : option string;
  JWT_REFRESH_SECRET : option string
}.

(** The validators and sanitizers of [express-validator] that are not
    plain membership tests.  [isLength_measure] is the length [isLength]
    holds against its bounds: the UTF-16 length of the string less what the
    package discounts (one unit of each surrogate pair and, in its later
    versions, the variation selectors), so it is at most the UTF-16 length
    and, on ASCII text, the number of characters. *)
Class Validator := {
  isEmail : string -> bool;
  normalizeEmail : string -> string;
  isLength_measure : string -> nat;
  isLength_measure_le : forall s, (isLength_measure s <= Js.length s)%nat;
  isLength_measure_ascii :
    forall s, Js.ascii_text s = true -> isLength_measure s = String.length s
}.

Class Bcrypt := {
  bcrypt_hash : string -> Z -> string;
  bcrypt_compare : string -> string -> bool
}.

(** ** jsonwebtoken *)

Module Jwt.

(** The [ms] package on [<digits><unit>]: milliseconds of a time span. *)
Definition unit_ms (u : string) : option Z :=
  if String.eqb u "" then Some 1
  else if String.eqb u "ms" then Some 1
  else if String.eqb u "s" then Some 1000
  else if String.eqb u "m" then Some 60000
  else if String.eqb u "h" then Some 3600000
  else if String.eqb u "d" then Some 86400000
  else if String.eqb u "w" then Some 604800000
  else if String.eqb u "y" then Some 31557600000
  else None.

Definition ms (s : string) : option Z :=
  let '(n, count, u) := Js.digits 0 0 s in
  match count with
  | O => None
  | _ => match unit_ms u with
         | Some k => Some (n * k)
         | None => None
         end
  end.

(** [timespan(time, iat)] for a string [time]:
    [Math.floor(iat + ms(time) / 1000)]; the span is a whole number of
    milliseconds, so the floor is that of the division. *)
Definition timespan (time : string) (iat : Z) : option Z :=
  match ms time with
  | Some milliseconds => Some (iat + milliseconds / 1000)
  | None => None
  end.

Definition HS_ALGS : list string := ["HS256"; "HS384"; "HS512"].

Section WithJws.
Context `{Jws}.

(** [jwt.sign(payload, secret, { expiresIn, algorithm })] on an object
    payload; [now] is [Date.now()].  The payload is copied, stamped with
    [iat] and [exp], and handed to [jws]. *)
Definition sign (payload : JWTPayload.t) (secret : string)
    (expiresIn : string) (algorithm : string) (now : Z) : Result string :=
  match JWTPayload.exp payload with
  | Some _ =>
      Throw (Error "Bad options.expiresIn option the payload already has an exp property.")
  | None =>
      let timestamp :=
        match JWTPayload.iat payload with
        | Some t => if t =? 0 then now / 1000 else t
        | None => now / 1000
        end in
      match timespan expiresIn timestamp with
      | None =>
          Throw (Error "expiresIn should be a number of seconds or string representing a timespan")
      | Some e =>
          Ok (jws_sign algorithm
                (JWTPayload.mk (JWTPayload.userId payload) (JWTPayload.email payload)
                   (JWTPayload.role payload) (Some timestamp) (Some e))
                secret)
      end
  end.

(** [jwt.verify(token, secret)] with a string secret and no options, in
    the order of the package's [verify.js]: the token is decoded, a
    signature is required, the header's algorithm has to be one of the
    HMAC ones, the signature is checked by [jws], and only then are the
    claims of the payload examined, [exp] against the clock in seconds
    (expired when [clockTimestamp >= exp]). *)
Definition verify (token : string) (secret : string) (now : Z)
    : Result JWTPayload.t :=
  let clockTimestamp := now / 1000 in
  match jws_decode token with
  | None => Throw (JsonWebTokenError "jwt malformed")
  | Some (alg, payload, signature) =>
      if Js.blank signature then
        Throw (JsonWebTokenError "jwt signature is required")
      else if negb (existsb (String.eqb alg) HS_ALGS) then
        Throw (JsonWebTokenError "invalid algorithm")
      else if negb (jws_verify token alg secret) then
        Throw (JsonWebTokenError "invalid signature")
      else
        match JWTPayload.exp payload with
        | Some e =>
            if clockTimestamp >=? e then Throw (TokenExpiredError "jwt expired")
            else Ok payload
        | None => Ok payload
        end
  end.

End WithJws.
End Jwt.

(** [error instanceof jwt.TokenExpiredError] and
    [error instanceof jwt.JsonWebTokenError]: the first class extends the
    second. *)
Definition instanceof_TokenExpiredError (e : JsError) : bool :=
  match e with TokenExpiredError _ => true | _ => false end.

Definition instanceof_JsonWebTokenError (e : JsError) : bool :=
  match e with TokenExpiredError _ | JsonWebTokenError _ => true | Error _ => false end.

(** ** Responses *)

(** The user as selected by [authenticateToken] and attached to the
    request: every column but the password hash. *)
Module ReqUser.
Record t := mk {
  id : string;
  email : string;
  name : option string;
  role : Role;
  isActive : bool;
  createdAt : Z;
  updatedAt : Z
}.

Definition select (u : User.t) : t :=
  mk (User.id u) (User.email u) (User.name u) (User.role u)
     (User.isActive u) (User.createdAt u) (User.updatedAt u).
End ReqUser.

Record Tokens := mkTokens {
  accessToken : string;
  refreshToken : string
}.

Module AuthResponse.
Record user_t := mkUser {
  id : string;
  email : string;
  name : option string;
  role : Role
}.
Record t := mk {
  user : user_t;
  tokens : Tokens
}.
End AuthResponse.

Module PostView.
Record ref := mkRef {
  id : string;
  name : option string;
  email : string
}.
Record t := mk {
  post : Post.t;
  author : option ref;
  createdBy : option ref
}.
End PostView.

Record Pagination := mkPagination {
  page : Js.Number;
  limit : Js.Number;
  total : Z;
  pages : Js.Number
}.

(** The [data] of a success envelope, or the [error] of an error one. *)
Inductive Body :=
| ErrorBody (code message : string)
| AuthData (r : AuthResponse.t)
| AccessTokenData (accessToken : string)
| MessageData (message : string)
| UserData (user : ReqUser.t)
| PostsData (posts : list PostView.t) (pagination : Pagination).

Record Response := mkResponse {
  status : Z;
  body : Body
}.

(** [res.status(s).json({ error: { code, message } })] *)
Definition error (s : Z) (code message : string) : Response :=
  mkResponse s (ErrorBody code message).

(** [res.json({ success: true, data })]: status 200 unless set. *)
Definition success (s : Z) (data : Body) : Response := mkResponse s data.

(** A middleware either hands the request on or answers it. *)
Inductive Step (A : Type) :=
| Next (a : A)
| Reply (r : Response).
Arguments Next {A} a.
Arguments Reply {A} r.

(** ** middleware/auth.ts *)

(** The identity [generateTokens] is given. *)
Module Identity.
Record t := mk {
  id : string;
  email : string;
  role : Role
}.
End Identity.

Section Middleware.
Context `{Jws} `{Env}.

Definition ACCESS_SECRET : string :=
  Js.or_else JWT_ACCESS_SECRET "fallback-access-secret".
Definition REFRESH_SECRET : string :=
  Js.or_else JWT_REFRESH_SECRET "fallback-refresh-secret".

Definition ACCESS_TOKEN_EXPIRY : string := "15m".
Definition REFRESH_TOKEN_EXPIRY : string := "7d".

Definition generateTokens (user : Identity.t) (now : Z) : Result Tokens :=
  let payload :=
    JWTPayload.mk (Identity.id user) (Identity.email user) (Identity.role user)
      None None in
  let? accessToken := Jwt.sign payload ACCESS_SECRET ACCESS_TOKEN_EXPIRY "HS256" now in
  let? refreshToken := Jwt.sign payload REFRESH_SECRET REFRESH_TOKEN_EXPIRY "HS256" now in
  Ok (mkTokens accessToken refreshToken).

(** [authHeader && authHeader.split(' ')[1]] *)
Definition bearer (authHeader : option string) : option string :=
  match authHeader with
  | None => None
  | Some h => if String.eqb h "" then Some "" else Js.index (Js.split " " h) 1
  end.

Definition authenticateToken (db : Db) (now : Z) (authorization : option string)
    : Step ReqUser.t :=
  let token := bearer authorization in
  if negb (Js.truthy token) then
    Reply (error 401 "MISSING_TOKEN" "Access token is required")
  else
    match Jwt.verify (default "" token) ACCESS_SECRET now with
    | Ok decoded =>
        match users db !! JWTPayload.userId decoded with
        | None => Reply (error 401 "USER_NOT_FOUND" "User not found")
        | Some user =>
            if negb (User.isActive user) then
              Reply (error 401 "USER_INACTIVE" "User account is inactive")
            else Next (ReqUser.select user)
        end
    | Throw e =>
        if instanceof_TokenExpiredError e then
          Reply (error 401 "TOKEN_EXPIRED" "Access token has expired")
        else if instanceof_JsonWebTokenError e then
          Reply (error 401 "INVALID_TOKEN" "Invalid access token")
        else Reply (error 500 "AUTH_ERROR" "Authentication error")
    end.

(** [requireRole(roles)] applied to a request whose [user] may be unset. *)
Definition requireRole (roles : list Role) (user : option ReqUser.t)
    : Step ReqUser.t :=
  match user with
  | None => Reply (error 401 "UNAUTHORIZED" "Authentication required")
  | Some u =>
      if negb (bool_decide (ReqUser.role u ∈ roles)) then
        Reply (error 403 "INSUFFICIENT_PERMISSIONS" "Insufficient permissions for this action")
      else Next u
  end.

Definition refreshAccessToken (db : Db) (now : Z) (refreshToken : string)
    : Result Tokens :=
  try_catch
    (let? decoded := Jwt.verify refreshToken REFRESH_SECRET now in
     match users db !! JWTPayload.userId decoded with
     | Some user =>
         if negb (User.isActive user) then Throw (Error "User not found or inactive")
         else generateTokens
                (Identity.mk (User.id user) (User.email user) (User.role user)) now
     | None => Throw (Error "User not found or inactive")
     end)
    (fun _ => Throw (Error "Invalid refresh token")).

Definition requireAdmin := requireRole [ADMIN].
Definition requireStaff := requireRole [ADMIN; STAFF].
Definition requireAuth := requireRole [ADMIN; STAFF; MEMBER; OWNER].

(** A route's middleware chain: the router's [authenticateToken], then a
    role guard on the request it marked. *)
Definition guarded (guard : option ReqUser.t -> Step ReqUser.t)
    (db : Db) (now : Z) (authorization : option string) : Step ReqUser.t :=
  match authenticateToken db now authorization with
  | Next u => guard (Some u)
  | Reply r => Reply r
  end.

End Middleware.

(** ** The user table *)

(** [prisma.user.findUnique({ where: { email } })] *)
Definition findUserByEmail (db : Db) (e : string) : option User.t :=
  head (filter (fun u => User.email u = e) (snd <$> map_to_list (users db))).

(** ** routes/auth.ts *)

Module LoginRequest.
Record t := mk {
  email : option string;
  password : option string;
  rememberMe : option bool
}.
End LoginRequest.

Module RegisterRequest.
Record t := mk {
  email : option string;
  password : option string;
  name : option string;
  role : option string
}.
End RegisterRequest.

(** [isLength({ min })] on a field: a missing field counts as the empty
    string. *)
Definition isLength_min `{Validator} (min : nat) (v : option string) : bool :=
  Nat.leb min (isLength_measure (default "" v)).

(** [isLength({ min, max })] *)
Definition isLength `{Validator} (min max : nat) (v : option string) : bool :=
  let n := isLength_measure (default "" v) in Nat.leb min n && Nat.leb n max.

(** [isIn(values)] *)
Definition isIn (values : list string) (v : option string) : bool :=
  existsb (String.eqb (default "" v)) values.

(** [.optional()]: the checks that follow are skipped on [undefined]. *)
Definition optional (check : option string -> bool) (v : option string) : bool :=
  match v with
  | None => true
  | Some _ => check v
  end.

(** [email.split('@')[0]] *)
Definition local_part (email : string) : string :=
  default "" (Js.index (Js.split "@" email) 0).

Definition ROLE_NAMES : list string := ["ADMIN"; "STAFF"; "MEMBER"; "OWNER"].

Section AuthRoutes.
Context `{Jws} `{Env} `{Validator} `{Bcrypt} `{Schema}.

(** The fields of a new user as the create handlers pass them. *)
Record UserCreate := mkUserCreate {
  create_email : string;
  create_password : string;
  create_name : string;
  create_role : Role
}.

(** [prisma.user.create({ data })]: the row gets its key, the schema's
    defaults and the clock; a key already taken violates the primary
    key. *)
Definition user_create (db : Db) (now : Z) (data : UserCreate)
    : Result (User.t * Db) :=
  let key := cuid (users db) in
  match users db !! key with
  | Some _ => Throw (Error "Unique constraint failed")
  | None =>
      let row := User.mk key (create_email data) (create_password data)
                   (Some (create_name data)) (create_role data)
                   isActive_default now now in
      Ok (row, mkDb (<[key := row]> (users db)) (posts db))
  end.

(** POST /api/auth/login *)
Definition login (db : Db) (now : Z) (body : LoginRequest.t) : Response * Db :=
  if negb (isEmail (default "" (LoginRequest.email body))
           && isLength_min 6 (LoginRequest.password body)) then
    (error 400 "VALIDATION_ERROR" "Invalid input data", db)
  else
    let email := normalizeEmail (default "" (LoginRequest.email body)) in
    let password := default "" (LoginRequest.password body) in
    match findUserByEmail db email with
    | None => (error 401 "INVALID_CREDENTIALS" "Invalid email or password", db)
    | Some user =>
        if negb (User.isActive user) then
          (error 401 "ACCOUNT_INACTIVE" "Account is inactive", db)
        else if negb (bcrypt_compare password (User.password user)) then
          (error 401 "INVALID_CREDENTIALS" "Invalid email or password", db)
        else
          match generateTokens
                  (Identity.mk (User.id user) (User.email user) (User.role user)) now with
          | Ok tokens =>
              (success 200
                 (AuthData (AuthResponse.mk
                    (AuthResponse.mkUser (User.id user) (User.email user)
                       (User.name user) (User.role user))
                    tokens)), db)
          | Throw _ => (error 500 "LOGIN_ERROR" "An error occurred during login", db)
          end
    end.

(** The validation chain shared by POST /api/auth/register and
    POST /api/users. *)
Definition valid_new_user (body : RegisterRequest.t) : bool :=
  isEmail (default "" (RegisterRequest.email body))
  && isLength_min 8 (RegisterRequest.password body)
  && optional (isLength_min 2) (RegisterRequest.name body)
  && isIn ROLE_NAMES (RegisterRequest.role body).

(** [name || email.split('@')[0]] *)
Definition name_or_local_part (name : option string) (email : string) : string :=
  Js.or_else name (local_part email).

(** POST /api/auth/register *)
Definition register (db : Db) (now : Z) (body : RegisterRequest.t) : Response * Db :=
  if negb (valid_new_user body) then
    (error 400 "VALIDATION_ERROR" "Invalid input data", db)
  else
    let email := normalizeEmail (default "" (RegisterRequest.email body)) in
    let password := default "" (RegisterRequest.password body) in
    let name := RegisterRequest.name body in
    match Role_of_name (default "" (RegisterRequest.role body)) with
    | None => (error 500 "REGISTRATION_ERROR" "An error occurred during registration", db)
    | Some role =>
        match findUserByEmail db email with
        | Some _ => (error 409 "USER_EXISTS" "User with this email already exists", db)
        | None =>
            let hashedPassword := bcrypt_hash password 12 in
            match user_create db now
                    (mkUserCreate email hashedPassword
                       (name_or_local_part name email) role) with
            | Throw _ =>
                (error 500 "REGISTRATION_ERROR" "An error occurred during registration", db)
            | Ok (user, db') =>
                match generateTokens
                        (Identity.mk (User.id user) (User.email user) (User.role user))
                        now with
                | Ok tokens =>
                    (success 201
                       (AuthData (AuthResponse.mk
                          (AuthResponse.mkUser (User.id user) (User.email user)
                             (User.name user) (User.role user))
                          tokens)), db')
                | Throw _ =>
                    (error 500 "REGISTRATION_ERROR"
                       "An error occurred during registration", db')
                end
            end
        end
    end.

(** POST /api/auth/refresh *)
Definition refresh (db : Db) (now : Z) (refreshToken : option string)
    : Response * Db :=
  if negb (Js.truthy refreshToken) then
    (error 400 "MISSING_REFRESH_TOKEN" "Refresh token is required", db)
  else
    match refreshAccessToken db now (default "" refreshToken) with
    | Ok tokens => (success 200 (AccessTokenData (accessToken tokens)), db)
    | Throw _ =>
        (error 401 "INVALID_REFRESH_TOKEN" "Invalid or expired refresh token", db)
    end.

End AuthRoutes.

(** ** routes/posts.ts *)

(** The whole number a text denotes for [isInt]: an optional sign, then
    decimal digits and nothing else (zeros in front are allowed, as
    [allow_leading_zeroes] is not turned off). *)
Definition int_literal (s : string) : option Z :=
  let '(neg, digits) :=
    match s with
    | String "-" r => (true, r)
    | String "+" r => (false, r)
    | _ => (false, s)
    end in
  let '(n, count, rest) := Js.digits 0 0 digits in
  match count with
  | O => None
  | _ => if String.eqb rest "" then Some (if neg then - n else n) else None
  end.

(** [isInt({ min, max })]: the text is held against the bounds as the number
    it converts to. *)
Definition isInt (min : Z) (max : option Z) (v : option string) : bool :=
  match int_literal (default "" v) with
  | None => false
  | Some n =>
      Js.leb min (Js.round n)
      && match max with Some m => Js.leb (Js.round n) m | None => true end
  end.

Module PostsQuery.
Record t := mk {
  page : option string;
  limit : option string;
  status : option string;
  search : option string
}.
End PostsQuery.

Definition STATUS_NAMES : list string := ["DRAFT"; "PUBLISHED"; "ARCHIVED"].

Definition valid_posts_query `{Validator} (q : PostsQuery.t) : bool :=
  optional (isInt 1 None) (PostsQuery.page q)
  && optional (isInt 1 (Some 100)) (PostsQuery.limit q)
  && optional (isIn STATUS_NAMES) (PostsQuery.status q)
  && optional (isLength_min 1) (PostsQuery.search q).

(** The [where] object of the list query: each key set or absent. *)
Module Where.
Record t := mk {
  status : option string;
  OR : option string
}.
Definition empty : t := mk None None.
Definition set_status (s : string) (w : t) : t := mk (Some s) (OR w).
Definition set_OR (s : string) (w : t) : t := mk (status w) (Some s).
End Where.

(** [{ contains: search, mode: 'insensitive' }] *)
Definition contains_insensitive (search text : string) : bool :=
  Js.includes (Js.toLowerCase search) (Js.toLowerCase text).

Definition post_matches (w : Where.t) (p : Post.t) : bool :=
  match Where.status w with
  | Some s => String.eqb (PostStatus_name (Post.status p)) s
  | None => true
  end
  &&
  match Where.OR w with
  | Some search =>
      contains_insensitive search (Post.title p)
      || contains_insensitive search (Post.content p)
  | None => true
  end.

(** [orderBy: { createdAt: 'desc' }]; rows of one instant keep the order
    of the table. *)
Fixpoint insert_desc (p : Post.t) (l : list Post.t) : list Post.t :=
  match l with
  | [] => [p]
  | q :: l' =>
      if Post.createdAt q <=? Post.createdAt p then p :: l
      else q :: insert_desc p l'
  end.

Definition order_desc (l : list Post.t) : list Post.t :=
  foldr insert_desc [] l.

Definition user_ref (db : Db) (key : string) : option PostView.ref :=
  (fun u => PostView.mkRef (User.id u) (User.name u) (User.email u))
    <$> users db !! key.

Definition post_view (db : Db) (p : Post.t) : PostView.t :=
  PostView.mk p (user_ref db (Post.authorId p)) (user_ref db (Post.createdById p)).

(** [prisma.post.findMany({ where, select, skip, take, orderBy })]; the
    Prisma client refuses a [skip] or a [take] that is not a finite
    number. *)
Definition post_findMany (db : Db) (w : Where.t) (skip take_ : Js.Number)
    : Result (list PostView.t) :=
  match skip, take_ with
  | Js.Finite skip, Js.Finite take_ =>
      Ok (post_view db <$>
            take (Z.to_nat take_)
              (drop (Z.to_nat skip)
                 (order_desc (List.filter (post_matches w) (posts db)))))
  | _, _ => Throw (Error "Invalid value provided. Expected Int.")
  end.

(** [prisma.post.count({ where })] *)
Definition post_count (db : Db) (w : Where.t) : Z :=
  Z.of_nat (length (List.filter (post_matches w) (posts db))).

(** The [where] clause GET /api/posts builds. *)
Definition posts_where (user : ReqUser.t) (status search : option string) : Where.t :=
  let w := Where.empty in
  let w :=
    if bool_decide (ReqUser.role user = MEMBER) then Where.set_status "PUBLISHED" w
    else w in
  let w :=
    if Js.truthy status then Where.set_status (default "" status) w else w in
  let w :=
    if Js.truthy search then Where.set_OR (default "" search) w else w in
  w.

(** The handler of GET /api/posts, past the router's [authenticateToken]. *)
Definition posts_list_handler `{Validator} (db : Db) (user : ReqUser.t)
    (q : PostsQuery.t) : Response * Db :=
  if negb (valid_posts_query q) then
    (error 400 "VALIDATION_ERROR" "Invalid query parameters", db)
  else
    let page := Js.num_or (Js.parseInt (PostsQuery.page q)) 1 in
    let limit := Js.num_or (Js.parseInt (PostsQuery.limit q)) 10 in
    let status := PostsQuery.status q in
    let search := PostsQuery.search q in
    let skip := Js.mul (Js.sub page 1) limit in
    let w := posts_where user status search in
    match post_findMany db w skip limit with
    | Throw _ =>
        (error 500 "GET_POSTS_ERROR" "An error occurred while fetching posts", db)
    | Ok posts =>
        let total := post_count db w in
        (success 200
           (PostsData posts
              (mkPagination page limit total (Js.ceil_quotient total limit))), db)
    end.

Section ResourceRoutes.
Context `{Jws} `{Env} `{Validator} `{Bcrypt} `{Schema}.

(** GET /api/posts *)
Definition posts_list (db : Db) (now : Z) (authorization : option string)
    (q : PostsQuery.t) : Response * Db :=
  match authenticateToken db now authorization with
  | Reply r => (r, db)
  | Next user => posts_list_handler db user q
  end.

(** The handler of POST /api/users, past [requireAdmin]. *)
Definition users_create_handler (db : Db) (now : Z) (body : RegisterRequest.t)
    : Response * Db :=
  if negb (valid_new_user body) then
    (error 400 "VALIDATION_ERROR" "Invalid input data", db)
  else
    let email := normalizeEmail (default "" (RegisterRequest.email body)) in
    let password := default "" (RegisterRequest.password body) in
    let name := RegisterRequest.name body in
    match Role_of_name (default "" (RegisterRequest.role body)) with
    | None => (error 500 "CREATE_USER_ERROR" "An error occurred while creating user", db)
    | Some role =>
        match findUserByEmail db email with
        | Some _ => (error 409 "USER_EXISTS" "User with this email already exists", db)
        | None =>
            let hashedPassword := bcrypt_hash password 12 in
            match user_create db now
                    (mkUserCreate email hashedPassword
                       (name_or_local_part name email) role) with
            | Throw _ =>
                (error 500 "CREATE_USER_ERROR" "An error occurred while creating user", db)
            | Ok (user, db') => (success 201 (UserData (ReqUser.select user)), db')
            end
        end
    end.

(** POST /api/users *)
Definition users_create (db : Db) (now : Z) (authorization : option string)
    (body : RegisterRequest.t) : Response * Db :=
  match guarded requireAdmin db now authorization with
  | Reply r => (r, db)
  | Next _ => users_create_handler db now body
  end.

(** The handler of DELETE /api/users/:id, past [requireAdmin]. *)
Definition users_delete_handler (db : Db) (user : ReqUser.t) (id : string)
    : Response * Db :=
  match users db !! id with
  | None => (error 404 "USER_NOT_FOUND" "User not found", db)
  | Some _ =>
      if String.eqb id (ReqUser.id user) then
        (error 400 "CANNOT_DELETE_SELF" "Cannot delete your own account", db)
      else
        match user_delete db id with
        | Ok db' => (success 200 (MessageData "User deleted successfully"), db')
        | Throw _ =>
            (error 500 "DELETE_USER_ERROR" "An error occurred while deleting user", db)
        end
  end.

(** DELETE /api/users/:id *)
Definition users_delete (db : Db) (now : Z) (authorization : option string)
    (id : string) : Response * Db :=
  match guarded requireAdmin db now authorization with
  | Reply r => (r, db)
  | Next user => users_delete_handler db user id
  end.

End ResourceRoutes.

(** ** Instances of the interfaces, for running the server on examples *)

#[global] Instance JWTPayload_eq_dec : EqDecision JWTPayload.t.
Proof. solve_decision. Defined.

(** A codebook of compact tokens: each entry records the text of a token,
    what it decodes to, and the key its signature was made with.  Signing
    looks the token up, decoding reads the entry, and a signature checks
    under the recorded key only. *)
Module Codebook.
Record entry := mk {
  text : string;
  alg : string;
  payload : JWTPayload.t;
  signature : string;
  key : string
}.

Definition by_text (book : list entry) (t : string) : option entry :=
  List.find (fun e => String.eqb (text e) t) book.

Definition jws (book : list entry) : Jws := {|
  jws_sign a p k :=
    match List.find (fun e => String.eqb (alg e) a
                              && bool_decide (payload e = p)
                              && String.eqb (key e) k) book with
    | Some e => text e
    | None => ""
    end;
  jws_decode t := (fun e => (alg e, payload e, signature e)) <$> by_text book t;
  jws_verify t a k :=
    match by_text book t with
    | Some e => String.eqb (alg e) a && String.eqb (key e) k
    | None => false
    end
|}.
End Codebook.

(** No secret configured: the fallbacks are used. *)
Definition env_unset : Env := {| JWT_ACCESS_SECRET := None; JWT_REFRESH_SECRET := None |}.

(** [validator]'s [normalizeEmail] under its default options on an address
    of a domain it has no provider rule for: the domain is lowercased, and
    so is the local part ([all_lowercase]).  [isEmail] is cut down to
    one [@] between a non-empty local part and a dotted domain, and
    [isLength] counts the characters. *)
Definition validator_plain : Validator.
Proof.
  refine {|
    isEmail s :=
      match Js.split "@" s with
      | [l; d] => negb (String.eqb l "") && Js.includes "." d
      | _ => false
      end;
    normalizeEmail s := Js.toLowerCase s;
    isLength_measure := Js.characters;
    isLength_measure_le := _;
    isLength_measure_ascii := _
  |}.
  - intros s. induction s as [|c s IH]; simpl; [lia|].
    destruct (Js.continuation c), (Js.astral_lead c); lia.
  - intros s. induction s as [|c s IH]; simpl; [reflexivity|].
    intros Hs. apply andb_prop in Hs as [Hc Hs]. rewrite (IH Hs).
    unfold Js.continuation. apply N.ltb_lt in Hc.
    destruct (N.leb_spec 128 (N_of_ascii c)); [lia | reflexivity].
Defined.

Definition bcrypt_tagged : Bcrypt := {|
  bcrypt_hash p rounds := "$2a$" ++ p;
  bcrypt_compare p h := String.eqb h ("$2a$" ++ p)
|}.

(** A schema whose delete removes the row and nothing else. *)
Definition schema_plain (fresh : string) : Schema := {|
  cuid _ := fresh;
  isActive_default := true;
  user_delete db k := Ok (mkDb (delete k (users db)) (posts db))
|}.

(** ** Example data *)

Definition alice : User.t :=
  User.mk "u1" "alice@example.com" "$2a$password123" (Some "Alice") ADMIN true 10 10.
Definition bob : User.t :=
  User.mk "u2" "bob@example.com" "$2a$password123" (Some "Bob") MEMBER true 20 20.
Definition carol : User.t :=
  User.mk "u3" "carol@example.com" "$2a$password123" (Some "Carol") STAFF false 30 30.

Definition draft_post : Post.t :=
  Post.mk "p1" "New Features Coming Soon" "We are working on it" DRAFT "u1" "u1" 100 100.
Definition welcome_post : Post.t :=
  Post.mk "p2" "Welcome to AffiliateFlow" "This is your first post!" PUBLISHED "u1" "u1" 200 200.

Definition sample_db : Db :=
  mkDb (<["u1" := alice]> (<["u2" := bob]> (<["u3" := carol]> ∅)))
       [draft_post; welcome_post].

(** Tokens in circulation at clock 2 000 000 ms: access tokens of the three
    users issued at second 1500, an access token of Alice that expired at
    second 1000, the same claims signed with a key that is not the
    server's, refresh tokens, and the tokens issued at second 2000. *)
Definition claims (u : User.t) (iat exp : Z) : JWTPayload.t :=
  JWTPayload.mk (User.id u) (User.email u) (User.role u) (Some iat) (Some exp).

Definition sample_book : list Codebook.entry := [
  Codebook.mk "alice.access" "HS256" (claims alice 1500 2400) "sig-a" "fallback-access-secret";
  Codebook.mk "bob.access" "HS256" (claims bob 1500 2400) "sig-b" "fallback-access-secret";
  Codebook.mk "carol.access" "HS256" (claims carol 1500 2400) "sig-c" "fallback-access-secret";
  Codebook.mk "ghost.access" "HS256"
    (JWTPayload.mk "u9" "ghost@example.com" MEMBER (Some 1500) (Some 2400))
    "sig-g" "fallback-access-secret";
  Codebook.mk "alice.expired" "HS256" (claims alice 100 1000) "sig-e" "fallback-access-secret";
  Codebook.mk "alice.expired.forged" "HS256" (claims alice 100 1000) "sig-f" "some-other-secret";
  Codebook.mk "bob.refresh" "HS256"
    (JWTPayload.mk "u2" "bob@example.com" STAFF (Some 1500) (Some 606300))
    "sig-r" "fallback-refresh-secret";
  Codebook.mk "carol.refresh" "HS256" (claims carol 1500 606300) "sig-s" "fallback-refresh-secret";
  Codebook.mk "bob.access.new" "HS256" (claims bob 2000 2900) "sig-n" "fallback-access-secret";
  Codebook.mk "bob.refresh.new" "HS256" (claims bob 2000 606800) "sig-m" "fallback-refresh-secret";
  Codebook.mk "dave.access" "HS256"
    (JWTPayload.mk "u4" "dave@example.com" MEMBER (Some 2000) (Some 2900))
    "sig-d" "fallback-access-secret";
  Codebook.mk "dave.refresh" "HS256"
    (JWTPayload.mk "u4" "dave@example.com" MEMBER (Some 2000) (Some 606800))
    "sig-h" "fallback-refresh-secret"
].

Definition sample_jws : Jws := Codebook.jws sample_book.

(** ** The remaining routes of routes/posts.ts and of the users router *)

(** What a route answers: an envelope of the gate or an error of its own,
    or the status and the [data] of a success. *)
Inductive Outcome (T : Type) :=
| Refused (r : Response)
| Served (status : Z) (data : T).
Arguments Refused {T} r.
Arguments Served {T} status data.

(** What else the Prisma schema decides: the key generated for a new post,
    and what an update writes to [updatedAt], given the old value and the
    clock. *)
Class Generated := {
  post_cuid : list Post.t -> string;
  updatedAt_on_update : Z -> Z -> Z
}.

Definition PostStatus_of_name (s : string) : option PostStatus :=
  if String.eqb s "DRAFT" then Some DRAFT
  else if String.eqb s "PUBLISHED" then Some PUBLISHED
  else if String.eqb s "ARCHIVED" then Some ARCHIVED
  else None.

(** [prisma.post.findUnique({ where: { id } })] *)
Definition findPost (db : Db) (id : string) : option Post.t :=
  List.find (fun p => String.eqb (Post.id p) id) (posts db).

(** The view of a created or updated post: [createdBy] is not selected. *)
Definition post_view_author (db : Db) (p : Post.t) : PostView.t :=
  PostView.mk p (user_ref db (Post.authorId p)) None.

Module CreatePostRequest.
Record t := mk {
  title : option string;
  content : option string;
  status : option string
}.
End CreatePostRequest.

Module UpdatePostRequest.
Record t := mk {
  title : option string;
  content : option string;
  status : option string
}.
End UpdatePostRequest.

Definition valid_create_post `{Validator} (body : CreatePostRequest.t) : bool :=
  isLength 1 200 (CreatePostRequest.title body)
  && isLength_min 1 (CreatePostRequest.content body)
  && optional (isIn STATUS_NAMES) (CreatePostRequest.status body).

Definition valid_update_post `{Validator} (body : UpdatePostRequest.t) : bool :=
  optional (isLength 1 200) (UpdatePostRequest.title body)
  && optional (isLength_min 1) (UpdatePostRequest.content body)
  && optional (isIn STATUS_NAMES) (UpdatePostRequest.status body).

(** The handler of GET /api/posts/:id, past [authenticateToken]. *)
Definition posts_get_handler (db : Db) (user : ReqUser.t) (id : string)
    : Outcome PostView.t * Db :=
  match findPost db id with
  | None => (Refused (error 404 "POST_NOT_FOUND" "Post not found"), db)
  | Some post =>
      if bool_decide (ReqUser.role user = MEMBER)
         && negb (bool_decide (Post.status post = PUBLISHED)) then
        (Refused (error 403 "INSUFFICIENT_PERMISSIONS" "You can only view published posts"),
         db)
      else (Served 200 (post_view db post), db)
  end.

(** [prisma.post.update({ where: { id }, data })]: the columns given are
    written to the row of that key. *)
Definition post_update (id : string) (f : Post.t -> Post.t) (l : list Post.t)
    : list Post.t :=
  List.map (fun p => if String.eqb (Post.id p) id then f p else p) l.

(** [prisma.post.delete({ where: { id } })] *)
Definition post_delete (id : string) (l : list Post.t) : list Post.t :=
  List.filter (fun p => negb (String.eqb (Post.id p) id)) l.

(** The handler of DELETE /api/posts/:id, past [requireAdmin]. *)
Definition posts_delete_handler (db : Db) (id : string) : Response * Db :=
  match findPost db id with
  | None => (error 404 "POST_NOT_FOUND" "Post not found", db)
  | Some _ =>
      (success 200 (MessageData "Post deleted successfully"),
       mkDb (users db) (post_delete id (posts db)))
  end.

Section PostRoutes.
Context `{Jws} `{Env} `{Validator} `{Generated}.

(** GET /api/posts/:id *)
Definition posts_get (db : Db) (now : Z) (authorization : option string) (id : string)
    : Outcome PostView.t * Db :=
  match authenticateToken db now authorization with
  | Reply r => (Refused r, db)
  | Next user => posts_get_handler db user id
  end.

(** The handler of POST /api/posts, past [requireStaff]. *)
Definition posts_create_handler (db : Db) (now : Z) (user : ReqUser.t)
    (body : CreatePostRequest.t) : Outcome PostView.t * Db :=
  if negb (valid_create_post body) then
    (Refused (error 400 "VALIDATION_ERROR" "Invalid input data"), db)
  else
    let title := default "" (CreatePostRequest.title body) in
    let content := default "" (CreatePostRequest.content body) in
    let status := default "DRAFT" (CreatePostRequest.status body) in
    match PostStatus_of_name status with
    | None =>
        (Refused (error 500 "CREATE_POST_ERROR" "An error occurred while creating post"), db)
    | Some status =>
        let key := post_cuid (posts db) in
        match findPost db key with
        | Some _ =>
            (Refused (error 500 "CREATE_POST_ERROR" "An error occurred while creating post"),
             db)
        | None =>
            let post := Post.mk key title content status (ReqUser.id user) (ReqUser.id user)
                          now now in
            let db' := mkDb (users db) (posts db ++ [post]) in
            (Served 201 (post_view_author db' post), db')
        end
    end.

(** POST /api/posts *)
Definition posts_create (db : Db) (now : Z) (authorization : option string)
    (body : CreatePostRequest.t) : Outcome PostView.t * Db :=
  match guarded requireStaff db now authorization with
  | Reply r => (Refused r, db)
  | Next user => posts_create_handler db now user body
  end.

(** The columns PUT /api/posts/:id writes: those the body has. *)
Definition post_patch (now : Z) (title content : option string) (status : option PostStatus)
    (p : Post.t) : Post.t :=
  Post.mk (Post.id p)
    (default (Post.title p) title)
    (default (Post.content p) content)
    (default (Post.status p) status)
    (Post.authorId p) (Post.createdById p) (Post.createdAt p)
    (updatedAt_on_update (Post.updatedAt p) now).

(** The handler of PUT /api/posts/:id, past [requireStaff]. *)
Definition posts_update_handler (db : Db) (now : Z) (user : ReqUser.t) (id : string)
    (body : UpdatePostRequest.t) : Outcome PostView.t * Db :=
  if negb (valid_update_post body) then
    (Refused (error 400 "VALIDATION_ERROR" "Invalid input data"), db)
  else
    match findPost db id with
    | None => (Refused (error 404 "POST_NOT_FOUND" "Post not found"), db)
    | Some existingPost =>
        if bool_decide (ReqUser.role user = STAFF)
           && negb (String.eqb (Post.authorId existingPost) (ReqUser.id user)) then
          (Refused (error 403 "INSUFFICIENT_PERMISSIONS" "You can only edit your own posts"),
           db)
        else
          match
            match UpdatePostRequest.status body with
            | None => Some None
            | Some s => Some <$> PostStatus_of_name s
            end
          with
          | None =>
              (Refused (error 500 "UPDATE_POST_ERROR" "An error occurred while updating post"),
               db)
          | Some status =>
              let patch :=
                post_patch now (UpdatePostRequest.title body)
                  (UpdatePostRequest.content body) status in
              let db' := mkDb (users db) (post_update id patch (posts db)) in
              (Served 200 (post_view_author db' (patch existingPost)), db')
          end
    end.

(** PUT /api/posts/:id *)
Definition posts_update (db : Db) (now : Z) (authorization : option string) (id : string)
    (body : UpdatePostRequest.t) : Outcome PostView.t * Db :=
  match guarded requireStaff db now authorization with
  | Reply r => (Refused r, db)
  | Next user => posts_update_handler db now user id body
  end.

(** DELETE /api/posts/:id *)
Definition posts_delete (db : Db) (now : Z) (authorization : option string) (id : string)
    : Response * Db :=
  match guarded requireAdmin db now authorization with
  | Reply r => (r, db)
  | Next _ => posts_delete_handler db id
  end.

End PostRoutes.

(** *** Users *)

Module UsersQuery.
Record t := mk {
  page : option string;
  limit : option string;
  role : option string;
  search : option string
}.
End UsersQuery.

Definition valid_users_query `{Validator} (q : UsersQuery.t) : bool :=
  optional (isInt 1 None) (UsersQuery.page q)
  && optional (isInt 1 (Some 100)) (UsersQuery.limit q)
  && optional (isIn ROLE_NAMES) (UsersQuery.role q)
  && optional (isLength_min 1) (UsersQuery.search q).

(** The [where] object of the user list: [role] and [OR], set or absent. *)
Definition user_matches (role search : option string) (u : User.t) : bool :=
  match role with
  | Some r => String.eqb (Role_name (User.role u)) r
  | None => true
  end
  &&
  match search with
  | Some s =>
      contains_insensitive s (User.email u)
      || match User.name u with
         | Some n => contains_insensitive s n
         | None => false
         end
  | None => true
  end.

Fixpoint insert_user_desc (u : User.t) (l : list User.t) : list User.t :=
  match l with
  | [] => [u]
  | v :: l' =>
      if User.createdAt v <=? User.createdAt u then u :: l
      else v :: insert_user_desc u l'
  end.

Definition order_users_desc (l : list User.t) : list User.t :=
  foldr insert_user_desc [] l.

(** The rows of the user table that meet the [where] object. *)
Definition users_where (db : Db) (role search : option string) : list User.t :=
  List.filter (user_matches role search) (snd <$> map_to_list (users db)).

(** [prisma.user.findMany({ where, select, skip, take, orderBy })] on the
    rows that meet [where]; the Prisma client refuses a [skip] or a [take]
    that is not a finite number. *)
Definition user_findMany (rows : list User.t) (skip take_ : Js.Number)
    : Result (list ReqUser.t) :=
  match skip, take_ with
  | Js.Finite skip, Js.Finite take_ =>
      Ok (ReqUser.select <$>
            take (Z.to_nat take_) (drop (Z.to_nat skip) (order_users_desc rows)))
  | _, _ => Throw (Error "Invalid value provided. Expected Int.")
  end.

(** The handler of GET /api/users, past [requireAdmin]. *)
Definition users_list_handler `{Validator} (db : Db) (q : UsersQuery.t)
    : Outcome (list ReqUser.t * Pagination) * Db :=
  if negb (valid_users_query q) then
    (Refused (error 400 "VALIDATION_ERROR" "Invalid query parameters"), db)
  else
    let page := Js.num_or (Js.parseInt (UsersQuery.page q)) 1 in
    let limit := Js.num_or (Js.parseInt (UsersQuery.limit q)) 10 in
    let role := if Js.truthy (UsersQuery.role q) then UsersQuery.role q else None in
    let search := if Js.truthy (UsersQuery.search q) then UsersQuery.search q else None in
    let skip := Js.mul (Js.sub page 1) limit in
    let rows := users_where db role search in
    match user_findMany rows skip limit with
    | Throw _ =>
        (Refused (error 500 "GET_USERS_ERROR" "An error occurred while fetching users"),
         db)
    | Ok users =>
        let total := Z.of_nat (length rows) in
        (Served 200 (users, mkPagination page limit total (Js.ceil_quotient total limit)),
         db)
    end.

(** The [isActive] of an update body: a JSON boolean, or some other value,
    given by its text. *)
Inductive JsonFlag :=
| JBool (b : bool)
| JOther (text : string).

(** [isBoolean()] *)
Definition isBoolean (v : JsonFlag) : bool :=
  match v with
  | JBool _ => true
  | JOther text => existsb (String.eqb text) ["true"; "false"; "1"; "0"]
  end.

Module UpdateUserRequest.
Record t := mk {
  name : option string;
  role : option string;
  isActive : option JsonFlag
}.
End UpdateUserRequest.

Definition valid_update_user `{Validator} (body : UpdateUserRequest.t) : bool :=
  optional (isLength_min 2) (UpdateUserRequest.name body)
  && optional (isIn ROLE_NAMES) (UpdateUserRequest.role body)
  && match UpdateUserRequest.isActive body with
     | None => true
     | Some v => isBoolean v
     end.

Section UserRoutes.
Context `{Jws} `{Env} `{Validator} `{Generated}.

(** GET /api/users *)
Definition users_list (db : Db) (now : Z) (authorization : option string)
    (q : UsersQuery.t) : Outcome (list ReqUser.t * Pagination) * Db :=
  match guarded requireAdmin db now authorization with
  | Reply r => (Refused r, db)
  | Next _ => users_list_handler db q
  end.

(** The columns PUT /api/users/:id writes: those the body has. *)
Definition user_patch (now : Z) (name : option string) (role : option Role)
    (isActive : option bool) (u : User.t) : User.t :=
  User.mk (User.id u) (User.email u) (User.password u)
    (match name with Some n => Some n | None => User.name u end)
    (default (User.role u) role)
    (default (User.isActive u) isActive)
    (User.createdAt u)
    (updatedAt_on_update (User.updatedAt u) now).

(** The handler of PUT /api/users/:id, past [requireAdmin].  A role outside
    the enumeration or an [isActive] that is not a boolean is refused by
    the datastore, and the route answers 500. *)
Definition users_update_handler (db : Db) (now : Z) (id : string)
    (body : UpdateUserRequest.t) : Response * Db :=
  if negb (valid_update_user body) then
    (error 400 "VALIDATION_ERROR" "Invalid input data", db)
  else
    match users db !! id with
    | None => (error 404 "USER_NOT_FOUND" "User not found", db)
    | Some existingUser =>
        match
          match UpdateUserRequest.role body with
          | None => Some None
          | Some r => Some <$> Role_of_name r
          end,
          match UpdateUserRequest.isActive body with
          | None => Some None
          | Some (JBool b) => Some (Some b)
          | Some (JOther _) => None
          end
        with
        | Some role, Some isActive =>
            let user := user_patch now (UpdateUserRequest.name body) role isActive
                          existingUser in
            (success 200 (UserData (ReqUser.select user)),
             mkDb (<[id := user]> (users db)) (posts db))
        | _, _ => (error 500 "UPDATE_USER_ERROR" "An error occurred while updating user", db)
        end
    end.

(** PUT /api/users/:id *)
Definition users_update (db : Db) (now : Z) (authorization : option string) (id : string)
    (body : UpdateUserRequest.t) : Response * Db :=
  match guarded requireAdmin db now authorization with
  | Reply r => (r, db)
  | Next _ => users_update_handler db now id body
  end.

End UserRoutes.

(** *** Invariants of the user table *)

(** The unique index on [email]. *)
Definition emails_unique (db : Db) : Prop :=
  NoDup (User.email <$> (snd <$> map_to_list (users db))).

#[global] Instance emails_unique_dec (db : Db) : Decision (emails_unique db).
Proof. unfold emails_unique. apply _. Defined.

(** *** More example data *)

Definition generated_plain (fresh : string) : Generated := {|
  post_cuid _ := fresh;
  updatedAt_on_update _ now := now
|}.

Definition dan : User.t :=
  User.mk "u5" "dan@example.com" "$2a$password123" (Some "Dan") STAFF true 40 40.
Definition olga : User.t :=
  User.mk "u6" "olga@example.com" "$2a$password123" None OWNER true 50 50.

Definition dan_post : Post.t :=
  Post.mk "p3" "Notes of the week" "Calls and visits" DRAFT "u5" "u5" 300 300.

(** The sample datastore with a member of staff, an owner and a post of the
    former. *)
Definition office_db : Db :=
  mkDb (<["u5" := dan]> (<["u6" := olga]> (users sample_db)))
       (posts sample_db ++ [dan_post]).

Definition office_book : list Codebook.entry :=
  sample_book ++ [
    Codebook.mk "dan.access" "HS256" (claims dan 1500 2400) "sig-x" "fallback-access-secret";
    Codebook.mk "olga.access" "HS256" (claims olga 1500 2400) "sig-o" "fallback-access-secret"
  ].

Definition office_jws : Jws := Codebook.jws office_book.

(** ** The client: client/auth.ts and the API client it imports *)

Module Client.

(** *** TokenManager *)

(** [localStorage] *)
Abbreviation Storage := (gmap string string).

Definition ACCESS_TOKEN_KEY : string := "affiliate_access_token".
Definition REFRESH_TOKEN_KEY : string := "affiliate_refresh_token".

Definition getAccessToken (ls : Storage) : option string := ls !! ACCESS_TOKEN_KEY.
Definition getRefreshToken (ls : Storage) : option string := ls !! REFRESH_TOKEN_KEY.

Definition setTokens (accessToken refreshToken : string) (ls : Storage) : Storage :=
  <[REFRESH_TOKEN_KEY := refreshToken]> (<[ACCESS_TOKEN_KEY := accessToken]> ls).

Definition clearTokens (ls : Storage) : Storage :=
  delete REFRESH_TOKEN_KEY (delete ACCESS_TOKEN_KEY ls).

(** [JSON.parse(atob(segment)).exp], read as a whole number of seconds:
    [Throw] when [atob], [JSON.parse] or the member access throws, [None]
    when the payload has no numeric [exp]. *)
Class PayloadReader := {
  payload_exp : option string -> Result (option Z)
}.

Section TokenManager.
Context `{PayloadReader}.

(** [isTokenExpired(token)]; [now] is the browser's [Date.now()].  A
    comparison with [NaN] is false. *)
Definition isTokenExpired (token : string) (now : Z) : bool :=
  match payload_exp (Js.index (Js.split "." token) 1) with
  | Ok (Some exp) => exp * 1000 <? now
  | Ok None => false
  | Throw _ => true
  end.

End TokenManager.

(** *** HttpClient *)

(** The body of a request: none, the JSON of some data, or the JSON of
    [{ refreshToken }]. *)
Inductive Payload (D : Type) :=
| NoBody
| Json (data : D)
| RefreshJson (refreshToken : string).
Arguments NoBody {D}.
Arguments Json {D} data.
Arguments RefreshJson {D} refreshToken.

Record Request (D : Type) := mkRequest {
  url : string;
  method : string;
  authorization : option string;
  payload : Payload D
}.
Arguments mkRequest {D} url method authorization payload.
Arguments url {D} r.
Arguments method {D} r.
Arguments authorization {D} r.
Arguments payload {D} r.

(** What [fetch] and [response.json()] give: the status and the envelope,
    or an exception. *)
Inductive Fetched :=
| Failed
| Answered (r : Response).

Definition API_BASE_URL : string := "/api".

Definition NETWORK_ERROR : Body := ErrorBody "NETWORK_ERROR" "Network request failed".

(** [data.error?.code === code] *)
Definition error_code_is (code : string) (b : Body) : bool :=
  match b with
  | ErrorBody c _ => String.eqb c code
  | _ => false
  end.

(** [data.success] *)
Definition is_success (b : Body) : bool :=
  match b with
  | ErrorBody _ _ => false
  | _ => true
  end.

(** [data.data?.accessToken] of a success envelope. *)
Definition data_accessToken (b : Body) : option string :=
  match b with
  | AccessTokenData a => Some a
  | AuthData r => Some (accessToken (AuthResponse.tokens r))
  | _ => None
  end.

(** [response.error?.message] *)
Definition error_message (b : Body) : option string :=
  match b with
  | ErrorBody _ m => Some m
  | _ => None
  end.

Section HttpClient.
Context `{PayloadReader}.
(** The network and the server behind it: [fetch], on a world [W] that a
    request may change. *)
Context {D W : Type} (fetch : Request D -> W -> Fetched * W).

(** [HttpClient.refreshAccessToken()] *)
Definition refreshAccessToken (ls : Storage) (w : W) : bool * Storage * W :=
  let refreshToken := getRefreshToken ls in
  if negb (Js.truthy refreshToken) then (false, ls, w)
  else
    match fetch (mkRequest (API_BASE_URL ++ "/auth/refresh") "POST" None
                   (RefreshJson (default "" refreshToken))) w with
    | (Failed, w') => (false, ls, w')
    | (Answered r, w') =>
        if is_success (body r) && Js.truthy (data_accessToken (body r)) then
          (true,
           setTokens (default "" (data_accessToken (body r))) (default "" refreshToken) ls,
           w')
        else (false, ls, w')
    end.

(** The [Authorization] header a request first goes out with: the stored
    access token, if there is one and the browser does not find it
    expired. *)
Definition sent_authorization (ls : Storage) (now : Z) : option string :=
  let accessToken := getAccessToken ls in
  if Js.truthy accessToken && negb (isTokenExpired (default "" accessToken) now)
  then Some ("Bearer " ++ default "" accessToken)
  else None.

(** [HttpClient.makeRequest(endpoint, { method, body })]; [now] is the
    browser's clock.  It answers the envelope received, or NETWORK_ERROR. *)
Definition makeRequest (endpoint method : string) (payload : Payload D)
    (ls : Storage) (now : Z) (w : W) : Body * Storage * W :=
  let url := API_BASE_URL ++ endpoint in
  let authorization := sent_authorization ls now in
  match fetch (mkRequest url method authorization payload) w with
  | (Failed, w1) => (NETWORK_ERROR, ls, w1)
  | (Answered r, w1) =>
      if (status r =? 401) && error_code_is "TOKEN_EXPIRED" (body r) then
        let '(refreshed, ls2, w2) := refreshAccessToken ls w1 in
        if refreshed then
          let newAccessToken := getAccessToken ls2 in
          if Js.truthy newAccessToken then
            match fetch (mkRequest url method
                           (Some ("Bearer " ++ default "" newAccessToken)) payload) w2 with
            | (Failed, w3) => (NETWORK_ERROR, ls2, w3)
            | (Answered r', w3) => (body r', ls2, w3)
            end
          else (body r, ls2, w2)
        else (body r, ls2, w2)
      else (body r, ls, w1)
  end.

(** [get], [post], [put] and [delete]: a body is sent when there is data. *)
Definition get (endpoint : string) := makeRequest endpoint "GET" NoBody.
Definition post (endpoint : string) (data : option D) :=
  makeRequest endpoint "POST" (match data with Some d => Json d | None => NoBody end).
Definition put (endpoint : string) (data : option D) :=
  makeRequest endpoint "PUT" (match data with Some d => Json d | None => NoBody end).
Definition delete_ (endpoint : string) := makeRequest endpoint "DELETE" NoBody.

(** *** authApi *)

Definition authApi_login (credentials : D) := post "/auth/login" (Some credentials).
Definition authApi_register (userData : D) := post "/auth/register" (Some userData).
Definition authApi_getCurrentUser := get "/auth/me".

Definition authApi_logout (ls : Storage) (now : Z) (w : W) : Body * Storage * W :=
  let '(result, ls', w') := post "/auth/logout" None ls now w in
  (result, clearTokens ls', w').

End HttpClient.

(** *** AuthManager *)

(** The client's [User]. *)
Module User.
Record t := mk {
  id : string;
  email : string;
  name : option string;
  role : Role;
  createdAt : option Z;
  updatedAt : option Z
}.
End User.

(** [response.data.user] of a session, and of the current-user answer. *)
Definition user_of_session (u : AuthResponse.user_t) : User.t :=
  User.mk (AuthResponse.id u) (AuthResponse.email u) (AuthResponse.name u)
    (AuthResponse.role u) None None.

Definition user_of_current (u : ReqUser.t) : User.t :=
  User.mk (ReqUser.id u) (ReqUser.email u) (ReqUser.name u) (ReqUser.role u)
    (Some (ReqUser.createdAt u)) (Some (ReqUser.updatedAt u)).

Module AppState.
Record t := mk {
  user : option User.t;
  isAuthenticated : bool;
  isLoading : bool;
  error : option string
}.
(** [Partial<AppState>]: each key present or not. *)
Record partial := mkPartial {
  set_user : option (option User.t);
  set_isAuthenticated : option bool;
  set_isLoading : option bool;
  set_error : option (option string)
}.
(** [{ ...state, ...newState }] *)
Definition merge (s : t) (n : partial) : t :=
  mk (default (user s) (set_user n))
     (default (isAuthenticated s) (set_isAuthenticated n))
     (default (isLoading s) (set_isLoading n))
     (default (error s) (set_error n)).
Definition initial : t := mk None false false None.
End AppState.

(** The manager: its state, its listeners in the order they subscribed, and
    the calls made to listeners so far, each with the state it was passed.
    A listener is known by its identity. *)
Record Manager := mkManager {
  state : AppState.t;
  listeners : list nat;
  notified : list (nat * AppState.t)
}.

Definition setState (newState : AppState.partial) (m : Manager) : Manager :=
  let s := AppState.merge (state m) newState in
  mkManager s (listeners m) (notified m ++ ((fun l => (l, s)) <$> listeners m)).

(** [this.listeners.indexOf(listener)] *)
Fixpoint indexOf (listener : nat) (l : list nat) : option nat :=
  match l with
  | [] => None
  | x :: l' => if Nat.eqb x listener then Some O else S <$> indexOf listener l'
  end.

(** [subscribe(listener)], and the function it returns. *)
Definition subscribe (listener : nat) (m : Manager) : Manager :=
  mkManager (state m) (listeners m ++ [listener]) (notified m).

Definition unsubscribe (listener : nat) (m : Manager) : Manager :=
  match indexOf listener (listeners m) with
  | Some index =>
      mkManager (state m) (take index (listeners m) ++ drop (S index) (listeners m))
        (notified m)
  | None => m
  end.

Definition getState (m : Manager) : AppState.t := state m.

Definition hasRole (role : Role) (m : Manager) : bool :=
  match AppState.user (state m) with
  | Some u => bool_decide (User.role u = role)
  | None => false
  end.

Definition hasAnyRole (roles : list Role) (m : Manager) : bool :=
  match AppState.user (state m) with
  | Some u => bool_decide (User.role u ∈ roles)
  | None => false
  end.

Definition isAdmin := hasRole ADMIN.
Definition isStaff := hasAnyRole [ADMIN; STAFF].
Definition canViewPosts := hasAnyRole [ADMIN; STAFF; MEMBER; OWNER].
Definition canManagePosts := hasAnyRole [ADMIN; STAFF].
Definition canManageUsers := hasRole ADMIN.

Definition getRedirectUrl (m : Manager) : string :=
  match AppState.user (state m) with
  | None => "/login.html"
  | Some u =>
      match User.role u with
      | ADMIN => "/admin-dashboard.html"
      | STAFF => "/employee-dashboard.html"
      | MEMBER => "/collaborator-dashboard.html"
      | OWNER => "/owner-dashboard.html"
      end
  end.

Section AuthManager.
Context `{PayloadReader}.
Context {D W : Type} (fetch : Request D -> W -> Fetched * W).

(** What [login] and [register] resolve to. *)
Record Attempt := mkAttempt {
  attempt_success : bool;
  attempt_error : option string
}.

(** The common body of [login] and [register], past the API call: [sent] is
    the envelope the call answered and [failed] the message used when it
    carries none.  The data of a success is a session, by the type of the
    call; the call itself catches what [fetch] throws, so the [catch] of
    the two methods is not entered. *)
Definition settle (sent : Body) (failed : string) (m : Manager) (ls : Storage)
    : Attempt * Manager * Storage :=
  match sent with
  | AuthData session =>
      (mkAttempt true None,
       setState (AppState.mkPartial
                   (Some (Some (user_of_session (AuthResponse.user session))))
                   (Some true) (Some false) (Some None)) m,
       setTokens (accessToken (AuthResponse.tokens session))
         (refreshToken (AuthResponse.tokens session)) ls)
  | _ =>
      let message := Js.or_else (error_message sent) failed in
      (mkAttempt false (Some message),
       setState (AppState.mkPartial None None (Some false) (Some (Some message))) m,
       ls)
  end.

(** [login(credentials)] *)
Definition login (credentials : D) (m : Manager) (ls : Storage) (now : Z) (w : W)
    : Attempt * Manager * Storage * W :=
  let m := setState (AppState.mkPartial None None (Some true) (Some None)) m in
  let '(response, ls, w) := authApi_login fetch credentials ls now w in
  let '(attempt, m, ls) := settle response "Login failed" m ls in
  (attempt, m, ls, w).

(** [register(userData)] *)
Definition register (userData : D) (m : Manager) (ls : Storage) (now : Z) (w : W)
    : Attempt * Manager * Storage * W :=
  let m := setState (AppState.mkPartial None None (Some true) (Some None)) m in
  let '(response, ls, w) := authApi_register fetch userData ls now w in
  let '(attempt, m, ls) := settle response "Registration failed" m ls in
  (attempt, m, ls, w).

(** The state [logout] and a failed start end in. *)
Definition signed_out : AppState.partial :=
  AppState.mkPartial (Some None) (Some false) (Some false) None.

(** [logout()] *)
Definition logout (m : Manager) (ls : Storage) (now : Z) (w : W)
    : Manager * Storage * W :=
  let m := setState (AppState.mkPartial None None (Some true) None) m in
  let '(_, ls, w) := authApi_logout fetch ls now w in
  (setState (AppState.mkPartial (Some None) (Some false) (Some false) (Some None)) m,
   clearTokens ls, w).

(** [initializeAuth()] *)
Definition initializeAuth (m : Manager) (ls : Storage) (now : Z) (w : W)
    : Manager * Storage * W :=
  let m := setState (AppState.mkPartial None None (Some true) None) m in
  let accessToken := getAccessToken ls in
  let refreshToken := getRefreshToken ls in
  if negb (Js.truthy accessToken) || negb (Js.truthy refreshToken) then
    (setState signed_out m, ls, w)
  else if isTokenExpired (default "" accessToken) now then
    let '(response, ls, w) := authApi_logout fetch ls now w in
    let ls := if is_success response then clearTokens ls else ls in
    (setState signed_out m, ls, w)
  else
    let '(response, ls, w) := authApi_getCurrentUser fetch ls now w in
    match response with
    | UserData u =>
        (setState (AppState.mkPartial (Some (Some (user_of_current u))) (Some true)
                     (Some false) (Some None)) m, ls, w)
    | _ =>
        (setState (AppState.mkPartial (Some None) (Some false) (Some false)
                     (Some (Some (Js.or_else (error_message response)
                                    "Failed to get user info")))) m, ls, w)
    end.

End AuthManager.

(** A server whose routes all stand behind [router.use(authenticateToken)],
    as [fetch] sees it: the gate answers, or the route [handler] does for
    the user attached. *)
Definition behind_gate `{Jws} `{Env} {D : Type} (db : Db) (server_now : Z)
    (handler : ReqUser.t -> Request D -> Response)
    (request : Request D) (w : unit) : Fetched * unit :=
  match authenticateToken db server_now (authorization request) with
  | Reply r => (Answered r, w)
  | Next user => (Answered (handler user request), w)
  end.

End Client.

(** ** client/ui.ts: FormUtils *)

Module FormUtils.

Definition is_upper (c : ascii) : bool :=
  let n := N_of_ascii c in (N.leb 65 n && N.leb n 90)%bool.

(** [/[A-Z]/.test(s)] and [/[0-9]/.test(s)] *)
Fixpoint test_class (class : ascii -> bool) (s : string) : bool :=
  match s with
  | EmptyString => false
  | String c rest => class c || test_class class rest
  end.

Record Verdict := mkVerdict {
  isValid : bool;
  message : string
}.

Definition validatePassword (password : string) : Verdict :=
  if (Js.length password <? 8)%nat then
    mkVerdict false "Password must be at least 8 characters"
  else if negb (test_class is_upper password) then
    mkVerdict false "Password must contain at least one uppercase letter"
  else if negb (test_class Js.is_digit password) then
    mkVerdict false "Password must contain at least one number"
  else mkVerdict true "Password is strong".

End FormUtils.

(** U+1F600, a character outside the basic plane: four bytes, two UTF-16
    code units. *)
Definition grinning_face : string :=
  String (ascii_of_N 240) (String (ascii_of_N 159)
    (String (ascii_of_N 152) (String (ascii_of_N 128) EmptyString))).

(** U+20AC, a character of the basic plane: three bytes, one UTF-16 code
    unit. *)
Definition euro_sign : string :=
  String (ascii_of_N 226) (String (ascii_of_N 130) (String (ascii_of_N 172) EmptyString)).

(** The middle segment of the sample tokens, as the browser reads it. *)
Definition sample_reader : Client.PayloadReader := {|
  Client.payload_exp segment :=
    match segment with
    | Some s =>
        if String.eqb s "expired" then Ok (Some 1000)
        else if String.eqb s "access" then Ok (Some 2400)
        else if String.eqb s "refresh" then Ok (Some 606300)
        else Throw (Error "The string to be decoded is not correctly encoded.")
    | None => Throw (Error "The string to be decoded is not correctly encoded.")
    end
|}.

(** The browser's storage after Alice logged in, and with her old token. *)
Definition alice_storage : Client.Storage :=
  Client.setTokens "alice.access" "alice.refresh" ∅.
Definition stale_storage : Client.Storage :=
  Client.setTokens "alice.expired" "alice.refresh" ∅.

(** A server for the examples: the refresh endpoint, in front of routes
    that stand behind the gate and answer who is asking. *)
Definition example_server `{Jws} `{Env} (db : Db) (server_now : Z)
    (request : Client.Request unit) (w : unit) : Client.Fetched * unit :=
  if String.eqb (Client.url request) "/api/auth/refresh" then
    match Client.payload request with
    | Client.RefreshJson refreshToken =>
        (Client.Answered (fst (refresh db server_now (Some refreshToken))), w)
    | _ => (Client.Answered (fst (refresh db server_now None)), w)
    end
  else
    Client.behind_gate db server_now (fun user _ => success 200 (UserData user)) request w.

(** Tokens in circulation at clock 1 000 000 ms: Bob's access token,
    expiring at that instant, and the pair a refresh makes then. *)
Definition boundary_book : list Codebook.entry :=
  sample_book ++ [
    Codebook.mk "bob.expired" "HS256" (claims bob 100 1000) "sig-1" "fallback-access-secret";
    Codebook.mk "bob.access.renewed" "HS256" (claims bob 1000 1900) "sig-2"
      "fallback-access-secret";
    Codebook.mk "bob.refresh.renewed" "HS256" (claims bob 1000 605800) "sig-3"
      "fallback-refresh-secret"
  ].

Definition boundary_jws : Jws := Codebook.jws boundary_book.

Definition bob_storage : Client.Storage :=
  Client.setTokens "bob.expired" "bob.refresh" ∅.


Definition fresh_manager : Client.Manager :=
  Client.mkManager Client.AppState.initial [] [].

(** ** postsApi.getPosts *)

Module PostsApi.

(** [n.toString()] for a whole number that JavaScript prints in plain
    decimal notation (those below 10^21 in size): a minus sign for a
    negative one, then the decimal digits, the first of them not zero. *)
Definition digit_char (d : Z) : ascii := ascii_of_N (Z.to_N (48 + d)).

Fixpoint digits_of (fuel : nat) (n : Z) (acc : string) : string :=
  match fuel with
  | O => acc
  | S fuel =>
      let acc := String (digit_char (n mod 10)) acc in
      if n <? 10 then acc else digits_of fuel (n / 10) acc
  end.

Definition toString (n : Z) : string :=
  if n <? 0 then String "-" (digits_of (S (Z.to_nat (Z.log2 (- n)))) (- n) "")
  else digits_of (S (Z.to_nat (Z.log2 n))) n "".

(** [Number.isSafeInteger]: the whole numbers a JavaScript number holds
    exactly; [toString] prints them in plain decimal notation. *)
Definition MAX_SAFE_INTEGER : Z := 2 ^ 53 - 1.

Definition isSafeInteger (n : Z) : bool :=
  (- MAX_SAFE_INTEGER <=? n) && (n <=? MAX_SAFE_INTEGER).

Record Params := mkParams {
  page : option Z;
  limit : option Z;
  status : option string;
  search : option string
}.

(** [if (params?.page)]: a number that is not zero. *)
Definition truthy_number (n : option Z) : bool :=
  match n with
  | Some v => negb (v =? 0)
  | None => false
  end.

(** The [URLSearchParams] that [getPosts(params)] builds: the pairs
    appended, in order. *)
Definition getPosts_query (params : option Params) : list (string * string) :=
  match params with
  | None => []
  | Some p =>
      (if truthy_number (page p) then [("page", toString (default 0 (page p)))] else [])
      ++ (if truthy_number (limit p) then [("limit", toString (default 0 (limit p)))] else [])
      ++ (if Js.truthy (status p) then [("status", default "" (status p))] else [])
      ++ (if Js.truthy (search p) then [("search", default "" (search p))] else [])
  end.

(** [req.query] for a query string whose keys are not repeated: the value
    of each key that is there. *)
Fixpoint query_value (key : string) (pairs : list (string * string)) : option string :=
  match pairs with
  | [] => None
  | (k, v) :: rest => if String.eqb k key then Some v else query_value key rest
  end.

Definition query_received (pairs : list (string * string)) : PostsQuery.t :=
  PostsQuery.mk (query_value "page" pairs) (query_value "limit" pairs)
    (query_value "status" pairs) (query_value "search" pairs).

End PostsApi.

(** ** The seed script *)

Module Seed.

(** The [create] data of an upsert of a user; [isActive] is given for
    the administrator only. *)
Record UserData := mkUserData {
  email : string;
  password : string;
  name : string;
  role : Role;
  isActive : option bool
}.

Record PostData := mkPostData {
  title : string;
  content : string;
  status : PostStatus;
  authorId : string;
  createdById : string
}.

(** Two rows that differ at most in [updatedAt]. *)
Definition same_account (u u' : User.t) : Prop :=
  User.id u' = User.id u
  /\ User.email u' = User.email u
  /\ User.password u' = User.password u
  /\ User.name u' = User.name u
  /\ User.role u' = User.role u
  /\ User.isActive u' = User.isActive u
  /\ User.createdAt u' = User.createdAt u.

Section Script.
Context `{Bcrypt} `{Schema} `{Generated}.

(** The [updatedAt] column after an update that sets no column, from its
    value before and the clock: the Prisma client's choice. *)
Variable empty_update : Z -> Z -> Z.

(** [prisma.user.upsert({ where: { email }, update: {}, create })] *)
Definition user_upsert (db : Db) (now : Z) (create : UserData) : Result (User.t * Db) :=
  match findUserByEmail db (email create) with
  | Some u =>
      let row := User.mk (User.id u) (User.email u) (User.password u) (User.name u)
                   (User.role u) (User.isActive u) (User.createdAt u)
                   (empty_update (User.updatedAt u) now) in
      Ok (row, mkDb (<[User.id u := row]> (users db)) (posts db))
  | None =>
      let key := cuid (users db) in
      match users db !! key with
      | Some _ => Throw (Error "Unique constraint failed")
      | None =>
          let row := User.mk key (email create) (password create) (Some (name create))
                       (role create) (default isActive_default (isActive create))
                       now now in
          Ok (row, mkDb (<[key := row]> (users db)) (posts db))
      end
  end.

(** [prisma.post.create({ data })] *)
Definition post_create (db : Db) (now : Z) (data : PostData) : Result (Post.t * Db) :=
  let key := post_cuid (posts db) in
  match findPost db key with
  | Some _ => Throw (Error "Unique constraint failed")
  | None =>
      let post := Post.mk key (title data) (content data) (status data) (authorId data)
                    (createdById data) now now in
      Ok (post, mkDb (users db) (posts db ++ [post]))
  end.

(** [for (const userData of sampleUsers) { await prisma.user.upsert(...) }];
    [clock tick] is the time of the script's write number [tick]. *)
Fixpoint upsert_each (db : Db) (clock : nat -> Z) (tick : nat) (l : list UserData)
    : Result Db :=
  match l with
  | [] => Ok db
  | userData :: l =>
      let? (_, db) := user_upsert db (clock tick) userData in
      upsert_each db clock (S tick) l
  end.

(** [for (const postData of samplePosts) { await prisma.post.create(...) }] *)
Fixpoint create_each (db : Db) (clock : nat -> Z) (tick : nat) (l : list PostData)
    : Result Db :=
  match l with
  | [] => Ok db
  | postData :: l =>
      let? (_, db) := post_create db (clock tick) postData in
      create_each db clock (S tick) l
  end.

Definition sampleUsers : list UserData := [
  mkUserData "owner@example.com" (bcrypt_hash "password123" 12) "SME Owner" OWNER None;
  mkUserData "staff@example.com" (bcrypt_hash "password123" 12) "SME Employee" STAFF None;
  mkUserData "member@example.com" (bcrypt_hash "password123" 12) "Affiliate Partner"
    MEMBER None
].

Definition samplePosts (admin : User.t) : list PostData := [
  mkPostData "Welcome to AffiliateFlow"
    "This is your first post! Use this space to share updates, announcements, or important information with your team."
    PUBLISHED (User.id admin) (User.id admin);
  mkPostData "Getting Started Guide"
    "Learn how to make the most of our affiliate management platform. Check out the documentation for detailed guides."
    PUBLISHED (User.id admin) (User.id admin);
  mkPostData "New Features Coming Soon"
    "We are working on exciting new features including advanced analytics, automated reporting, and mobile app support."
    DRAFT (User.id admin) (User.id admin)
].

(** [main()]: [ADMIN_PASSWORD] is the variable of the environment; a
    [Throw] is the rejection that ends the process with code 1. *)
Definition main (ADMIN_PASSWORD : option string) (clock : nat -> Z) (db : Db)
    : Result Db :=
  let adminPassword := Js.or_else ADMIN_PASSWORD "Admin@12345" in
  let hashedAdminPassword := bcrypt_hash adminPassword 12 in
  let? (admin, db) :=
    user_upsert db (clock 0%nat)
      (mkUserData "admin@site.local" hashedAdminPassword "System Administrator" ADMIN
         (Some true)) in
  let? db := upsert_each db clock 1%nat sampleUsers in
  create_each db clock 4%nat (samplePosts admin).

End Script.
End Seed.

(** A schema and a generator that hand out keys in a fixed order. *)
Definition schema_serial : Schema := {|
  cuid m := nth (size m) ["s1"; "s2"; "s3"; "s4"; "s5"; "s6"; "s7"; "s8"] "s9";
  isActive_default := true;
  user_delete db k := Ok (mkDb (delete k (users db)) (posts db))
|}.

Definition generated_serial : Generated := {|
  post_cuid l := nth (length l) ["q1"; "q2"; "q3"; "q4"; "q5"; "q6"; "q7"; "q8"] "q9";
  updatedAt_on_update _ now := now
|}.

Definition empty_db : Db := mkDb ∅ [].

Definition seed_clock (tick : nat) : Z := 1000 + Z.of_nat tick.

(** * Properties *)

(** ** Supporting facts *)

Lemma truthy_Some (s : string) : s <> "" -> Js.truthy (Some s) = true.
Proof.
  intros Hs. unfold Js.truthy.
  destruct (String.eqb_spec s ""); [contradiction | reflexivity].
Qed.

Lemma truthy_inv (v : option string) :
  Js.truthy v = true -> exists s, v = Some s /\ s <> "".
Proof.
  destruct v as [s|]; simpl; [|discriminate].
  destruct (String.eqb_spec s ""); [discriminate|]. eauto.
Qed.

Lemma existsb_eqb_elem_of (a : string) (l : list string) :
  a ∈ l -> existsb (String.eqb a) l = true.
Proof.
  intros Hin. apply existsb_exists. exists a. split.
  - by apply list_elem_of_In.
  - apply String.eqb_refl.
Qed.

Section AuthenticationFacts.
Context `{Jws} `{Env}.

(** What [authenticateToken] does with a token that is present. *)
Lemma authenticateToken_present db now authorization token :
  bearer authorization = Some token -> token <> "" ->
  authenticateToken db now authorization =
    match Jwt.verify token ACCESS_SECRET now with
    | Ok decoded =>
        match users db !! JWTPayload.userId decoded with
        | None => Reply (error 401 "USER_NOT_FOUND" "User not found")
        | Some user =>
            if negb (User.isActive user) then
              Reply (error 401 "USER_INACTIVE" "User account is inactive")
            else Next (ReqUser.select user)
        end
    | Throw e =>
        if instanceof_TokenExpiredError e then
          Reply (error 401 "TOKEN_EXPIRED" "Access token has expired")
        else if instanceof_JsonWebTokenError e then
          Reply (error 401 "INVALID_TOKEN" "Invalid access token")
        else Reply (error 500 "AUTH_ERROR" "Authentication error")
    end.
Proof.
  intros Hb Hne. unfold authenticateToken.
  rewrite Hb, (truthy_Some _ Hne). reflexivity.
Qed.

(** A request passes [authenticateToken] only with a row of the table. *)
Lemma authenticateToken_Next db now authorization u :
  authenticateToken db now authorization = Next u ->
  exists key user, users db !! key = Some user
                   /\ User.isActive user = true /\ u = ReqUser.select user.
Proof.
  unfold authenticateToken.
  destruct (negb (Js.truthy (bearer authorization))); [discriminate|].
  destruct (Jwt.verify _ _ _) as [decoded|e].
  - destruct (users db !! JWTPayload.userId decoded) as [user|] eqn:Hu; [|discriminate].
    destruct (User.isActive user) eqn:Ha; simpl; [|discriminate].
    intros [= <-]. eauto.
  - destruct (instanceof_TokenExpiredError e); [discriminate|].
    destruct (instanceof_JsonWebTokenError e); discriminate.
Qed.

(** The outcomes of [jwt.verify], by the checks in their order. *)
Lemma verify_bad_signature token secret now alg payload signature :
  jws_decode token = Some (alg, payload, signature) ->
  jws_verify token alg secret = false ->
  exists message, Jwt.verify token secret now = Throw (JsonWebTokenError message).
Proof.
  intros Hd Hv. unfold Jwt.verify. rewrite Hd.
  destruct (Js.blank signature); [eauto|].
  destruct (negb (existsb _ _)); [eauto|].
  rewrite Hv. simpl. eauto.
Qed.

Lemma verify_good_signature token secret now alg payload signature :
  jws_decode token = Some (alg, payload, signature) ->
  Js.blank signature = false ->
  alg ∈ Jwt.HS_ALGS ->
  jws_verify token alg secret = true ->
  Jwt.verify token secret now =
    match JWTPayload.exp payload with
    | Some e =>
        if now / 1000 >=? e then Throw (TokenExpiredError "jwt expired") else Ok payload
    | None => Ok payload
    end.
Proof.
  intros Hd Hb Ha Hv. unfold Jwt.verify.
  rewrite Hd, Hb, (existsb_eqb_elem_of _ _ Ha), Hv. reflexivity.
Qed.

(** A token that verifies decodes, and to the payload returned. *)
Lemma verify_Ok token secret now payload :
  Jwt.verify token secret now = Ok payload ->
  exists alg signature,
    jws_decode token = Some (alg, payload, signature)
    /\ Js.blank signature = false
    /\ existsb (String.eqb alg) Jwt.HS_ALGS = true
    /\ jws_verify token alg secret = true
    /\ match JWTPayload.exp payload with
       | Some e => now / 1000 < e
       | None => True
       end.
Proof.
  unfold Jwt.verify.
  destruct (jws_decode token) as [[[alg p] signature]|]; [|discriminate].
  destruct (Js.blank signature) eqn:Hb; [discriminate|].
  destruct (existsb _ _) eqn:Ha; simpl; [|discriminate].
  destruct (jws_verify token alg secret) eqn:Hv; simpl; [|discriminate].
  destruct (JWTPayload.exp p) as [e|] eqn:He.
  - destruct (Z.geb_spec (now / 1000) e); [discriminate|].
    intros [= <-]. exists alg, signature. rewrite He. repeat split; auto.
  - intros [= <-]. exists alg, signature. rewrite He. repeat split; auto.
Qed.

End AuthenticationFacts.

(** ** Authorization gate *)

(** C5. In [authenticateToken], a request without a bearer token is answered
    401 MISSING_TOKEN, whatever the token library would say; and when the
    bearer token verifies under the access secret, the request is answered
    401 USER_NOT_FOUND if the table has no row for the token's [userId],
    401 USER_INACTIVE if the row's active flag is false, and otherwise the
    row (every column but the password) is attached to the request and the
    next handler runs. *)
Theorem authenticateToken_outcomes `{Jws} `{Env}
    (db : Db) (now : Z) (authorization : option string) :
  (Js.truthy (bearer authorization) = false ->
   authenticateToken db now authorization
   = Reply (error 401 "MISSING_TOKEN" "Access token is required"))
  /\
  (forall token decoded,
     bearer authorization = Some token -> token <> "" ->
     Jwt.verify token ACCESS_SECRET now = Ok decoded ->
     (users db !! JWTPayload.userId decoded = None ->
      authenticateToken db now authorization
      = Reply (error 401 "USER_NOT_FOUND" "User not found"))
     /\
     (forall user,
        users db !! JWTPayload.userId decoded = Some user ->
        User.isActive user = false ->
        authenticateToken db now authorization
        = Reply (error 401 "USER_INACTIVE" "User account is inactive"))
     /\
     (forall user,
        users db !! JWTPayload.userId decoded = Some user ->
        User.isActive user = true ->
        authenticateToken db now authorization = Next (ReqUser.select user))).
Proof.
  split.
  - intros Hm. unfold authenticateToken. rewrite Hm. reflexivity.
  - intros token decoded Hb Hne Hv.
    rewrite (authenticateToken_present db now _ _ Hb Hne), Hv.
    repeat split.
    + intros ->. reflexivity.
    + intros user -> ->. reflexivity.
    + intros user -> ->. reflexivity.
Qed.

Lemma authenticateToken_outcomes_witness :
  @authenticateToken sample_jws env_unset sample_db 2000000 (Some "Bearer")
  = Reply (error 401 "MISSING_TOKEN" "Access token is required")
  /\ @authenticateToken sample_jws env_unset sample_db 2000000 (Some "Bearer ghost.access")
     = Reply (error 401 "USER_NOT_FOUND" "User not found")
  /\ @authenticateToken sample_jws env_unset sample_db 2000000 (Some "Bearer carol.access")
     = Reply (error 401 "USER_INACTIVE" "User account is inactive")
  /\ @authenticateToken sample_jws env_unset sample_db 2000000 (Some "Bearer alice.access")
     = Next (ReqUser.select alice).
Proof.
  split; [|split; [|split]].
  - apply (@authenticateToken_outcomes sample_jws env_unset sample_db 2000000 (Some "Bearer")).
    reflexivity.
  - apply (proj2 (@authenticateToken_outcomes sample_jws env_unset sample_db 2000000
                    (Some "Bearer ghost.access"))
             "ghost.access"
             (JWTPayload.mk "u9" "ghost@example.com" MEMBER (Some 1500) (Some 2400)));
      [reflexivity | discriminate | reflexivity | reflexivity].
  - refine (proj1 (proj2 (proj2 (@authenticateToken_outcomes sample_jws env_unset sample_db
                    2000000 (Some "Bearer carol.access"))
             "carol.access" (claims carol 1500 2400) _ _ _)) carol _ _);
      [reflexivity | discriminate | reflexivity | reflexivity | reflexivity].
  - refine (proj2 (proj2 (proj2 (@authenticateToken_outcomes sample_jws env_unset sample_db
                    2000000 (Some "Bearer alice.access"))
             "alice.access" (claims alice 1500 2400) _ _ _)) alice _ _);
      [reflexivity | discriminate | reflexivity | reflexivity | reflexivity].
Defined.

(** C2, as the code has it.  [jwt.verify] checks the signature before it
    looks at the expiry, so among the tokens whose expiry has elapsed:
    one that is well formed and whose signature is valid under the access
    secret is answered 401 TOKEN_EXPIRED; one whose signature does not
    check under the access secret is answered 401 INVALID_TOKEN. *)
Theorem expired_token_outcomes `{Jws} `{Env}
    (db : Db) (now : Z) (authorization : option string)
    (token alg : string) (payload : JWTPayload.t) (signature : string) (e : Z) :
  bearer authorization = Some token ->
  token <> "" ->
  jws_decode token = Some (alg, payload, signature) ->
  JWTPayload.exp payload = Some e ->
  e <= now / 1000 ->
  (Js.blank signature = false -> alg ∈ Jwt.HS_ALGS ->
   jws_verify token alg ACCESS_SECRET = true ->
   authenticateToken db now authorization
   = Reply (error 401 "TOKEN_EXPIRED" "Access token has expired"))
  /\
  (jws_verify token alg ACCESS_SECRET = false ->
   authenticateToken db now authorization
   = Reply (error 401 "INVALID_TOKEN" "Invalid access token")).
Proof.
  intros Hb Hne Hd He Hexp. rewrite (authenticateToken_present db now _ _ Hb Hne). split.
  - intros Hs Ha Hv.
    rewrite (verify_good_signature _ _ now _ _ _ Hd Hs Ha Hv), He.
    destruct (Z.geb_spec (now / 1000) e); [reflexivity | lia].
  - intros Hv.
    destruct (verify_bad_signature _ _ now _ _ _ Hd Hv) as [message ->].
    reflexivity.
Qed.

Lemma expired_token_outcomes_witness :
  @authenticateToken sample_jws env_unset sample_db 2000000 (Some "Bearer alice.expired")
  = Reply (error 401 "TOKEN_EXPIRED" "Access token has expired").
Proof.
  refine (proj1 (@expired_token_outcomes sample_jws env_unset sample_db 2000000
                   (Some "Bearer alice.expired") "alice.expired" "HS256"
                   (claims alice 100 1000) "sig-e" 1000 _ _ _ _ _) _ _ _).
  - reflexivity.
  - discriminate.
  - reflexivity.
  - reflexivity.
  - vm_compute. discriminate.
  - reflexivity.
  - set_solver.
  - reflexivity.
Defined.

(** C2, as stated, fails: a token that expired at second 1000, presented at
    second 2000 and signed with a key other than the access secret, is
    answered INVALID_TOKEN, not TOKEN_EXPIRED. *)
Lemma expired_forged_token_is_invalid :
  @jws_decode sample_jws "alice.expired.forged"
  = Some ("HS256", claims alice 100 1000, "sig-f")
  /\ 1000 <= 2000000 / 1000
  /\ @jws_verify sample_jws "alice.expired.forged" "HS256" (@ACCESS_SECRET env_unset) = false
  /\ @authenticateToken sample_jws env_unset sample_db 2000000
       (Some "Bearer alice.expired.forged")
     = Reply (error 401 "INVALID_TOKEN" "Invalid access token")
  /\ @authenticateToken sample_jws env_unset sample_db 2000000
       (Some "Bearer alice.expired.forged")
     <> Reply (error 401 "TOKEN_EXPIRED" "Access token has expired").
Proof.
  split; [reflexivity|]. split; [vm_compute; discriminate|].
  split; [reflexivity|]. split; [reflexivity|].
  vm_compute. discriminate.
Qed.

(** C4. Past [authenticateToken], a guard [requireRole roles] lets the
    request through exactly when the role of the attached user is a member
    of [roles]; otherwise it answers 403 INSUFFICIENT_PERMISSIONS.  No role
    stands for another: under the staff guard a MEMBER is refused, and so
    is an OWNER, while STAFF and ADMIN pass. *)
Theorem requireRole_exact_membership `{Jws} `{Env}
    (db : Db) (now : Z) (authorization : option string) (u : ReqUser.t)
    (roles : list Role) :
  authenticateToken db now authorization = Next u ->
  (guarded (requireRole roles) db now authorization = Next u
   <-> ReqUser.role u ∈ roles)
  /\
  (ReqUser.role u ∉ roles ->
   guarded (requireRole roles) db now authorization
   = Reply (error 403 "INSUFFICIENT_PERMISSIONS" "Insufficient permissions for this action"))
  /\
  (ReqUser.role u = MEMBER ->
   guarded requireStaff db now authorization
   = Reply (error 403 "INSUFFICIENT_PERMISSIONS" "Insufficient permissions for this action"))
  /\
  (ReqUser.role u = STAFF \/ ReqUser.role u = ADMIN ->
   guarded requireStaff db now authorization = Next u).
Proof.
  intros Hauth. unfold guarded, requireStaff. rewrite Hauth. unfold requireRole.
  split; [|split; [|split]].
  - case_bool_decide as Hin; simpl; split; try done.
  - intros Hnot. rewrite bool_decide_eq_false_2 by done. reflexivity.
  - intros ->. reflexivity.
  - intros [-> | ->]; reflexivity.
Qed.

Lemma requireRole_exact_membership_witness :
  @guarded sample_jws env_unset requireStaff sample_db 2000000 (Some "Bearer bob.access")
  = Reply (error 403 "INSUFFICIENT_PERMISSIONS" "Insufficient permissions for this action")
  /\ @guarded sample_jws env_unset requireStaff sample_db 2000000 (Some "Bearer alice.access")
     = Next (ReqUser.select alice).
Proof.
  split.
  - refine (proj1 (proj2 (proj2 (@requireRole_exact_membership sample_jws env_unset
              sample_db 2000000 (Some "Bearer bob.access") (ReqUser.select bob)
              [ADMIN; STAFF] _))) _); reflexivity.
  - refine (proj2 (proj2 (proj2 (@requireRole_exact_membership sample_jws env_unset
              sample_db 2000000 (Some "Bearer alice.access") (ReqUser.select alice)
              [ADMIN; STAFF] _))) _); [reflexivity | right; reflexivity].
Defined.

(** ** Token service *)

Section TokenFacts.
Context `{Jws} `{Env}.

Lemma ms_access_expiry : Jwt.ms ACCESS_TOKEN_EXPIRY = Some 900000.
Proof. reflexivity. Qed.

Lemma ms_refresh_expiry : Jwt.ms REFRESH_TOKEN_EXPIRY = Some 604800000.
Proof. reflexivity. Qed.

(** Signing a payload that carries neither [iat] nor [exp]. *)
Lemma sign_fresh userId email role secret expiresIn span now :
  Jwt.ms expiresIn = Some span ->
  Jwt.sign (JWTPayload.mk userId email role None None) secret expiresIn "HS256" now
  = Ok (jws_sign "HS256"
          (JWTPayload.mk userId email role (Some (now / 1000))
             (Some (now / 1000 + span / 1000)))
          secret).
Proof.
  intros Hms. unfold Jwt.sign, Jwt.timespan. simpl. rewrite Hms. reflexivity.
Qed.

(** [generateTokens] cannot throw, and what it returns. *)
Lemma generateTokens_eq (user : Identity.t) (now : Z) :
  generateTokens user now
  = Ok (mkTokens
          (jws_sign "HS256"
             (JWTPayload.mk (Identity.id user) (Identity.email user) (Identity.role user)
                (Some (now / 1000)) (Some (now / 1000 + 900)))
             ACCESS_SECRET)
          (jws_sign "HS256"
             (JWTPayload.mk (Identity.id user) (Identity.email user) (Identity.role user)
                (Some (now / 1000)) (Some (now / 1000 + 604800)))
             REFRESH_SECRET)).
Proof.
  unfold generateTokens.
  rewrite (sign_fresh _ _ _ _ _ _ _ ms_access_expiry).
  rewrite (sign_fresh _ _ _ _ _ _ _ ms_refresh_expiry).
  reflexivity.
Qed.

(** [refreshAccessToken] on a token that verifies. *)
Lemma refreshAccessToken_verified db now token decoded :
  Jwt.verify token REFRESH_SECRET now = Ok decoded ->
  refreshAccessToken db now token =
    match users db !! JWTPayload.userId decoded with
    | Some user =>
        if User.isActive user then
          generateTokens (Identity.mk (User.id user) (User.email user) (User.role user)) now
        else Throw (Error "Invalid refresh token")
    | None => Throw (Error "Invalid refresh token")
    end.
Proof.
  intros Hv. unfold refreshAccessToken. rewrite Hv. simpl.
  destruct (users db !! JWTPayload.userId decoded) as [user|]; [|reflexivity].
  destruct (User.isActive user); simpl; [|reflexivity].
  rewrite generateTokens_eq. reflexivity.
Qed.

(** [refreshAccessToken] throws one error only. *)
Lemma refreshAccessToken_Throw db now token e :
  refreshAccessToken db now token = Throw e -> e = Error "Invalid refresh token".
Proof.
  unfold refreshAccessToken, try_catch.
  destruct (bindR _ _); [discriminate|]. by intros [= <-].
Qed.

End TokenFacts.

(** C3. A refresh token that verifies under the refresh secret, for a user
    the table holds as active, yields a new access token whose claims are
    the id, the email and the role of the row read at refresh time, stamped
    with the clock; nothing of the claims the refresh token carries, other
    than the [userId] the row is found by, reaches it. *)
Theorem refreshAccessToken_current_user `{Jws} `{Env}
    (db : Db) (now : Z) (refreshToken : string) (decoded : JWTPayload.t) (user : User.t) :
  Jwt.verify refreshToken REFRESH_SECRET now = Ok decoded ->
  users db !! JWTPayload.userId decoded = Some user ->
  User.isActive user = true ->
  exists tokens,
    refreshAccessToken db now refreshToken = Ok tokens
    /\ accessToken tokens
       = jws_sign "HS256"
           (JWTPayload.mk (User.id user) (User.email user) (User.role user)
              (Some (now / 1000)) (Some (now / 1000 + 900)))
           ACCESS_SECRET.
Proof.
  intros Hv Hu Ha.
  rewrite (refreshAccessToken_verified db now _ _ Hv), Hu, Ha, generateTokens_eq.
  eexists. split; reflexivity.
Qed.

(** Bob's refresh token was issued when he was STAFF; the table now has him
    as MEMBER, and so has the access token the refresh yields. *)
Lemma refreshAccessToken_current_user_witness :
  JWTPayload.role (claims bob 2000 2900) = MEMBER
  /\ exists tokens,
       @refreshAccessToken sample_jws env_unset sample_db 2000000 "bob.refresh" = Ok tokens
       /\ accessToken tokens
          = @jws_sign sample_jws "HS256" (claims bob 2000 2900) "fallback-access-secret".
Proof.
  split; [reflexivity|].
  refine (@refreshAccessToken_current_user sample_jws env_unset sample_db 2000000
            "bob.refresh"
            (JWTPayload.mk "u2" "bob@example.com" STAFF (Some 1500) (Some 606300))
            bob _ _ _); reflexivity.
Defined.

Section RefreshFacts.
Context `{Jws} `{Env}.

(** The refresh endpoint on a token that is present. *)
Lemma refresh_present db now token :
  token <> "" ->
  refresh db now (Some token) =
    match refreshAccessToken db now token with
    | Ok tokens => (success 200 (AccessTokenData (accessToken tokens)), db)
    | Throw _ =>
        (error 401 "INVALID_REFRESH_TOKEN" "Invalid or expired refresh token", db)
    end.
Proof.
  intros Hne. unfold refresh. rewrite (truthy_Some _ Hne). reflexivity.
Qed.

(** The endpoint answers 200 only past [refreshAccessToken]. *)
Lemma refresh_200 db now token response db' :
  refresh db now (Some token) = (response, db') ->
  status response = 200 ->
  token <> "" /\ db' = db
  /\ exists tokens,
       refreshAccessToken db now token = Ok tokens
       /\ response = success 200 (AccessTokenData (accessToken tokens)).
Proof.
  unfold refresh. intros Hr Hs.
  destruct (Js.truthy (Some token)) eqn:Ht; simpl in Hr.
  - apply truthy_inv in Ht as (s & [= <-] & Hne).
    destruct (refreshAccessToken db now token) as [tokens|e].
    + injection Hr as <- <-. eauto.
    + injection Hr as <- <-. discriminate Hs.
  - injection Hr as <- <-. discriminate Hs.
Qed.

(** A refresh token is accepted by the same checks at any time before its
    expiry. *)
Lemma verify_again token secret now now' decoded :
  Jwt.verify token secret now = Ok decoded ->
  (forall e, JWTPayload.exp decoded = Some e -> now' / 1000 < e) ->
  Jwt.verify token secret now' = Ok decoded.
Proof.
  intros Hv Hexp.
  apply verify_Ok in Hv as (alg & signature & Hd & Hb & Halg & Hsig & _).
  unfold Jwt.verify. rewrite Hd, Hb, Halg, Hsig. simpl.
  destruct (JWTPayload.exp decoded) as [e|] eqn:He; [|reflexivity].
  specialize (Hexp e eq_refl).
  destruct (Z.geb_spec (now' / 1000) e); [lia|reflexivity].
Qed.

End RefreshFacts.

(** C8. A successful call of the refresh endpoint answers with the access
    token of the pair [refreshAccessToken] made and nothing else: the
    refresh token of that pair is dropped, the one presented is not
    replaced.  The call leaves the datastore as it was, and the datastore
    keeps no record of tokens, so nothing invalidates the token presented:
    at any later time before its expiry, and while its user is held active,
    presenting it again succeeds again. *)
Theorem refresh_without_rotation `{Jws} `{Env}
    (db : Db) (now : Z) (token : string) (response : Response) (db' : Db) :
  refresh db now (Some token) = (response, db') ->
  status response = 200 ->
  (exists tokens,
     refreshAccessToken db now token = Ok tokens
     /\ response = success 200 (AccessTokenData (accessToken tokens)))
  /\ db' = db
  /\ (forall now' later alg payload signature user,
        jws_decode token = Some (alg, payload, signature) ->
        (forall e, JWTPayload.exp payload = Some e -> now' / 1000 < e) ->
        users later !! JWTPayload.userId payload = Some user ->
        User.isActive user = true ->
        exists tokens',
          refresh later now' (Some token)
          = (success 200 (AccessTokenData (accessToken tokens')), later)).
Proof.
  intros Hr Hs.
  destruct (refresh_200 _ _ _ _ _ Hr Hs) as (Hne & -> & tokens & Hrt & ->).
  split; [eauto|]. split; [reflexivity|].
  intros now' later alg payload signature user Hd Hexp Hu Ha.
  assert (Hv : Jwt.verify token REFRESH_SECRET now = Ok payload).
  { unfold refreshAccessToken, try_catch in Hrt.
    destruct (Jwt.verify token REFRESH_SECRET now) as [d|] eqn:Hv; [|discriminate].
    destruct (verify_Ok _ _ _ _ Hv) as (alg0 & sig0 & Hd0 & _).
    rewrite Hd in Hd0. by injection Hd0 as <- <- <-. }
  pose proof (verify_again _ _ _ now' _ Hv Hexp) as Hv'.
  rewrite (refresh_present later now' _ Hne).
  rewrite (refreshAccessToken_verified later now' _ _ Hv'), Hu, Ha, generateTokens_eq.
  eexists (mkTokens _ _). reflexivity.
Qed.

(** Bob refreshes at second 2000 and, with the same token, one day later. *)
Lemma refresh_without_rotation_witness :
  snd (@refresh sample_jws env_unset sample_db 2000000 (Some "bob.refresh")) = sample_db
  /\ exists tokens',
       @refresh sample_jws env_unset sample_db 88400000 (Some "bob.refresh")
       = (success 200 (AccessTokenData (accessToken tokens')), sample_db).
Proof.
  destruct (@refresh_without_rotation sample_jws env_unset sample_db 2000000 "bob.refresh"
              (success 200 (AccessTokenData "bob.access.new")) sample_db)
    as (_ & Hdb & Hagain).
  - reflexivity.
  - reflexivity.
  - split; [reflexivity|].
    refine (Hagain 88400000 sample_db "HS256"
              (JWTPayload.mk "u2" "bob@example.com" STAFF (Some 1500) (Some 606300))
              "sig-r" bob _ _ _ _).
    + reflexivity.
    + intros e [= <-]. vm_compute. reflexivity.
    + reflexivity.
    + reflexivity.
Defined.

(** ** Sessions of inactive users *)

(** C6. A user whose active flag is false gets no session.  Login with
    that user's email and password is answered 401 ACCOUNT_INACTIVE, an
    error envelope, without a token being made; and any refresh token whose
    claims name that user is answered 401 INVALID_REFRESH_TOKEN by the
    refresh endpoint, [refreshAccessToken] having thrown. *)
Theorem inactive_user_gets_no_session `{Jws} `{Env} `{Validator} `{Bcrypt}
    (db : Db) (now : Z) (user : User.t) :
  User.isActive user = false ->
  (forall body : LoginRequest.t,
     isEmail (default "" (LoginRequest.email body)) = true ->
     isLength_min 6 (LoginRequest.password body) = true ->
     findUserByEmail db (normalizeEmail (default "" (LoginRequest.email body))) = Some user ->
     bcrypt_compare (default "" (LoginRequest.password body)) (User.password user) = true ->
     login db now body = (error 401 "ACCOUNT_INACTIVE" "Account is inactive", db))
  /\
  (forall token alg payload signature,
     token <> "" ->
     jws_decode token = Some (alg, payload, signature) ->
     users db !! JWTPayload.userId payload = Some user ->
     refreshAccessToken db now token = Throw (Error "Invalid refresh token")
     /\ refresh db now (Some token)
        = (error 401 "INVALID_REFRESH_TOKEN" "Invalid or expired refresh token", db)).
Proof.
  intros Hinactive. split.
  - intros body He Hp Hfind _. unfold login.
    rewrite He, Hp, Hfind, Hinactive. reflexivity.
  - intros token alg payload signature Hne Hd Hu.
    assert (Hthrow : refreshAccessToken db now token = Throw (Error "Invalid refresh token")).
    { destruct (Jwt.verify token REFRESH_SECRET now) as [decoded|e] eqn:Hv.
      - rewrite (refreshAccessToken_verified db now _ _ Hv).
        apply verify_Ok in Hv as (alg0 & sig0 & Hd0 & _).
        rewrite Hd in Hd0. injection Hd0 as <- <- <-.
        rewrite Hu, Hinactive. reflexivity.
      - unfold refreshAccessToken. rewrite Hv. reflexivity. }
    split; [exact Hthrow|].
    unfold refresh. rewrite (truthy_Some _ Hne). simpl. rewrite Hthrow. reflexivity.
Qed.

(** Carol is inactive: her password and her refresh token get her nothing. *)
Lemma inactive_user_gets_no_session_witness :
  @login sample_jws env_unset validator_plain bcrypt_tagged sample_db 2000000
    (LoginRequest.mk (Some "Carol@Example.com") (Some "password123") None)
  = (error 401 "ACCOUNT_INACTIVE" "Account is inactive", sample_db)
  /\ @refresh sample_jws env_unset sample_db 2000000 (Some "carol.refresh")
     = (error 401 "INVALID_REFRESH_TOKEN" "Invalid or expired refresh token", sample_db).
Proof.
  destruct (@inactive_user_gets_no_session sample_jws env_unset validator_plain bcrypt_tagged
              sample_db 2000000 carol eq_refl) as [Hlogin Hrefresh].
  split.
  - apply Hlogin; reflexivity.
  - apply (Hrefresh "carol.refresh" "HS256" (claims carol 1500 606300) "sig-s");
      [discriminate | reflexivity | reflexivity].
Defined.

(** ** User management *)

Section GuardFacts.
Context `{Jws} `{Env}.

(** Past the admin guard the request carries an ADMIN that
    [authenticateToken] attached. *)
Lemma guarded_requireAdmin_Next db now authorization u :
  guarded requireAdmin db now authorization = Next u ->
  authenticateToken db now authorization = Next u /\ ReqUser.role u = ADMIN.
Proof.
  unfold guarded, requireAdmin, requireRole.
  destruct (authenticateToken db now authorization) as [v|r]; [|discriminate].
  destruct (bool_decide (ReqUser.role v ∈ [ADMIN])) eqn:Hin; simpl; [|discriminate].
  apply bool_decide_eq_true in Hin.
  intros [= ->]. split; [reflexivity|]. by apply list_elem_of_singleton in Hin.
Qed.

(** The gate answers with 401, 403 or 500. *)
Lemma guarded_Reply_status roles db now authorization r :
  guarded (requireRole roles) db now authorization = Reply r ->
  status r = 401 \/ status r = 403 \/ status r = 500.
Proof.
  unfold guarded, authenticateToken, requireRole.
  destruct (negb (Js.truthy (bearer authorization))); [intros [= <-]; auto|].
  destruct (Jwt.verify _ _ _) as [decoded|e].
  - destruct (users db !! JWTPayload.userId decoded) as [user|]; [|intros [= <-]; auto].
    destruct (negb (User.isActive user)); [intros [= <-]; auto|].
    destruct (negb (bool_decide _)); [intros [= <-]; auto|discriminate].
  - destruct (instanceof_TokenExpiredError e); [intros [= <-]; auto|].
    destruct (instanceof_JsonWebTokenError e); intros [= <-]; auto.
Qed.

(** The user attached to a request is stored under the [id] it carries. *)
Lemma authenticated_user_exists db now authorization u :
  keyed_by_id db ->
  authenticateToken db now authorization = Next u ->
  is_Some (users db !! ReqUser.id u).
Proof.
  intros Hwf Hauth.
  destruct (authenticateToken_Next _ _ _ _ Hauth) as (key & user & Hu & _ & ->).
  simpl. rewrite (map_Forall_lookup_1 _ _ _ _ Hwf Hu). eauto.
Qed.

End GuardFacts.

(** C9. Past authentication and the admin guard, DELETE /api/users/:id with
    the requester's own id as target is answered 400 CANNOT_DELETE_SELF and
    leaves the datastore as it was.  The datastore changes only when the
    target exists and is not the requester, and in that case the request
    goes on to the delete. *)
Theorem users_delete_not_self `{Jws} `{Env} `{Schema}
    (db : Db) (now : Z) (authorization : option string) (admin : ReqUser.t)
    (target : string) :
  keyed_by_id db ->
  guarded requireAdmin db now authorization = Next admin ->
  (target = ReqUser.id admin ->
   users_delete db now authorization target
   = (error 400 "CANNOT_DELETE_SELF" "Cannot delete your own account", db))
  /\
  (forall response db',
     users_delete db now authorization target = (response, db') ->
     db' <> db ->
     is_Some (users db !! target) /\ target <> ReqUser.id admin)
  /\
  (is_Some (users db !! target) -> target <> ReqUser.id admin ->
   users_delete db now authorization target
   = match user_delete db target with
     | Ok db' => (success 200 (MessageData "User deleted successfully"), db')
     | Throw _ => (error 500 "DELETE_USER_ERROR" "An error occurred while deleting user", db)
     end).
Proof.
  intros Hwf Hguard.
  destruct (guarded_requireAdmin_Next _ _ _ _ Hguard) as [Hauth _].
  pose proof (authenticated_user_exists _ _ _ _ Hwf Hauth) as [row Hrow].
  unfold users_delete, users_delete_handler. rewrite Hguard.
  split; [|split].
  - intros ->. rewrite Hrow, String.eqb_refl. reflexivity.
  - intros response db' Hd Hchanged.
    destruct (users db !! target) as [t|] eqn:Ht.
    + split; [eauto|].
      destruct (String.eqb_spec target (ReqUser.id admin)) as [->|Hne]; [|exact Hne].
      injection Hd as _ <-. contradiction.
    + injection Hd as _ <-. contradiction.
  - intros [t Ht] Hne. rewrite Ht.
    destruct (String.eqb_spec target (ReqUser.id admin)); [contradiction|reflexivity].
Qed.

(** Alice, an admin, may remove Bob but not herself. *)
Lemma users_delete_not_self_witness :
  @users_delete sample_jws env_unset (schema_plain "u4") sample_db 2000000
    (Some "Bearer alice.access") "u1"
  = (error 400 "CANNOT_DELETE_SELF" "Cannot delete your own account", sample_db)
  /\ @users_delete sample_jws env_unset (schema_plain "u4") sample_db 2000000
       (Some "Bearer alice.access") "u2"
     = (success 200 (MessageData "User deleted successfully"),
        mkDb (delete "u2" (users sample_db)) (posts sample_db)).
Proof.
  assert (Hkeys : keyed_by_id sample_db)
    by (apply (bool_decide_unpack _); vm_compute; exact I).
  destruct (@users_delete_not_self sample_jws env_unset (schema_plain "u4") sample_db
              2000000 (Some "Bearer alice.access") (ReqUser.select alice) "u1"
              Hkeys eq_refl) as (Hself & _ & _).
  destruct (@users_delete_not_self sample_jws env_unset (schema_plain "u4") sample_db
              2000000 (Some "Bearer alice.access") (ReqUser.select alice) "u2"
              Hkeys eq_refl) as (_ & _ & Hother).
  split.
  - apply Hself. reflexivity.
  - apply Hother; [by exists bob | discriminate].
Defined.

Section NameFacts.
Context `{Jws} `{Env} `{Validator} `{Bcrypt} `{Schema}.

(** [split] cuts at the first separator. *)
Lemma split_first (sep : ascii) (l rest : string) :
  (forall c, In c (list_ascii_of_string l) -> c <> sep) ->
  Js.split sep (l ++ String sep rest) = l :: Js.split sep rest.
Proof.
  induction l as [|c l IH]; simpl; intros Hl.
  - rewrite Ascii.eqb_refl. reflexivity.
  - destruct (Ascii.eqb_spec c sep) as [->|_].
    + exfalso. apply (Hl sep); [by left | reflexivity].
    + rewrite IH by (intros d Hd; apply Hl; by right). reflexivity.
Qed.

(** The local part is what stands before the first [@]. *)
Lemma local_part_before_at (l rest : string) :
  (forall c, In c (list_ascii_of_string l) -> c <> "@"%char) ->
  local_part (l ++ String "@" rest) = l.
Proof. intros Hl. unfold local_part. rewrite (split_first _ _ _ Hl). reflexivity. Qed.

(** [isLength] measures the empty string as empty. *)
Lemma isLength_measure_empty : isLength_measure "" = 0%nat.
Proof. by rewrite isLength_measure_ascii. Qed.

(** A field that must have a length is not missing. *)
Lemma isLength_min_absent (min : nat) : isLength_min (S min) None = false.
Proof. unfold isLength_min. simpl. by rewrite isLength_measure_empty. Qed.

Lemma isLength_absent (min max : nat) : isLength (S min) max None = false.
Proof. unfold isLength. simpl. by rewrite isLength_measure_empty. Qed.

(** A name that passed validation is kept by [name || ...]. *)
Lemma name_or_local_part_valid (name : option string) (email : string) :
  optional (isLength_min 2) name = true ->
  name_or_local_part name email
  = match name with Some n => n | None => local_part email end.
Proof.
  destruct name as [n|]; [|reflexivity].
  unfold optional, isLength_min, name_or_local_part. simpl.
  destruct n; [rewrite isLength_measure_empty; discriminate | reflexivity].
Qed.

Lemma valid_new_user_name body :
  valid_new_user body = true ->
  optional (isLength_min 2) (RegisterRequest.name body) = true.
Proof.
  unfold valid_new_user. intros Hv.
  apply andb_prop in Hv as [Hv _]. by apply andb_prop in Hv as [_ Hv].
Qed.

(** [prisma.user.create] stores the new row under its own [id]. *)
Lemma user_create_keyed_by_id db now data user db' :
  keyed_by_id db ->
  user_create db now data = Ok (user, db') ->
  keyed_by_id db'.
Proof.
  unfold user_create, keyed_by_id. intros Hwf.
  destruct (users db !! cuid (users db)); [discriminate|].
  intros [= <- <-]. simpl. by apply map_Forall_insert_2.
Qed.

(** What a successful [prisma.user.create] leaves. *)
Lemma user_create_Ok db now data user db' :
  user_create db now data = Ok (user, db') ->
  db' = mkDb (<[cuid (users db) := user]> (users db)) (posts db)
  /\ User.email user = create_email data
  /\ User.name user = Some (create_name data).
Proof.
  unfold user_create.
  destruct (users db !! cuid (users db)); [discriminate|].
  intros [= <- <-]. auto.
Qed.

End NameFacts.

(** The branch at hand answers, but not with 201. *)
Ltac not_created := intros [= <- <-] Hs; discriminate Hs.

(** C10, as the code has it.  A registration or an admin user creation
    that passes validation and creates a user stores the address as
    [normalizeEmail] returns it; when the request has no name, the stored
    name is the local part of that stored address, the text before its
    first [@]; when it has one, the stored name is the name given. *)
Theorem new_user_name `{Jws} `{Env} `{Validator} `{Bcrypt} `{Schema}
    (db : Db) (now : Z) (body : RegisterRequest.t) :
  let email := normalizeEmail (default "" (RegisterRequest.email body)) in
  let name :=
    match RegisterRequest.name body with
    | Some n => n
    | None => local_part email
    end in
  (forall response db',
     register db now body = (response, db') -> status response = 201 ->
     exists user,
       db' = mkDb (<[cuid (users db) := user]> (users db)) (posts db)
       /\ User.email user = email /\ User.name user = Some name)
  /\
  (forall authorization response db',
     users_create db now authorization body = (response, db') -> status response = 201 ->
     exists user,
       db' = mkDb (<[cuid (users db) := user]> (users db)) (posts db)
       /\ User.email user = email /\ User.name user = Some name)
  /\
  (forall l rest,
     email = l ++ String "@" rest ->
     (forall c, In c (list_ascii_of_string l) -> c <> "@"%char) ->
     local_part email = l).
Proof.
  intros email name. split; [|split].
  - intros response db'. unfold register.
    destruct (valid_new_user body) eqn:Hvalid; cbn [negb];
      [|not_created].
    destruct (Role_of_name _) as [role|]; [|not_created].
    destruct (findUserByEmail db _); [not_created|].
    destruct (user_create db now _) as [[user db1]|e] eqn:Hc;
      [|not_created].
    apply user_create_Ok in Hc as (-> & He & Hn). simpl in He, Hn.
    rewrite (name_or_local_part_valid _ _ (valid_new_user_name _ Hvalid)) in Hn.
    rewrite generateTokens_eq. intros [= <- <-] _.
    exists user. auto.
  - intros authorization response db'. unfold users_create.
    destruct (guarded requireAdmin db now authorization) as [admin|r] eqn:Hg.
    2: { intros [= <- <-] Hs.
         destruct (guarded_Reply_status _ _ _ _ _ Hg) as [Hr|[Hr|Hr]]; congruence. }
    unfold users_create_handler.
    destruct (valid_new_user body) eqn:Hvalid; cbn [negb];
      [|not_created].
    destruct (Role_of_name _) as [role|]; [|not_created].
    destruct (findUserByEmail db _); [not_created|].
    destruct (user_create db now _) as [[user db1]|e] eqn:Hc;
      [|not_created].
    apply user_create_Ok in Hc as (-> & He & Hn). simpl in He, Hn.
    rewrite (name_or_local_part_valid _ _ (valid_new_user_name _ Hvalid)) in Hn.
    intros [= <- <-] Hs. exists user. auto.
  - intros l rest -> Hl. by apply local_part_before_at.
Qed.

(** Dave registers without a name; Erin is created by Alice with one. *)
Lemma new_user_name_witness :
  (exists user,
     snd (@register sample_jws env_unset validator_plain bcrypt_tagged (schema_plain "u4")
            sample_db 2000000
            (RegisterRequest.mk (Some "dave@example.com") (Some "password123") None
               (Some "MEMBER")))
     = mkDb (<["u4" := user]> (users sample_db)) (posts sample_db)
     /\ User.email user = "dave@example.com" /\ User.name user = Some "dave")
  /\
  (exists user,
     snd (@users_create sample_jws env_unset validator_plain bcrypt_tagged (schema_plain "u4")
            sample_db 2000000 (Some "Bearer alice.access")
            (RegisterRequest.mk (Some "erin@example.com") (Some "password123")
               (Some "Erin the Second") (Some "STAFF")))
     = mkDb (<["u4" := user]> (users sample_db)) (posts sample_db)
     /\ User.email user = "erin@example.com" /\ User.name user = Some "Erin the Second").
Proof.
  split.
  - pose proof (@new_user_name sample_jws env_unset validator_plain bcrypt_tagged
                  (schema_plain "u4") sample_db 2000000
                  (RegisterRequest.mk (Some "dave@example.com") (Some "password123") None
                     (Some "MEMBER"))) as Hw.
    cbv zeta in Hw. destruct Hw as (Hregister & _ & _).
    destruct (Hregister _ _ (surjective_pairing _)) as (user & Hdb & He & Hn).
    + reflexivity.
    + exists user. auto.
  - pose proof (@new_user_name sample_jws env_unset validator_plain bcrypt_tagged
                  (schema_plain "u4") sample_db 2000000
                  (RegisterRequest.mk (Some "erin@example.com") (Some "password123")
                     (Some "Erin the Second") (Some "STAFF"))) as Hw.
    cbv zeta in Hw. destruct Hw as (_ & Hcreate & _).
    destruct (Hcreate (Some "Bearer alice.access") _ _ (surjective_pairing _))
      as (user & Hdb & He & Hn).
    + reflexivity.
    + exists user. auto.
Defined.

(** C10, as stated, fails: the address submitted is not the address the
    handler reads.  The route's [normalizeEmail] sanitizer lowercases it
    first, so a registration as [Dave@Example.com] without a name stores the
    name [dave], where the local part of the address submitted is [Dave]. *)
Lemma name_is_not_the_submitted_local_part :
  fst (@register sample_jws env_unset validator_plain bcrypt_tagged (schema_plain "u4")
         sample_db 2000000
         (RegisterRequest.mk (Some "Dave@Example.com") (Some "password123") None
            (Some "MEMBER")))
  = success 201
      (AuthData
         (AuthResponse.mk
            (AuthResponse.mkUser "u4" "dave@example.com" (Some "dave") MEMBER)
            (mkTokens "dave.access" "dave.refresh")))
  /\ local_part "Dave@Example.com" = "Dave"
  /\ "dave" <> "Dave".
Proof.
  split; [reflexivity|]. split; [reflexivity|]. discriminate.
Qed.

(** ** Post listing *)

Section ListingFacts.
Context `{Validator}.

Lemma elem_of_insert_desc p q l : q ∈ insert_desc p l -> q = p \/ q ∈ l.
Proof.
  induction l as [|r l IH]; simpl.
  - intros Hq. apply list_elem_of_singleton in Hq. auto.
  - destruct (Post.createdAt r <=? Post.createdAt p).
    + intros Hq. apply elem_of_cons in Hq. tauto.
    + intros Hq. apply elem_of_cons in Hq as [->|Hq].
      * right. apply elem_of_cons. auto.
      * destruct (IH Hq) as [->|Hl]; [auto|]. right. apply elem_of_cons. auto.
Qed.

Lemma elem_of_order_desc q l : q ∈ order_desc l -> q ∈ l.
Proof.
  induction l as [|p l IH]; simpl; [done|].
  intros Hq. apply elem_of_insert_desc in Hq as [->|Hq].
  - apply elem_of_cons. auto.
  - apply elem_of_cons. auto.
Qed.

(** Every post [findMany] returns is a post of the table that meets the
    [where] clause. *)
Lemma post_findMany_matches db w skip take_ found view :
  post_findMany db w skip take_ = Ok found ->
  view ∈ found ->
  exists p, view = post_view db p /\ p ∈ posts db /\ post_matches w p = true.
Proof.
  unfold post_findMany. destruct skip, take_; try discriminate.
  intros [= <-] Hv.
  apply list_elem_of_fmap in Hv as (p & -> & Hp).
  exists p. split; [reflexivity|].
  apply (subseteq_take _ _ p) in Hp.
  apply (subseteq_drop _ _ p) in Hp.
  apply elem_of_order_desc in Hp.
  apply list_elem_of_In, filter_In in Hp as [Hp Hm].
  split; [by apply list_elem_of_In | exact Hm].
Qed.

(** Without a [status] parameter a MEMBER is shown published posts only. *)
Lemma posts_list_member_without_status db user q response db' :
  ReqUser.role user = MEMBER ->
  Js.truthy (PostsQuery.status q) = false ->
  posts_list_handler db user q = (response, db') ->
  forall posts pagination view,
    body response = PostsData posts pagination ->
    view ∈ posts ->
    Post.status (PostView.post view) = PUBLISHED.
Proof.
  intros Hrole Hstatus. unfold posts_list_handler.
  destruct (negb (valid_posts_query q)); [intros [= <- <-]; discriminate|].
  destruct (post_findMany _ _ _ _) as [found|] eqn:Hfound;
    [|intros [= <- <-]; discriminate].
  intros [= <- <-] posts pagination view [= <- _] Hview.
  apply (post_findMany_matches _ _ _ _ _ _ Hfound) in Hview as (p & -> & _ & Hm). simpl.
  unfold posts_where in Hm. rewrite Hrole, Hstatus in Hm. simpl in Hm.
  unfold post_matches in Hm.
  destruct (Js.truthy (PostsQuery.search q)); simpl in Hm;
    apply andb_prop in Hm as [Hm _]; destruct (Post.status p); done.
Qed.

End ListingFacts.

(** C1 fails on the code at a request the validator accepts: Bob, a MEMBER,
    lists posts with [status=DRAFT].  The handler first sets the filter to
    PUBLISHED for the MEMBER role and then overwrites it with the status
    parameter, so the answer holds the draft. *)
Theorem member_lists_drafts :
  @posts_list sample_jws env_unset validator_plain sample_db 2000000
    (Some "Bearer bob.access") (PostsQuery.mk None None (Some "DRAFT") None)
  = (success 200
       (PostsData [post_view sample_db draft_post] (mkPagination 1 10 1 1)),
     sample_db)
  /\ ReqUser.role (ReqUser.select bob) = MEMBER
  /\ Post.status (PostView.post (post_view sample_db draft_post)) = DRAFT.
Proof.
  split; [reflexivity|]. split; reflexivity.
Qed.

(** * Further properties of the routes *)

(** ** Posts *)

Section PostFacts.
Context `{Jws} `{Env} `{Validator} `{Generated}.

Lemma findPost_Some db id post :
  findPost db id = Some post -> post ∈ posts db /\ Post.id post = id.
Proof.
  unfold findPost. intros Hf. apply find_some in Hf as [Hin Heq].
  split; [by apply list_elem_of_In | by apply String.eqb_eq].
Qed.

(** A row appended under a key not in use is the row of that key. *)
Lemma findPost_snoc db post :
  findPost db (Post.id post) = None ->
  findPost (mkDb (users db) (posts db ++ [post])) (Post.id post) = Some post.
Proof.
  unfold findPost. simpl. generalize (posts db). intros l.
  induction l as [|p l IH]; simpl.
  - rewrite String.eqb_refl. reflexivity.
  - destruct (String.eqb (Post.id p) (Post.id post)); [discriminate | exact IH].
Qed.

Lemma findPost_snoc_other db post id :
  id <> Post.id post ->
  findPost (mkDb (users db) (posts db ++ [post])) id = findPost db id.
Proof.
  unfold findPost. simpl. generalize (posts db). intros l Hne.
  induction l as [|p l IH]; simpl.
  - destruct (String.eqb_spec (Post.id post) id); [congruence | reflexivity].
  - destruct (String.eqb (Post.id p) id); [reflexivity | exact IH].
Qed.

Lemma findPost_delete db id :
  findPost (mkDb (users db) (post_delete id (posts db))) id = None.
Proof.
  unfold findPost, post_delete. simpl. generalize (posts db). intros l.
  induction l as [|p l IH]; simpl; [reflexivity|].
  destruct (String.eqb (Post.id p) id) eqn:Hp; simpl; [exact IH|].
  rewrite Hp. exact IH.
Qed.

Lemma findPost_delete_other db id id' :
  id' <> id ->
  findPost (mkDb (users db) (post_delete id (posts db))) id' = findPost db id'.
Proof.
  unfold findPost, post_delete. simpl. generalize (posts db). intros l Hne.
  induction l as [|p l IH]; simpl; [reflexivity|].
  destruct (String.eqb_spec (Post.id p) id) as [Hp|Hp]; simpl.
  - destruct (String.eqb_spec (Post.id p) id'); [congruence | exact IH].
  - destruct (String.eqb (Post.id p) id'); [reflexivity | exact IH].
Qed.

(** The staff gate lets a request through with the user [authenticateToken]
    attached, whose role is ADMIN or STAFF. *)
Lemma guarded_requireStaff_Next db now authorization u :
  guarded requireStaff db now authorization = Next u ->
  authenticateToken db now authorization = Next u
  /\ (ReqUser.role u = ADMIN \/ ReqUser.role u = STAFF).
Proof.
  unfold guarded, requireStaff, requireRole.
  destruct (authenticateToken db now authorization) as [v|r]; [|discriminate].
  destruct (bool_decide (ReqUser.role v ∈ [ADMIN; STAFF])) eqn:Hin; simpl; [|discriminate].
  apply bool_decide_eq_true in Hin.
  intros [= ->]. split; [reflexivity|].
  apply elem_of_cons in Hin as [->|Hin]; [by left|].
  apply list_elem_of_singleton in Hin. by right.
Qed.

(** Past [authenticateToken], a role outside the allow-list is refused. *)
Lemma guarded_refuses db now authorization u roles :
  authenticateToken db now authorization = Next u ->
  ReqUser.role u ∉ roles ->
  guarded (requireRole roles) db now authorization
  = Reply (error 403 "INSUFFICIENT_PERMISSIONS" "Insufficient permissions for this action").
Proof.
  intros Hauth Hnot. unfold guarded, requireRole. rewrite Hauth.
  rewrite bool_decide_eq_false_2 by done. reflexivity.
Qed.

End PostFacts.

(** X1. GET /api/posts/:id never serves a MEMBER a post that is not
    PUBLISHED: such a post is answered 403 INSUFFICIENT_PERMISSIONS, and
    whatever post a MEMBER is served is PUBLISHED. *)
Theorem posts_get_member_only_published `{Jws} `{Env}
    (db : Db) (now : Z) (authorization : option string) (user : ReqUser.t) (id : string) :
  authenticateToken db now authorization = Next user ->
  ReqUser.role user = MEMBER ->
  (forall status view db',
     posts_get db now authorization id = (Served status view, db') ->
     Post.status (PostView.post view) = PUBLISHED)
  /\
  (forall post,
     findPost db id = Some post -> Post.status post <> PUBLISHED ->
     posts_get db now authorization id
     = (Refused (error 403 "INSUFFICIENT_PERMISSIONS" "You can only view published posts"),
        db)).
Proof.
  intros Hauth Hrole. unfold posts_get, posts_get_handler. rewrite Hauth, Hrole.
  rewrite bool_decide_eq_true_2 by reflexivity. simpl. split.
  - intros status view db'. destruct (findPost db id) as [post|]; [|discriminate].
    case_bool_decide as Hp; simpl; [|discriminate].
    intros [= _ <- _]. exact Hp.
  - intros post -> Hp. rewrite bool_decide_eq_false_2 by exact Hp. reflexivity.
Qed.

Lemma posts_get_member_only_published_witness :
  @posts_get sample_jws env_unset sample_db 2000000 (Some "Bearer bob.access") "p1"
  = (Refused (error 403 "INSUFFICIENT_PERMISSIONS" "You can only view published posts"),
     sample_db).
Proof.
  refine (proj2 (@posts_get_member_only_published sample_jws env_unset sample_db 2000000
                   (Some "Bearer bob.access") (ReqUser.select bob) "p1" _ _)
            draft_post _ _).
  - reflexivity.
  - reflexivity.
  - reflexivity.
  - discriminate.
Defined.

Section PostWriteFacts.
Context `{Jws} `{Env} `{Validator} `{Generated}.

(** A status that passed [isIn] names a status. *)
Lemma PostStatus_of_name_valid (s : string) :
  isIn STATUS_NAMES (Some s) = true ->
  exists status, PostStatus_of_name s = Some status /\ PostStatus_name status = s.
Proof.
  unfold isIn, PostStatus_of_name. simpl.
  destruct (String.eqb_spec s "DRAFT") as [->|_]; [eauto|].
  destruct (String.eqb_spec s "PUBLISHED") as [->|_]; [eauto|].
  destruct (String.eqb_spec s "ARCHIVED") as [->|_]; [eauto|].
  discriminate.
Qed.

(** [authenticateToken] reads the user table only. *)
Lemma authenticateToken_users db db' now authorization :
  users db' = users db ->
  authenticateToken db' now authorization = authenticateToken db now authorization.
Proof. intros Hu. unfold authenticateToken. rewrite Hu. reflexivity. Qed.

Lemma guarded_users guard db db' now authorization :
  users db' = users db ->
  guarded guard db' now authorization = guarded guard db now authorization.
Proof.
  intros Hu. unfold guarded. rewrite (authenticateToken_users _ _ _ _ Hu). reflexivity.
Qed.

(** What a valid creation stores and answers. *)
Lemma posts_create_handler_valid db now user body :
  valid_create_post body = true ->
  findPost db (post_cuid (posts db)) = None ->
  exists title content status,
    CreatePostRequest.title body = Some title
    /\ CreatePostRequest.content body = Some content
    /\ PostStatus_name status = default "DRAFT" (CreatePostRequest.status body)
    /\ let post := Post.mk (post_cuid (posts db)) title content status
                     (ReqUser.id user) (ReqUser.id user) now now in
       posts_create_handler db now user body
       = (Served 201 (post_view_author (mkDb (users db) (posts db ++ [post])) post),
          mkDb (users db) (posts db ++ [post])).
Proof.
  intros Hvalid Hfree. unfold posts_create_handler. rewrite Hvalid, Hfree. simpl.
  unfold valid_create_post in Hvalid.
  apply andb_prop in Hvalid as [Hvalid Hstatus].
  apply andb_prop in Hvalid as [Htitle Hcontent].
  destruct (CreatePostRequest.title body) as [title|];
    [|by rewrite isLength_absent in Htitle].
  destruct (CreatePostRequest.content body) as [content|];
    [|by rewrite isLength_min_absent in Hcontent].
  assert (Hs : exists status,
             PostStatus_of_name (default "DRAFT" (CreatePostRequest.status body)) = Some status
             /\ PostStatus_name status = default "DRAFT" (CreatePostRequest.status body)).
  { destruct (CreatePostRequest.status body) as [s|]; simpl.
    - by apply PostStatus_of_name_valid.
    - exists DRAFT. split; reflexivity. }
  destruct Hs as (status & -> & Hname).
  exists title, content, status. simpl. auto.
Qed.

(** An update writes the same columns of every row it touches. *)
Lemma post_update_column {A} (column : Post.t -> A) id f l :
  (forall p, column (f p) = column p) ->
  List.map column (post_update id f l) = List.map column l.
Proof.
  intros Hf. unfold post_update. rewrite List.map_map. apply List.map_ext.
  intros p. destruct (String.eqb (Post.id p) id); [apply Hf | reflexivity].
Qed.

Lemma post_update_others id f l :
  (forall p, Post.id (f p) = Post.id p) ->
  post_delete id (post_update id f l) = post_delete id l.
Proof.
  intros Hf. unfold post_delete, post_update.
  induction l as [|p l IH]; simpl; [reflexivity|].
  destruct (String.eqb (Post.id p) id) eqn:Hp; simpl.
  - rewrite Hf, Hp. simpl. exact IH.
  - rewrite Hp. simpl. by rewrite IH.
Qed.

(** An accepted update, as the handler performs it. *)
Lemma posts_update_handler_Served db now user id body status view db' :
  posts_update_handler db now user id body = (Served status view, db') ->
  exists existingPost st,
    findPost db id = Some existingPost
    /\ (ReqUser.role user = STAFF -> Post.authorId existingPost = ReqUser.id user)
    /\ match UpdatePostRequest.status body with
       | None => st = None
       | Some s => exists v, st = Some v /\ PostStatus_name v = s
       end
    /\ status = 200
    /\ PostView.post view
       = post_patch now (UpdatePostRequest.title body) (UpdatePostRequest.content body) st
           existingPost
    /\ db' = mkDb (users db)
               (post_update id
                  (post_patch now (UpdatePostRequest.title body)
                     (UpdatePostRequest.content body) st)
                  (posts db)).
Proof.
  unfold posts_update_handler.
  destruct (valid_update_post body) eqn:Hvalid; simpl; [|discriminate].
  destruct (findPost db id) as [existingPost|]; [|discriminate].
  destruct (bool_decide (ReqUser.role user = STAFF)
            && negb (String.eqb (Post.authorId existingPost) (ReqUser.id user))) eqn:Hown;
    [discriminate|].
  unfold valid_update_post in Hvalid. apply andb_prop in Hvalid as [_ Hstatus].
  destruct (UpdatePostRequest.status body) as [s|] eqn:Hs.
  - simpl in Hstatus. destruct (PostStatus_of_name_valid _ Hstatus) as (v & Hv & Hname).
    rewrite Hv. simpl. intros [= <- <- <-].
    exists existingPost, (Some v). repeat split; eauto.
    intros Hrole. rewrite Hrole in Hown.
    rewrite bool_decide_eq_true_2 in Hown by reflexivity. simpl in Hown.
    apply negb_false_iff in Hown. by apply String.eqb_eq.
  - intros [= <- <- <-].
    exists existingPost, None. repeat split; eauto.
    intros Hrole. rewrite Hrole in Hown.
    rewrite bool_decide_eq_true_2 in Hown by reflexivity. simpl in Hown.
    apply negb_false_iff in Hown. by apply String.eqb_eq.
Qed.

End PostWriteFacts.

(** X2. A post created through POST /api/posts is authored and created by
    the requester, carries the title and the content of the body, and has
    the status of the body, DRAFT when the body has none. *)
Theorem posts_create_authored_by_requester `{Jws} `{Env} `{Validator} `{Generated}
    (db : Db) (now : Z) (authorization : option string) (user : ReqUser.t)
    (body : CreatePostRequest.t) :
  guarded requireStaff db now authorization = Next user ->
  valid_create_post body = true ->
  findPost db (post_cuid (posts db)) = None ->
  exists post,
    posts_create db now authorization body
    = (Served 201 (post_view_author (mkDb (users db) (posts db ++ [post])) post),
       mkDb (users db) (posts db ++ [post]))
    /\ Post.authorId post = ReqUser.id user
    /\ Post.createdById post = ReqUser.id user
    /\ CreatePostRequest.title body = Some (Post.title post)
    /\ CreatePostRequest.content body = Some (Post.content post)
    /\ PostStatus_name (Post.status post) = default "DRAFT" (CreatePostRequest.status body).
Proof.
  intros Hguard Hvalid Hfree. unfold posts_create. rewrite Hguard.
  destruct (posts_create_handler_valid db now user body Hvalid Hfree)
    as (title & content & status & Ht & Hc & Hs & Heq).
  simpl in Heq. eexists. split; [exact Heq|]. simpl. auto.
Qed.

(** Dan, of the staff, files a note without a status. *)
Lemma posts_create_authored_by_requester_witness :
  exists post,
    snd (@posts_create office_jws env_unset validator_plain (generated_plain "p4") office_db 2000000
           (Some "Bearer dan.access")
           (CreatePostRequest.mk (Some "Leads") (Some "Three new leads") None))
    = mkDb (users office_db) (posts office_db ++ [post])
    /\ Post.authorId post = "u5" /\ Post.status post = DRAFT.
Proof.
  destruct (@posts_create_authored_by_requester office_jws env_unset validator_plain (generated_plain "p4")
              office_db 2000000 (Some "Bearer dan.access") (ReqUser.select dan)
              (CreatePostRequest.mk (Some "Leads") (Some "Three new leads") None))
    as (post & Heq & Ha & _ & _ & _ & Hs).
  - reflexivity.
  - reflexivity.
  - reflexivity.
  - exists post. rewrite Heq. split; [reflexivity|]. split; [exact Ha|].
    simpl in Hs. by destruct (Post.status post).
Defined.

(** X3. The writes on posts are closed to the other roles: past
    [authenticateToken], a user who is neither ADMIN nor STAFF is answered
    403 INSUFFICIENT_PERMISSIONS by POST /api/posts and PUT /api/posts/:id,
    a user who is not ADMIN by DELETE /api/posts/:id, and the datastore is
    left as it was. *)
Theorem post_writes_are_gated `{Jws} `{Env} `{Validator} `{Generated}
    (db : Db) (now : Z) (authorization : option string) (user : ReqUser.t) :
  authenticateToken db now authorization = Next user ->
  (ReqUser.role user = MEMBER \/ ReqUser.role user = OWNER ->
   (forall body,
      posts_create db now authorization body
      = (Refused (error 403 "INSUFFICIENT_PERMISSIONS"
                    "Insufficient permissions for this action"), db))
   /\
   (forall id body,
      posts_update db now authorization id body
      = (Refused (error 403 "INSUFFICIENT_PERMISSIONS"
                    "Insufficient permissions for this action"), db)))
  /\
  (ReqUser.role user <> ADMIN ->
   forall id,
     posts_delete db now authorization id
     = (error 403 "INSUFFICIENT_PERMISSIONS" "Insufficient permissions for this action", db)).
Proof.
  intros Hauth. split.
  - intros Hrole.
    assert (Hg : guarded requireStaff db now authorization
                 = Reply (error 403 "INSUFFICIENT_PERMISSIONS"
                            "Insufficient permissions for this action")).
    { apply (guarded_refuses _ _ _ user); [exact Hauth|].
      intros Hin. apply elem_of_cons in Hin as [Hin|Hin].
      - destruct Hrole as [Hr|Hr]; rewrite Hr in Hin; discriminate.
      - apply list_elem_of_singleton in Hin.
        destruct Hrole as [Hr|Hr]; rewrite Hr in Hin; discriminate. }
    split; intros; unfold posts_create, posts_update; rewrite Hg; reflexivity.
  - intros Hrole id. unfold posts_delete, requireAdmin.
    rewrite (guarded_refuses _ _ _ user [ADMIN] Hauth); [reflexivity|].
    intros Hin. apply list_elem_of_singleton in Hin. contradiction.
Qed.

(** Dan, of the staff, may not delete; Olga, an owner, may not write. *)
Lemma post_writes_are_gated_witness :
  @posts_delete office_jws env_unset office_db 2000000 (Some "Bearer dan.access") "p3"
  = (error 403 "INSUFFICIENT_PERMISSIONS" "Insufficient permissions for this action",
     office_db)
  /\ @posts_create office_jws env_unset validator_plain (generated_plain "p4") office_db 2000000
       (Some "Bearer olga.access")
       (CreatePostRequest.mk (Some "Leads") (Some "Three new leads") None)
     = (Refused (error 403 "INSUFFICIENT_PERMISSIONS"
                   "Insufficient permissions for this action"), office_db).
Proof.
  split.
  - refine (proj2 (@post_writes_are_gated office_jws env_unset validator_plain (generated_plain "p4")
                     office_db 2000000 (Some "Bearer dan.access") (ReqUser.select dan) _)
              _ "p3"); [reflexivity | discriminate].
  - refine (proj1 (proj1 (@post_writes_are_gated office_jws env_unset validator_plain (generated_plain "p4")
                     office_db 2000000 (Some "Bearer olga.access") (ReqUser.select olga) _)
              _) _); [reflexivity | right; reflexivity].
Defined.

(** X4. PUT /api/posts/:id lets a member of staff edit the posts they
    authored and no others: on a post of another author the answer is 403
    INSUFFICIENT_PERMISSIONS and nothing is written, while an ADMIN, or the
    author, is served the post with the columns of the body written. *)
Theorem posts_update_ownership `{Jws} `{Env} `{Validator} `{Generated}
    (db : Db) (now : Z) (authorization : option string) (user : ReqUser.t)
    (id : string) (body : UpdatePostRequest.t) (post : Post.t) :
  guarded requireStaff db now authorization = Next user ->
  valid_update_post body = true ->
  findPost db id = Some post ->
  (ReqUser.role user = STAFF -> Post.authorId post <> ReqUser.id user ->
   posts_update db now authorization id body
   = (Refused (error 403 "INSUFFICIENT_PERMISSIONS" "You can only edit your own posts"), db))
  /\
  (ReqUser.role user = ADMIN \/ Post.authorId post = ReqUser.id user ->
   exists view db',
     posts_update db now authorization id body = (Served 200 view, db')
     /\ Post.title (PostView.post view)
        = default (Post.title post) (UpdatePostRequest.title body)
     /\ Post.content (PostView.post view)
        = default (Post.content post) (UpdatePostRequest.content body)
     /\ match UpdatePostRequest.status body with
        | Some s => PostStatus_name (Post.status (PostView.post view)) = s
        | None => Post.status (PostView.post view) = Post.status post
        end
     /\ findPost db' id = Some (PostView.post view)).
Proof.
  intros Hguard Hvalid Hpost. unfold posts_update, posts_update_handler.
  rewrite Hguard, Hvalid, Hpost. simpl. split.
  - intros Hrole Hother. rewrite Hrole.
    rewrite bool_decide_eq_true_2 by reflexivity.
    destruct (String.eqb_spec (Post.authorId post) (ReqUser.id user)); [contradiction|].
    reflexivity.
  - intros Hmay.
    assert (Hown : bool_decide (ReqUser.role user = STAFF)
                   && negb (String.eqb (Post.authorId post) (ReqUser.id user)) = false).
    { destruct Hmay as [Hr|Ha].
      - rewrite Hr. reflexivity.
      - rewrite Ha, String.eqb_refl. apply andb_false_r. }
    rewrite Hown.
    assert (Hfound : forall f,
               Post.id (f post) = Post.id post ->
               findPost (mkDb (users db) (post_update id f (posts db))) id = Some (f post)).
    { intros f Hf. revert Hpost. unfold findPost, post_update. simpl.
      generalize (posts db). intros l.
      induction l as [|p l IH]; simpl; [discriminate|].
      destruct (String.eqb (Post.id p) id) eqn:Hp.
      - intros [= ->]. rewrite Hf, Hp. reflexivity.
      - rewrite Hp. exact IH. }
    unfold valid_update_post in Hvalid. apply andb_prop in Hvalid as [_ Hstatus].
    destruct (UpdatePostRequest.status body) as [s|].
    + simpl in Hstatus. destruct (PostStatus_of_name_valid _ Hstatus) as (v & -> & Hname).
      simpl. eexists _, _. split; [reflexivity|]. simpl.
      repeat split; try reflexivity; [exact Hname|]. by apply Hfound.
    + eexists _, _. split; [reflexivity|]. simpl.
      repeat split; try reflexivity. by apply Hfound.
Qed.

(** Dan publishes his own note; he may not touch Alice's draft. *)
Lemma posts_update_ownership_witness :
  @posts_update office_jws env_unset validator_plain (generated_plain "p4") office_db 2000000
    (Some "Bearer dan.access") "p1"
    (UpdatePostRequest.mk None None (Some "PUBLISHED"))
  = (Refused (error 403 "INSUFFICIENT_PERMISSIONS" "You can only edit your own posts"),
     office_db)
  /\ exists view db',
       @posts_update office_jws env_unset validator_plain (generated_plain "p4") office_db 2000000
         (Some "Bearer dan.access") "p3"
         (UpdatePostRequest.mk None None (Some "PUBLISHED"))
       = (Served 200 view, db')
       /\ Post.status (PostView.post view) = PUBLISHED
       /\ Post.title (PostView.post view) = "Notes of the week".
Proof.
  split.
  - refine (proj1 (@posts_update_ownership office_jws env_unset validator_plain (generated_plain "p4")
                     office_db 2000000 (Some "Bearer dan.access") (ReqUser.select dan)
                     "p1" (UpdatePostRequest.mk None None (Some "PUBLISHED")) draft_post
                     _ _ _) _ _); [reflexivity | reflexivity | reflexivity | reflexivity |].
    discriminate.
  - destruct (proj2 (@posts_update_ownership office_jws env_unset validator_plain (generated_plain "p4")
                       office_db 2000000 (Some "Bearer dan.access") (ReqUser.select dan)
                       "p3" (UpdatePostRequest.mk None None (Some "PUBLISHED")) dan_post
                       eq_refl eq_refl eq_refl))
      as (view & db' & Heq & Ht & _ & Hs & _).
    + right. reflexivity.
    + exists view, db'. split; [exact Heq|]. split; [|exact Ht].
      simpl in Hs. by destruct (Post.status (PostView.post view)).
Defined.

(** X5. An update of a post changes no other row and none of the columns
    that say whose the post is: the posts keep their keys, authors, creators
    and creation times, in the order of the table, the rows of other keys
    are as they were, and so is the user table. *)
Theorem posts_update_frame `{Jws} `{Env} `{Validator} `{Generated}
    (db : Db) (now : Z) (authorization : option string) (id : string)
    (body : UpdatePostRequest.t) (status : Z) (view : PostView.t) (db' : Db) :
  posts_update db now authorization id body = (Served status view, db') ->
  users db' = users db
  /\ List.map Post.id (posts db') = List.map Post.id (posts db)
  /\ List.map Post.authorId (posts db') = List.map Post.authorId (posts db)
  /\ List.map Post.createdById (posts db') = List.map Post.createdById (posts db)
  /\ List.map Post.createdAt (posts db') = List.map Post.createdAt (posts db)
  /\ post_delete id (posts db') = post_delete id (posts db).
Proof.
  unfold posts_update.
  destruct (guarded requireStaff db now authorization) as [user|r]; [|discriminate].
  intros Hu.
  apply posts_update_handler_Served in Hu as (existing & st & _ & _ & _ & _ & _ & ->).
  simpl. split; [reflexivity|].
  repeat split; try (apply post_update_column; reflexivity).
  apply post_update_others. reflexivity.
Qed.

(** Alice retitles Dan's note: it stays Dan's. *)
Lemma posts_update_frame_witness :
  List.map Post.authorId
    (posts (snd (@posts_update office_jws env_unset validator_plain (generated_plain "p4") office_db 2000000
                   (Some "Bearer alice.access") "p3"
                   (UpdatePostRequest.mk (Some "Notes") None None))))
  = List.map Post.authorId (posts office_db).
Proof.
  pose (patch := @post_patch (generated_plain "p4") 2000000 (Some "Notes") None None).
  pose (db1 := mkDb (users office_db) (post_update "p3" patch (posts office_db))).
  pose proof (@posts_update_frame office_jws env_unset validator_plain (generated_plain "p4") office_db
                2000000 (Some "Bearer alice.access") "p3"
                (UpdatePostRequest.mk (Some "Notes") None None) 200
                (post_view_author db1 (patch dan_post)) db1 eq_refl) as (_ & _ & Ha & _).
  exact Ha.
Defined.

(** X6. After a successful DELETE /api/posts/:id the post is gone and
    nothing else is: no row has that key any more, so an authenticated
    GET /api/posts/:id for it is answered 404 POST_NOT_FOUND; the rows of
    other keys are found as before; the user table is as it was. *)
Theorem posts_delete_removes_the_post `{Jws} `{Env}
    (db : Db) (now : Z) (authorization : option string) (id : string)
    (response : Response) (db' : Db) :
  posts_delete db now authorization id = (response, db') ->
  status response = 200 ->
  findPost db' id = None
  /\ (forall other, other <> id -> findPost db' other = findPost db other)
  /\ users db' = users db
  /\ (forall now' authorization' user,
        authenticateToken db' now' authorization' = Next user ->
        posts_get db' now' authorization' id
        = (Refused (error 404 "POST_NOT_FOUND" "Post not found"), db')).
Proof.
  unfold posts_delete, posts_delete_handler.
  destruct (guarded requireAdmin db now authorization) as [admin|r] eqn:Hg.
  2: { intros [= <- <-] Hs.
       destruct (guarded_Reply_status _ _ _ _ _ Hg) as [Hr|[Hr|Hr]]; congruence. }
  destruct (findPost db id) as [post|]; [|intros [= <- <-] Hs; discriminate Hs].
  intros [= <- <-] _.
  split; [apply findPost_delete|].
  split; [intros other Hne; by apply findPost_delete_other|].
  split; [reflexivity|].
  intros now' authorization' user Hauth. unfold posts_get, posts_get_handler.
  rewrite Hauth, findPost_delete. reflexivity.
Qed.

(** Alice deletes Dan's note; Dan then looks for it. *)
Lemma posts_delete_removes_the_post_witness :
  @posts_get office_jws env_unset
    (snd (@posts_delete office_jws env_unset office_db 2000000 (Some "Bearer alice.access")
            "p3"))
    2000000 (Some "Bearer dan.access") "p3"
  = (Refused (error 404 "POST_NOT_FOUND" "Post not found"),
     snd (@posts_delete office_jws env_unset office_db 2000000 (Some "Bearer alice.access")
            "p3")).
Proof.
  destruct (@posts_delete_removes_the_post office_jws env_unset office_db 2000000
              (Some "Bearer alice.access") "p3" _ _ (surjective_pairing _))
    as (_ & _ & _ & Hget).
  - reflexivity.
  - apply (Hget 2000000 (Some "Bearer dan.access") (ReqUser.select dan)). reflexivity.
Defined.

(** X7. A post that was created is found: the requester who created it
    through POST /api/posts is served the same row, under the key the
    creation answered with, by GET /api/posts/:id. *)
Theorem posts_create_then_get `{Jws} `{Env} `{Validator} `{Generated}
    (db : Db) (now : Z) (authorization : option string) (body : CreatePostRequest.t)
    (status : Z) (view : PostView.t) (db' : Db) (now' : Z) :
  posts_create db now authorization body = (Served status view, db') ->
  authenticateToken db now' authorization = authenticateToken db now authorization ->
  posts_get db' now' authorization (Post.id (PostView.post view))
  = (Served 200 (post_view db' (PostView.post view)), db').
Proof.
  unfold posts_create.
  destruct (guarded requireStaff db now authorization) as [user|r] eqn:Hg; [|discriminate].
  destruct (guarded_requireStaff_Next _ _ _ _ Hg) as [Hauth Hrole].
  unfold posts_create_handler.
  destruct (valid_create_post body); simpl; [|discriminate].
  destruct (PostStatus_of_name _) as [st|]; [|discriminate].
  destruct (findPost db (post_cuid (posts db))) eqn:Hfree; [discriminate|].
  intros [= <- <- <-] Hsame. simpl.
  unfold posts_get, posts_get_handler.
  rewrite (authenticateToken_users db) by reflexivity. rewrite Hsame, Hauth.
  match goal with
  | |- context [findPost (mkDb _ (_ ++ [?p])) _] =>
      let Hf := fresh in
      pose proof (findPost_snoc db p Hfree) as Hf; simpl in Hf; rewrite Hf
  end.
  rewrite (bool_decide_eq_false_2 (ReqUser.role user = MEMBER))
    by (destruct Hrole as [-> | ->]; discriminate).
  reflexivity.
Qed.

Lemma posts_create_then_get_witness :
  exists view db',
    @posts_create office_jws env_unset validator_plain (generated_plain "p4") office_db 2000000
      (Some "Bearer dan.access")
      (CreatePostRequest.mk (Some "Leads") (Some "Three new leads") None)
    = (Served 201 view, db')
    /\ @posts_get office_jws env_unset db' 2100000 (Some "Bearer dan.access") "p4"
       = (Served 200 (post_view db' (PostView.post view)), db').
Proof.
  pose (post := Post.mk "p4" "Leads" "Three new leads" DRAFT "u5" "u5" 2000000 2000000).
  pose (db1 := mkDb (users office_db) (posts office_db ++ [post])).
  exists (post_view_author db1 post), db1. split; [reflexivity|].
  exact (@posts_create_then_get office_jws env_unset validator_plain (generated_plain "p4") office_db
           2000000 (Some "Bearer dan.access")
           (CreatePostRequest.mk (Some "Leads") (Some "Three new leads") None)
           201 (post_view_author db1 post) db1 2100000 eq_refl eq_refl).
Defined.

(** A title of 100 characters of three bytes each is within the 200 that
    [isLength] allows, for a validator that counts characters. *)
Example title_of_100_characters_is_valid :
  let title := String.concat "" (repeat euro_sign 100) in
  String.length title = 300%nat
  /\ Js.length title = 100%nat
  /\ @valid_create_post validator_plain
       (CreatePostRequest.mk (Some title) (Some "text") None) = true
  /\ @valid_update_post validator_plain
       (UpdatePostRequest.mk (Some title) None None) = true.
Proof. repeat split; vm_compute; reflexivity. Qed.

(** ** Paging *)

Section PagingFacts.

(** A whole number below 2^53 in size is a double. *)
Lemma round_small (n : Z) : Z.abs n < 2 ^ 53 -> Js.round n = Js.Finite n.
Proof.
  intros Hn. unfold Js.round. cbv zeta.
  destruct (Z.ltb_spec (Z.abs n) (2 ^ 53)); [reflexivity | lia].
Qed.

(** Rounding does not reach the infinities below 2^1000. *)
Lemma round_finite (n : Z) : Z.abs n < 2 ^ 1000 -> exists z, Js.round n = Js.Finite z.
Proof.
  intros Hn. unfold Js.round. cbv zeta.
  destruct (Z.ltb_spec (Z.abs n) (2 ^ 53)) as [|Hbig]; [by eexists|].
  set (a := Z.abs n) in *.
  assert (Ha : 0 < a) by (pose proof (Z.pow_pos_nonneg 2 53); lia).
  destruct (Z.log2_spec a Ha) as [Hlo Hhi].
  set (L := Z.log2 a) in *.
  assert (HL : 53 <= L).
  { destruct (Z.le_gt_cases 53 L) as [|Hlt]; [assumption|].
    assert (2 ^ Z.succ L <= 2 ^ 53) by (apply Z.pow_le_mono_r; lia). lia. }
  assert (HL' : L < 1000).
  { destruct (Z.lt_ge_cases L 1000) as [|Hge]; [assumption|].
    assert (2 ^ 1000 <= 2 ^ L) by (apply Z.pow_le_mono_r; lia). lia. }
  set (e := L - 52).
  assert (Hpe : 0 < 2 ^ e) by (apply Z.pow_pos_nonneg; lia).
  assert (Hsplit : 2 ^ Z.succ L = 2 ^ 53 * 2 ^ e).
  { rewrite <- Z.pow_add_r by lia. f_equal. lia. }
  assert (Hq : a / 2 ^ e < 2 ^ 53).
  { apply Z.div_lt_upper_bound; [exact Hpe|]. lia. }
  match goal with
  | |- context [if ?b then ?x + 1 else ?x] => set (q := if b then x + 1 else x)
  end.
  assert (Hq' : q <= 2 ^ 53) by (subst q; destruct (_ || _); lia).
  assert (Hprod : q * 2 ^ e <= 2 ^ Z.succ L) by (rewrite Hsplit; nia).
  assert (Hcap : 2 ^ Z.succ L <= 2 ^ 1000) by (apply Z.pow_le_mono_r; lia).
  assert (Htop : 2 ^ 1000 < 2 ^ 1024) by (apply Z.pow_lt_mono_r; lia).
  destruct (Z.leb_spec (2 ^ 1024) (q * 2 ^ e)); [lia | by eexists].
Qed.

(** [parseInt] reads the number [isInt] checked. *)
Lemma int_literal_parseInt (s : string) (n : Z) :
  int_literal s = Some n -> Js.parseInt (Some s) = Js.round n.
Proof.
  unfold int_literal, Js.parseInt.
  destruct (match s with
            | String "-" r => (true, r)
            | String "+" r => (false, r)
            | _ => (false, s)
            end) as [neg body].
  destruct (Js.digits 0 0 body) as [[v count] rest].
  destruct count as [|count]; [discriminate|].
  destruct (String.eqb rest ""); [|discriminate].
  intros [= <-]. reflexivity.
Qed.

Lemma isInt_parseInt (min : Z) (max : option Z) (s : string) :
  isInt min max (Some s) = true ->
  exists n, int_literal s = Some n
            /\ Js.parseInt (Some s) = Js.round n
            /\ Js.leb min (Js.round n) = true
            /\ match max with Some m => Js.leb (Js.round n) m = true | None => True end.
Proof.
  unfold isInt. simpl. destruct (int_literal s) as [n|] eqn:Hlit; [|discriminate].
  intros Hb. apply andb_prop in Hb as [Hmin Hmax].
  exists n. split; [reflexivity|]. split; [by apply int_literal_parseInt|].
  split; [exact Hmin|]. destruct max; [exact Hmax | exact I].
Qed.

(** A paging parameter after validation: at least [min], which is positive,
    so the number read and not the default; the default when absent. *)
Lemma paging_parameter (min : Z) (max : option Z) (v : option string) (d : Z) :
  1 <= min ->
  optional (isInt min max) v = true ->
  match v with
  | None => Js.num_or (Js.parseInt v) d = d
  | Some s =>
      exists n, int_literal s = Some n
                /\ Js.num_or (Js.parseInt v) d = Js.round n
                /\ Js.leb min (Js.round n) = true
                /\ match max with
                   | Some m => Js.leb (Js.round n) m = true
                   | None => True
                   end
  end.
Proof.
  intros Hmin. destruct v as [s|]; [|reflexivity]. cbn [optional].
  intros Hv. destruct (isInt_parseInt _ _ _ Hv) as (n & Hlit & Hn & Hlo & Hhi).
  exists n. split; [exact Hlit|]. rewrite Hn.
  split; [|split; assumption].
  destruct (Js.round n) as [z| | |]; try discriminate Hlo; try reflexivity.
  cbn [Js.leb] in Hlo. apply Z.leb_le in Hlo. cbn [Js.num_or].
  destruct (Z.eqb_spec z 0); [lia | reflexivity].
Qed.

(** A number that is at least 1: a double or the infinity. *)
Lemma leb_one (x : Js.Number) :
  Js.leb 1 x = true -> (exists z, x = Js.Finite z /\ 1 <= z) \/ x = Js.PosInfinity.
Proof.
  destruct x as [z| | |]; simpl; intros Hx; try discriminate.
  - left. exists z. split; [reflexivity | by apply Z.leb_le].
  - by right.
Qed.

(** A number that is at most a double is a double or the other infinity. *)
Lemma leb_bounded (x : Js.Number) (m : Z) :
  Js.leb 1 x = true -> Js.leb x m = true -> exists z, x = Js.Finite z /\ 1 <= z <= m.
Proof.
  destruct x as [z| | |]; simpl; intros Hlo Hhi; try discriminate.
  exists z. split; [reflexivity|]. apply Z.leb_le in Hlo, Hhi. lia.
Qed.

(** The page and the limit of a valid query. *)
Lemma valid_paging (page limit : option string) :
  optional (isInt 1 None) page = true ->
  optional (isInt 1 (Some 100)) limit = true ->
  let p := Js.num_or (Js.parseInt page) 1 in
  let l := Js.num_or (Js.parseInt limit) 10 in
  Js.leb 1 p = true
  /\ (page = None -> p = 1)
  /\ (forall s n, page = Some s -> int_literal s = Some n -> p = Js.round n)
  /\ exists z, l = Js.Finite z /\ 1 <= z <= 100
               /\ (limit = None -> z = 10)
               /\ (forall s n, limit = Some s -> int_literal s = Some n -> z = n).
Proof.
  intros Hpage Hlimit p l.
  pose proof (paging_parameter 1 None page 1 ltac:(lia) Hpage) as Hp.
  pose proof (paging_parameter 1 (Some 100) limit 10 ltac:(lia) Hlimit) as Hl.
  fold p in Hp. fold l in Hl.
  split; [|split; [|split]].
  - destruct page; [|by rewrite Hp]. destruct Hp as (n & _ & -> & Hlo & _). exact Hlo.
  - intros ->. exact Hp.
  - intros s n -> Hlit. destruct Hp as (n' & Hlit' & -> & _). congruence.
  - destruct limit as [s|].
    + destruct Hl as (n & Hlit & Hl & Hlo & Hhi).
      destruct (leb_bounded _ _ Hlo Hhi) as (z & Hz & Hrange).
      exists z. split; [congruence|]. split; [exact Hrange|].
      split; [discriminate|]. intros s' n' [= <-] Hlit'.
      assert (n' = n) as -> by congruence.
      assert (Hsmall : Z.abs z < 2 ^ 53) by (change (2 ^ 53) with 9007199254740992; lia).
      destruct (Z.ltb_spec (Z.abs n) (2 ^ 53)) as [Hn|Hn].
      * rewrite (round_small _ Hn) in Hz. by injection Hz.
      * exfalso. unfold Js.round in Hz. cbv zeta in Hz.
        destruct (Z.ltb_spec (Z.abs n) (2 ^ 53)); [lia|].
        destruct (2 ^ 1024 <=? _); [destruct (n <? 0); discriminate|].
        injection Hz as Hz.
        set (e := Z.log2 (Z.abs n) - 52) in *.
        match type of Hz with
        | context [if ?b then ?x + 1 else ?x] =>
            set (q := if b then x + 1 else x) in *
        end.
        assert (Ha : 0 < Z.abs n) by (pose proof (Z.pow_pos_nonneg 2 53); lia).
        destruct (Z.log2_spec _ Ha) as [Hlo' _].
        assert (He : 1 <= e).
        { subst e. destruct (Z.le_gt_cases 53 (Z.log2 (Z.abs n))) as [|Hlt]; [lia|].
          assert (2 ^ Z.succ (Z.log2 (Z.abs n)) <= 2 ^ 53)
            by (apply Z.pow_le_mono_r; lia).
          pose proof (Z.log2_spec _ Ha). lia. }
        assert (Hq : 2 ^ 52 <= q).
        { assert (2 ^ 52 <= Z.abs n / 2 ^ e).
          { apply Z.div_le_lower_bound; [apply Z.pow_pos_nonneg; lia|].
            rewrite Z.mul_comm, <- Z.pow_add_r by lia.
            replace (52 + e) with (Z.log2 (Z.abs n)) by (subst e; lia). exact Hlo'. }
          subst q. destruct (_ || _); lia. }
        assert (Hpe : 2 <= 2 ^ e).
        { change 2 with (2 ^ 1) at 1. apply Z.pow_le_mono_r; lia. }
        assert (2 ^ 53 <= q * 2 ^ e).
        { change (2 ^ 53) with (2 ^ 52 * 2). nia. }
        assert (Z.abs z = q * 2 ^ e).
        { destruct (Z.sgn_spec n) as [[? Hs]|[[? Hs]|[? Hs]]]; rewrite Hs in Hz; lia. }
        lia.
    + exists 10. rewrite Hl. repeat split; [lia | lia | discriminate].
Qed.

(** [Math.ceil(total / limit)] is the least number of pages of [limit] rows
    that hold [total] rows. *)
Lemma ceil_quotient_bounds (total limit : Z) :
  1 <= limit ->
  exists n, Js.ceil_quotient total limit = Js.Finite n
            /\ (n - 1) * limit < total <= n * limit.
Proof.
  intros Hl. unfold Js.ceil_quotient.
  destruct (Z.eqb_spec limit 0); [lia|].
  eexists. split; [reflexivity|].
  pose proof (Z.div_mod (- total) limit ltac:(lia)) as Hdm.
  pose proof (Z.mod_pos_bound (- total) limit ltac:(lia)) as Hmod.
  nia.
Qed.

(** The rows skipped before a page, where [findMany] took them. *)
Lemma skip_finite (p l : Js.Number) (z s : Z) :
  Js.leb 1 p = true -> l = Js.Finite z -> 1 <= z ->
  Js.mul (Js.sub p 1) l = Js.Finite s ->
  exists x, p = Js.Finite x /\ 1 <= x
            /\ ((x - 1) * z < 2 ^ 53 -> s = (x - 1) * z).
Proof.
  intros Hp -> Hz. destruct (leb_one _ Hp) as [(x & -> & Hx)| ->].
  - intros Hs. exists x. split; [reflexivity|]. split; [exact Hx|].
    intros Hsmall. simpl in Hs.
    rewrite (round_small (x - 1)) in Hs by nia. simpl in Hs.
    rewrite round_small in Hs by nia. by injection Hs.
  - simpl. destruct (Z.eqb_spec z 0); [lia|].
    destruct (Z.ltb_spec 0 z); [discriminate | lia].
Qed.

End PagingFacts.

(** X8. A page of GET /api/posts is bounded by its parameters.  The page
    and the limit answered are doubles, at least 1, the limit at most 100:
    1 and 10 when the parameters are absent, else the numbers the
    parameters denote, zeros in front or not (the page as far as a double
    holds it, so exactly below 2^53).  The posts served are no more than
    the limit; [total] counts the posts that meet the filter and [pages]
    is the least number of pages of that limit holding them; and a page
    past the last is empty. *)
Theorem posts_list_page_bounds `{Validator}
    (db : Db) (user : ReqUser.t) (q : PostsQuery.t)
    (served : list PostView.t) (pg : Pagination) (db' : Db) :
  posts_list_handler db user q = (success 200 (PostsData served pg), db') ->
  exists p l n : Z,
    page pg = p /\ limit pg = l /\ pages pg = n
    /\ 1 <= p
    /\ 1 <= l <= 100
    /\ (PostsQuery.page q = None -> p = 1)
    /\ (PostsQuery.limit q = None -> l = 10)
    /\ (forall s k, PostsQuery.page q = Some s -> int_literal s = Some k ->
          Js.round k = p /\ (Z.abs k < 2 ^ 53 -> p = k))
    /\ (forall s k, PostsQuery.limit q = Some s -> int_literal s = Some k -> l = k)
    /\ Z.of_nat (length served) <= l
    /\ Z.of_nat (length served) <= total pg
    /\ (n - 1) * l < total pg <= n * l
    /\ ((p - 1) * l < 2 ^ 53 -> total pg <= (p - 1) * l -> served = []).
Proof.
  unfold posts_list_handler.
  destruct (valid_posts_query q) eqn:Hvalid; simpl; [|discriminate].
  unfold valid_posts_query in Hvalid.
  apply andb_prop in Hvalid as [Hvalid _].
  apply andb_prop in Hvalid as [Hvalid _].
  apply andb_prop in Hvalid as [Hpage Hlimit].
  destruct (valid_paging _ _ Hpage Hlimit) as (Hp1 & Hpnone & Hpsome & l & Hl & Hlr & Hlnone & Hlsome).
  cbv zeta in Hp1, Hpnone, Hpsome, Hl.
  set (xp := Js.num_or (Js.parseInt (PostsQuery.page q)) 1) in *.
  set (xl := Js.num_or (Js.parseInt (PostsQuery.limit q)) 10) in *.
  unfold post_findMany.
  destruct (Js.mul (Js.sub xp 1) xl) as [s| | |] eqn:Hskip; try discriminate.
  destruct (skip_finite xp xl l s Hp1 Hl ltac:(lia) Hskip) as (p & Hp & Hp1' & Hexact).
  rewrite Hl. intros [= <- <- <-]. simpl.
  destruct (ceil_quotient_bounds (post_count db (posts_where user (PostsQuery.status q)
                                                   (PostsQuery.search q))) l ltac:(lia))
    as (n & Hn & Hbounds).
  exists p, l, n. rewrite Hp in *.
  unfold post_count in *.
  set (found := List.filter _ (posts db)) in *.
  assert (Hsorted : length (order_desc found) = length found).
  { clear. induction found as [|x found IH]; simpl; [reflexivity|].
    rewrite <- IH. generalize (order_desc found). intros m.
    induction m as [|y m IHm]; simpl; [reflexivity|].
    destruct (Post.createdAt y <=? Post.createdAt x); simpl; [reflexivity|].
    by rewrite IHm. }
  rewrite length_fmap, length_take, length_drop, Hsorted.
  split; [reflexivity|]. split; [reflexivity|]. split; [exact Hn|].
  split; [exact Hp1'|]. split; [exact Hlr|].
  split; [intros Hq; specialize (Hpnone Hq); by injection Hpnone|].
  split; [exact Hlnone|].
  split.
  { intros s0 k Hq Hlit. specialize (Hpsome _ _ Hq Hlit). split; [by symmetry|].
    intros Hk. rewrite (round_small _ Hk) in Hpsome. by injection Hpsome. }
  split; [exact Hlsome|].
  split; [lia|]. split; [lia|]. split; [exact Hbounds|].
  intros Hsmall Hpast. rewrite (Hexact Hsmall).
  assert (Hempty : drop (Z.to_nat ((p - 1) * l)) (order_desc found) = []).
  { apply drop_ge. rewrite Hsorted. lia. }
  rewrite Hempty, take_nil. reflexivity.
Qed.

(** Alice asks for the second page, one post a page, of two posts, and
    writes the page as 02. *)
Lemma posts_list_page_bounds_witness :
  exists served,
    @posts_list_handler validator_plain sample_db (ReqUser.select alice)
      (PostsQuery.mk (Some "02") (Some "1") None None)
    = (success 200 (PostsData served (mkPagination 2 1 2 2)), sample_db)
    /\ Z.of_nat (length served) <= 1.
Proof.
  eexists. split; [reflexivity|].
  destruct (@posts_list_page_bounds validator_plain sample_db (ReqUser.select alice)
              (PostsQuery.mk (Some "02") (Some "1") None None) _
              (mkPagination 2 1 2 2) sample_db eq_refl)
    as (p & l & n & _ & Hl & _ & _ & _ & _ & _ & _ & _ & Hserved & _).
  simpl in Hl. injection Hl as <-. exact Hserved.
Defined.

(** A page number past 2^53 is read as the nearest double. *)
Example parseInt_rounds :
  Js.parseInt (Some "9007199254740993") = Js.Finite 9007199254740992
  /\ @valid_posts_query validator_plain
       (PostsQuery.mk (Some "9007199254740993") None None None) = true.
Proof. split; vm_compute; reflexivity. Qed.

(** ** User listing and the guards *)

Section UserListFacts.

Lemma elem_of_insert_user_desc u v l : v ∈ insert_user_desc u l -> v = u \/ v ∈ l.
Proof.
  induction l as [|w l IH]; simpl.
  - intros Hv. apply list_elem_of_singleton in Hv. auto.
  - destruct (User.createdAt w <=? User.createdAt u).
    + intros Hv. apply elem_of_cons in Hv. tauto.
    + intros Hv. apply elem_of_cons in Hv as [->|Hv].
      * right. apply elem_of_cons. auto.
      * destruct (IH Hv) as [->|Hl]; [auto|]. right. apply elem_of_cons. auto.
Qed.

Lemma elem_of_order_users_desc v l : v ∈ order_users_desc l -> v ∈ l.
Proof.
  induction l as [|u l IH]; simpl; [done|].
  intros Hv. apply elem_of_insert_user_desc in Hv as [->|Hv]; apply elem_of_cons; auto.
Qed.

Lemma length_order_users_desc l : length (order_users_desc l) = length l.
Proof.
  induction l as [|x l IH]; simpl; [reflexivity|].
  rewrite <- IH. generalize (order_users_desc l). intros m.
  induction m as [|y m IHm]; simpl; [reflexivity|].
  destruct (User.createdAt y <=? User.createdAt x); simpl; [reflexivity|].
  by rewrite IHm.
Qed.

Lemma elem_of_users_where db role search u :
  u ∈ users_where db role search ->
  user_matches role search u = true /\ exists key, users db !! key = Some u.
Proof.
  unfold users_where. intros Hu.
  apply list_elem_of_In, filter_In in Hu as [Hu Hm]. split; [exact Hm|].
  apply list_elem_of_In, list_elem_of_fmap in Hu as ([key row] & -> & Hrow).
  exists key. by apply elem_of_map_to_list.
Qed.

End UserListFacts.

(** X9. GET /api/users serves rows of the user table only, without their
    password hashes, no more of them than the limit, which is a whole
    number from 1 to 100, all of the role asked for when the query names
    one, and writes nothing. *)
Theorem users_list_serves_the_role `{Jws} `{Env} `{Validator}
    (db : Db) (now : Z) (authorization : option string) (q : UsersQuery.t)
    (status : Z) (listed : list ReqUser.t) (pg : Pagination) (db' : Db) :
  users_list db now authorization q = (Served status (listed, pg), db') ->
  db' = db
  /\ (exists l : Z,
        limit pg = l /\ 1 <= l <= 100 /\ Z.of_nat (length listed) <= l
        /\ (UsersQuery.limit q = None -> l = 10)
        /\ (forall s k, UsersQuery.limit q = Some s -> int_literal s = Some k -> l = k))
  /\ (forall u, u ∈ listed ->
        exists key row, users db !! key = Some row /\ u = ReqUser.select row)
  /\ (forall r u, UsersQuery.role q = Some r -> u ∈ listed ->
        Role_name (ReqUser.role u) = r).
Proof.
  unfold users_list.
  destruct (guarded requireAdmin db now authorization) as [admin|r]; [|discriminate].
  unfold users_list_handler.
  destruct (valid_users_query q) eqn:Hvalid; simpl; [|discriminate].
  unfold valid_users_query in Hvalid.
  apply andb_prop in Hvalid as [Hvalid _].
  apply andb_prop in Hvalid as [Hvalid Hrole].
  apply andb_prop in Hvalid as [Hpage Hlimit].
  destruct (valid_paging _ _ Hpage Hlimit) as (_ & _ & _ & l & Hl & Hlr & Hlnone & Hlsome).
  cbv zeta in Hl. rewrite Hl.
  set (rows := users_where db _ _).
  unfold user_findMany.
  destruct (Js.mul _ _) as [skip| | |]; try discriminate.
  intros [= <- <- <- <-]. simpl.
  split; [reflexivity|].
  split.
  { exists l. split; [reflexivity|]. split; [exact Hlr|].
    split; [rewrite length_fmap, length_take; lia|]. split; assumption. }
  assert (Hin : forall u,
             u ∈ ReqUser.select <$>
                   take (Z.to_nat l) (drop (Z.to_nat skip) (order_users_desc rows)) ->
             exists row, u = ReqUser.select row /\ row ∈ rows).
  { intros u Hu. apply list_elem_of_fmap in Hu as (row & -> & Hrow).
    exists row. split; [reflexivity|].
    apply (subseteq_take _ _ row) in Hrow.
    apply (subseteq_drop _ _ row) in Hrow.
    by apply elem_of_order_users_desc. }
  split.
  - intros u Hu. destruct (Hin u Hu) as (row & -> & Hrow).
    apply elem_of_users_where in Hrow as (_ & key & Hkey). eauto.
  - intros r u Hr Hu. destruct (Hin u Hu) as (row & -> & Hrow).
    apply elem_of_users_where in Hrow as (Hm & _).
    rewrite Hr in Hm, Hrole. simpl in Hrole.
    assert (Hne : Js.truthy (Some r) = true).
    { unfold isIn in Hrole. simpl in Hrole. unfold Js.truthy.
      destruct (String.eqb_spec r ""); [subst; discriminate | reflexivity]. }
    rewrite Hne in Hm. unfold user_matches in Hm.
    apply andb_prop in Hm as [Hm _]. simpl. by apply String.eqb_eq.
Qed.

(** Alice lists the members, and writes the limit as 05. *)
Lemma users_list_serves_the_role_witness :
  exists listed pg,
    @users_list office_jws env_unset validator_plain office_db 2000000
      (Some "Bearer alice.access") (UsersQuery.mk None (Some "05") (Some "MEMBER") None)
    = (Served 200 (listed, pg), office_db)
    /\ limit pg = 5
    /\ forall u, u ∈ listed -> Role_name (ReqUser.role u) = "MEMBER".
Proof.
  eexists _, _. split; [reflexivity|]. split; [reflexivity|].
  intros u Hu.
  refine (proj2 (proj2 (proj2
            (@users_list_serves_the_role office_jws env_unset validator_plain office_db
               2000000 (Some "Bearer alice.access")
               (UsersQuery.mk None (Some "05") (Some "MEMBER") None) 200 _ _ office_db
               eq_refl)))
            "MEMBER" u eq_refl Hu).
Defined.

(** X10. The guards nest, and none stands in for authentication: every
    role passes [requireAuth]; who passes [requireAdmin] passes
    [requireStaff]; a longer allow-list admits whoever a shorter one did;
    and a request no user is attached to is answered 401 UNAUTHORIZED by
    every guard. *)
Theorem guards_nest (u : ReqUser.t) :
  requireAuth (Some u) = Next u
  /\ (requireAdmin (Some u) = Next u -> requireStaff (Some u) = Next u)
  /\ (forall roles roles',
        roles ⊆ roles' ->
        requireRole roles (Some u) = Next u -> requireRole roles' (Some u) = Next u)
  /\ (forall roles,
        requireRole roles None = Reply (error 401 "UNAUTHORIZED" "Authentication required")).
Proof.
  assert (Hmono : forall roles roles',
             roles ⊆ roles' ->
             requireRole roles (Some u) = Next u -> requireRole roles' (Some u) = Next u).
  { intros roles roles' Hsub. unfold requireRole.
    destruct (bool_decide (ReqUser.role u ∈ roles)) eqn:Hin; simpl; [|discriminate].
    apply bool_decide_eq_true in Hin. intros _.
    rewrite bool_decide_eq_true_2 by (by apply Hsub). reflexivity. }
  split; [|split; [|split; [exact Hmono | reflexivity]]].
  - unfold requireAuth, requireRole. by destruct (ReqUser.role u).
  - apply Hmono. intros r Hr. apply list_elem_of_singleton in Hr as ->.
    apply elem_of_cons. by left.
Qed.

(** ** Sessions *)

Section SessionFacts.
Context `{Jws} `{Env} `{Validator} `{Bcrypt} `{Schema}.

(** [split] leaves a text without the separator whole. *)
Lemma split_none (sep : ascii) (s : string) :
  (forall c, In c (list_ascii_of_string s) -> c <> sep) ->
  Js.split sep s = [s].
Proof.
  induction s as [|c s IH]; simpl; intros Hs; [reflexivity|].
  destruct (Ascii.eqb_spec c sep) as [->|_].
  - exfalso. apply (Hs sep); [by left | reflexivity].
  - rewrite IH by (intros d Hd; apply Hs; by right). reflexivity.
Qed.

(** The header the client builds is read back by the server. *)
Lemma bearer_Bearer (token : string) :
  (forall c, In c (list_ascii_of_string token) -> c <> " "%char) ->
  bearer (Some ("Bearer " ++ token)) = Some token.
Proof.
  intros Hs. unfold bearer.
  change ("Bearer " ++ token) with ("Bearer" ++ String " " token).
  rewrite split_first by (intros c Hc; simpl in Hc; intuition (subst; discriminate)).
  rewrite (split_none _ _ Hs). reflexivity.
Qed.

(** The row [findUnique] by email returns is a row of the table with that
    email; when it returns none, no row has it. *)
Lemma findUserByEmail_Some db e u :
  findUserByEmail db e = Some u ->
  User.email u = e /\ exists key, users db !! key = Some u.
Proof.
  unfold findUserByEmail. intros Hh. apply head_Some_elem_of in Hh.
  apply list_elem_of_filter in Hh as [He Hu]. split; [exact He|].
  apply list_elem_of_fmap in Hu as ([key row] & -> & Hrow).
  exists key. by apply elem_of_map_to_list.
Qed.

Lemma findUserByEmail_None db e key u :
  findUserByEmail db e = None ->
  users db !! key = Some u -> User.email u <> e.
Proof.
  unfold findUserByEmail. intros Hh Hu He. apply head_None in Hh.
  assert (Hin : u ∈ filter (fun u => User.email u = e) (snd <$> map_to_list (users db))).
  { apply list_elem_of_filter. split; [exact He|].
    apply list_elem_of_fmap. exists (key, u). split; [reflexivity|].
    by apply elem_of_map_to_list. }
  rewrite Hh in Hin. by apply not_elem_of_nil in Hin.
Qed.

(** A row stored under a free key, with an email no row had, is the row
    of that email. *)
Lemma findUserByEmail_insert db key row :
  findUserByEmail db (User.email row) = None ->
  findUserByEmail (mkDb (<[key := row]> (users db)) (posts db)) (User.email row) = Some row.
Proof.
  intros Hnone. unfold findUserByEmail. simpl.
  destruct (filter _ _) as [|u l] eqn:Hf.
  - exfalso.
    assert (Hin : row ∈ filter (fun u => User.email u = User.email row)
                          (snd <$> map_to_list (<[key := row]> (users db)))).
    { apply list_elem_of_filter. split; [reflexivity|].
      apply list_elem_of_fmap. exists (key, row). split; [reflexivity|].
      apply elem_of_map_to_list. apply lookup_insert_eq. }
    rewrite Hf in Hin. by apply not_elem_of_nil in Hin.
  - simpl. f_equal.
    assert (Hin : u ∈ filter (fun u => User.email u = User.email row)
                        (snd <$> map_to_list (<[key := row]> (users db))))
      by (rewrite Hf; apply elem_of_cons; by left).
    apply list_elem_of_filter in Hin as [He Hu].
    apply list_elem_of_fmap in Hu as ([k v] & -> & Hkv).
    apply elem_of_map_to_list in Hkv. simpl in *.
    apply lookup_insert_Some in Hkv as [[_ <-]|[_ Hold]]; [reflexivity|].
    exfalso. exact (findUserByEmail_None _ _ _ _ Hnone Hold He).
Qed.

(** A successful login, as the handler performs it. *)
Lemma login_200 db now body response db' :
  login db now body = (response, db') ->
  status response = 200 ->
  exists user tokens,
    isEmail (default "" (LoginRequest.email body)) = true
    /\ findUserByEmail db (normalizeEmail (default "" (LoginRequest.email body))) = Some user
    /\ User.isActive user = true
    /\ bcrypt_compare (default "" (LoginRequest.password body)) (User.password user) = true
    /\ generateTokens (Identity.mk (User.id user) (User.email user) (User.role user)) now
       = Ok tokens
    /\ response
       = success 200
           (AuthData (AuthResponse.mk
              (AuthResponse.mkUser (User.id user) (User.email user) (User.name user)
                 (User.role user))
              tokens))
    /\ db' = db.
Proof.
  unfold login.
  destruct (isEmail _) eqn:He; cbn [negb andb]; [|intros [= <- <-] Hs; discriminate Hs].
  destruct (isLength_min 6 _); cbn [negb andb]; [|intros [= <- <-] Hs; discriminate Hs].
  destruct (findUserByEmail db _) as [user|] eqn:Hf;
    [|intros [= <- <-] Hs; discriminate Hs].
  destruct (User.isActive user) eqn:Ha; cbn [negb andb]; [|intros [= <- <-] Hs; discriminate Hs].
  destruct (bcrypt_compare _ _) eqn:Hc; cbn [negb andb]; [|intros [= <- <-] Hs; discriminate Hs].
  rewrite generateTokens_eq. intros [= <- <-] _.
  eexists user, _. repeat split; eauto.
Qed.

End SessionFacts.

(** X11. The access token of a login opens the gate for the user who
    logged in: while it verifies, presenting it as [Bearer <token>]
    attaches the row of that user, with the id, email, name and role the
    login answered. *)
Theorem login_token_resolves_user `{Jws} `{Env} `{Validator} `{Bcrypt}
    (db : Db) (now : Z) (body : LoginRequest.t) (session : AuthResponse.t) (db' : Db)
    (now' : Z) (decoded : JWTPayload.t) :
  keyed_by_id db ->
  login db now body = (success 200 (AuthData session), db') ->
  (forall c,
     In c (list_ascii_of_string (accessToken (AuthResponse.tokens session))) ->
     c <> " "%char) ->
  accessToken (AuthResponse.tokens session) <> "" ->
  Jwt.verify (accessToken (AuthResponse.tokens session)) ACCESS_SECRET now' = Ok decoded ->
  JWTPayload.userId decoded = AuthResponse.id (AuthResponse.user session) ->
  exists user,
    authenticateToken db' now'
      (Some ("Bearer " ++ accessToken (AuthResponse.tokens session)))
    = Next user
    /\ ReqUser.id user = AuthResponse.id (AuthResponse.user session)
    /\ ReqUser.email user = AuthResponse.email (AuthResponse.user session)
    /\ ReqUser.name user = AuthResponse.name (AuthResponse.user session)
    /\ ReqUser.role user = AuthResponse.role (AuthResponse.user session).
Proof.
  intros Hkeys Hlogin Hspace Hne Hverify Hid.
  destruct (login_200 _ _ _ _ _ Hlogin eq_refl)
    as (row & tokens & _ & Hfind & Hactive & _ & _ & Hresp & ->).
  injection Hresp as ->.
  apply findUserByEmail_Some in Hfind as [_ [key Hrow]].
  pose proof (map_Forall_lookup_1 _ _ _ _ Hkeys Hrow) as Hkey. simpl in Hkey, Hid.
  rewrite (authenticateToken_present db now' _ _ (bearer_Bearer _ Hspace) Hne).
  rewrite Hverify, Hid, Hkey, Hrow, Hactive. simpl.
  eexists. split; [reflexivity|]. simpl. auto.
Qed.

(** Bob logs in at second 2000 and calls back five minutes later. *)
Lemma login_token_resolves_user_witness :
  exists user,
    @authenticateToken sample_jws env_unset sample_db 2300000
      (Some "Bearer bob.access.new")
    = Next user
    /\ ReqUser.email user = "bob@example.com".
Proof.
  destruct (@login_token_resolves_user sample_jws env_unset validator_plain bcrypt_tagged
              sample_db 2000000
              (LoginRequest.mk (Some "bob@example.com") (Some "password123") None)
              (AuthResponse.mk (AuthResponse.mkUser "u2" "bob@example.com" (Some "Bob") MEMBER)
                 (mkTokens "bob.access.new" "bob.refresh.new"))
              sample_db 2300000 (claims bob 2000 2900))
    as (user & Hauth & _ & He & _).
  - apply (bool_decide_unpack _). vm_compute. exact I.
  - reflexivity.
  - simpl. intros c Hc. intuition (subst; discriminate).
  - discriminate.
  - reflexivity.
  - reflexivity.
  - exists user. split; [exact Hauth | exact He].
Defined.

(** X12. The routes that read or open a session write nothing: whatever
    they are sent and whatever they answer, login, refresh, the two post
    reads and the user list leave the datastore as it was.  In particular
    no number of failed logins changes what the next login meets. *)
Theorem reading_routes_write_nothing `{Jws} `{Env} `{Validator} `{Bcrypt}
    (db : Db) (now : Z) (authorization : option string) :
  (forall body, snd (login db now body) = db)
  /\ (forall refreshToken, snd (refresh db now refreshToken) = db)
  /\ (forall q, snd (posts_list db now authorization q) = db)
  /\ (forall id, snd (posts_get db now authorization id) = db)
  /\ (forall q, snd (users_list db now authorization q) = db).
Proof.
  split; [|split; [|split; [|split]]].
  - intros body. unfold login.
    destruct (negb _); [reflexivity|].
    destruct (findUserByEmail db _) as [user|]; [|reflexivity].
    destruct (negb (User.isActive user)); [reflexivity|].
    destruct (negb (bcrypt_compare _ _)); [reflexivity|].
    destruct (generateTokens _ now); reflexivity.
  - intros refreshToken. unfold refresh.
    destruct (negb _); [reflexivity|].
    destruct (refreshAccessToken db now _); reflexivity.
  - intros q. unfold posts_list, posts_list_handler.
    destruct (authenticateToken db now authorization); [|reflexivity].
    destruct (negb _); [reflexivity|].
    destruct (post_findMany _ _ _ _); reflexivity.
  - intros id. unfold posts_get, posts_get_handler.
    destruct (authenticateToken db now authorization); [|reflexivity].
    destruct (findPost db id); [|reflexivity].
    destruct (_ && _); reflexivity.
  - intros q. unfold users_list, users_list_handler.
    destruct (guarded requireAdmin db now authorization); [|reflexivity].
    destruct (negb _); [reflexivity|].
    destruct (user_findMany _ _ _); reflexivity.
Qed.



Section RegistrationFacts.
Context `{Jws} `{Env} `{Validator} `{Bcrypt} `{Schema}.

(** A successful registration, as the handler performs it. *)
Lemma register_201 db now body response db' :
  register db now body = (response, db') ->
  status response = 201 ->
  exists role user,
    valid_new_user body = true
    /\ findUserByEmail db (normalizeEmail (default "" (RegisterRequest.email body))) = None
    /\ user_create db now
         (mkUserCreate (normalizeEmail (default "" (RegisterRequest.email body)))
            (bcrypt_hash (default "" (RegisterRequest.password body)) 12)
            (name_or_local_part (RegisterRequest.name body)
               (normalizeEmail (default "" (RegisterRequest.email body))))
            role)
       = Ok (user, db').
Proof.
  unfold register.
  destruct (valid_new_user body) eqn:Hvalid; cbn [negb]; [|not_created].
  destruct (Role_of_name _) as [role|]; [|not_created].
  destruct (findUserByEmail db _) eqn:Hfind; [not_created|].
  destruct (user_create db now _) as [[user db1]|e] eqn:Hc; [|not_created].
  rewrite generateTokens_eq. intros [= <- <-] _. eauto.
Qed.

(** The same for POST /api/users. *)
Lemma users_create_201 db now authorization body response db' :
  users_create db now authorization body = (response, db') ->
  status response = 201 ->
  exists role user,
    valid_new_user body = true
    /\ findUserByEmail db (normalizeEmail (default "" (RegisterRequest.email body))) = None
    /\ user_create db now
         (mkUserCreate (normalizeEmail (default "" (RegisterRequest.email body)))
            (bcrypt_hash (default "" (RegisterRequest.password body)) 12)
            (name_or_local_part (RegisterRequest.name body)
               (normalizeEmail (default "" (RegisterRequest.email body))))
            role)
       = Ok (user, db').
Proof.
  unfold users_create.
  destruct (guarded requireAdmin db now authorization) as [admin|r] eqn:Hg.
  2: { intros [= <- <-] Hs.
       destruct (guarded_Reply_status _ _ _ _ _ Hg) as [Hr|[Hr|Hr]]; congruence. }
  unfold users_create_handler.
  destruct (valid_new_user body) eqn:Hvalid; cbn [negb]; [|not_created].
  destruct (Role_of_name _) as [role|]; [|not_created].
  destruct (findUserByEmail db _) eqn:Hfind; [not_created|].
  destruct (user_create db now _) as [[user db1]|e] eqn:Hc; [|not_created].
  intros [= <- <-] _. eauto.
Qed.

(** The row [prisma.user.create] stores. *)
Lemma user_create_row db now data user db' :
  user_create db now data = Ok (user, db') ->
  users db !! cuid (users db) = None
  /\ user = User.mk (cuid (users db)) (create_email data) (create_password data)
              (Some (create_name data)) (create_role data) isActive_default now now
  /\ db' = mkDb (<[cuid (users db) := user]> (users db)) (posts db).
Proof.
  unfold user_create.
  destruct (users db !! cuid (users db)) eqn:Hfree; [discriminate|].
  intros [= <- <-]. auto.
Qed.

(** The unique index on [email] survives a row of a new address. *)
Lemma emails_unique_insert db key row :
  users db !! key = None ->
  findUserByEmail db (User.email row) = None ->
  emails_unique db ->
  emails_unique (mkDb (<[key := row]> (users db)) (posts db)).
Proof.
  unfold emails_unique. simpl. intros Hfree Hnone Hu.
  rewrite (map_to_list_insert _ _ _ Hfree). simpl.
  apply NoDup_cons. split; [|exact Hu].
  intros Hin. apply list_elem_of_fmap in Hin as (u & He & Hin).
  apply list_elem_of_fmap in Hin as ([k v] & -> & Hkv).
  apply elem_of_map_to_list in Hkv. simpl in He.
  exact (findUserByEmail_None _ _ _ _ Hnone Hkv (eq_sym He)).
Qed.

End RegistrationFacts.

(** X14. Who registered can log in: after a successful registration, where
    the schema makes new users active and [bcrypt] accepts a password
    against its own hash, a login with the address and the password of the
    registration is answered 200 with a session for the registered user. *)
Theorem register_then_login `{Jws} `{Env} `{Validator} `{Bcrypt} `{Schema}
    (db : Db) (now : Z) (body : RegisterRequest.t) (response : Response) (db' : Db)
    (now' : Z) (rememberMe : option bool) :
  register db now body = (response, db') ->
  status response = 201 ->
  isActive_default = true ->
  bcrypt_compare (default "" (RegisterRequest.password body))
    (bcrypt_hash (default "" (RegisterRequest.password body)) 12) = true ->
  exists session,
    login db' now'
      (LoginRequest.mk (RegisterRequest.email body) (RegisterRequest.password body) rememberMe)
    = (success 200 (AuthData session), db')
    /\ AuthResponse.id (AuthResponse.user session) = cuid (users db)
    /\ AuthResponse.email (AuthResponse.user session)
       = normalizeEmail (default "" (RegisterRequest.email body)).
Proof.
  intros Hreg Hs Hactive Hbcrypt.
  destruct (register_201 _ _ _ _ _ Hreg Hs) as (role & user & Hvalid & Hnone & Hcreate).
  destruct (user_create_row _ _ _ _ _ Hcreate) as (Hfree & Huser & ->).
  simpl in Huser.
  assert (Hemail : User.email user
                   = normalizeEmail (default "" (RegisterRequest.email body)))
    by (rewrite Huser; reflexivity).
  unfold valid_new_user in Hvalid.
  apply andb_prop in Hvalid as [Hvalid _].
  apply andb_prop in Hvalid as [Hvalid _].
  apply andb_prop in Hvalid as [He Hp].
  assert (Hp6 : isLength_min 6 (RegisterRequest.password body) = true).
  { unfold isLength_min in *. apply Nat.leb_le in Hp. apply Nat.leb_le. lia. }
  unfold login. cbn [LoginRequest.email LoginRequest.password].
  rewrite He, Hp6. cbn [negb andb].
  rewrite <- Hemail in Hnone |- *.
  rewrite (findUserByEmail_insert db (cuid (users db)) user Hnone).
  rewrite generateTokens_eq. subst user.
  cbn [User.isActive User.password User.id User.email User.name User.role
       create_email create_password create_name create_role].
  rewrite Hactive, Hbcrypt. cbn [negb].
  eexists. split; [reflexivity|]. split; reflexivity.
Qed.

(** Dave registers as [Dave@Example.com] and logs in with what he typed. *)
Lemma register_then_login_witness :
  exists session,
    @login sample_jws env_unset validator_plain bcrypt_tagged
      (snd (@register sample_jws env_unset validator_plain bcrypt_tagged (schema_plain "u4")
              sample_db 2000000
              (RegisterRequest.mk (Some "Dave@Example.com") (Some "password123") None
                 (Some "MEMBER"))))
      2000000 (LoginRequest.mk (Some "Dave@Example.com") (Some "password123") None)
    = (success 200 (AuthData session),
       snd (@register sample_jws env_unset validator_plain bcrypt_tagged (schema_plain "u4")
              sample_db 2000000
              (RegisterRequest.mk (Some "Dave@Example.com") (Some "password123") None
                 (Some "MEMBER"))))
    /\ AuthResponse.email (AuthResponse.user session) = "dave@example.com".
Proof.
  destruct (@register_then_login sample_jws env_unset validator_plain bcrypt_tagged
              (schema_plain "u4") sample_db 2000000
              (RegisterRequest.mk (Some "Dave@Example.com") (Some "password123") None
                 (Some "MEMBER"))
              _ _ 2000000 None (surjective_pairing _))
    as (session & Hlogin & _ & He).
  - reflexivity.
  - reflexivity.
  - reflexivity.
  - exists session. split; [exact Hlogin | exact He].
Defined.

Section InvariantFacts.
Context `{Jws} `{Env} `{Validator} `{Bcrypt} `{Schema} `{Generated}.

(** An accepted update of a user, as the handler performs it. *)
Lemma users_update_handler_200 db now id body response db' :
  users_update_handler db now id body = (response, db') ->
  status response = 200 ->
  exists existingUser role isActive,
    users db !! id = Some existingUser
    /\ match UpdateUserRequest.role body with
       | None => role = None
       | Some r => exists v, role = Some v /\ Role_name v = r
       end
    /\ match UpdateUserRequest.isActive body with
       | None => isActive = None
       | Some (JBool b) => isActive = Some b
       | Some (JOther _) => False
       end
    /\ response
       = success 200
           (UserData (ReqUser.select
              (user_patch now (UpdateUserRequest.name body) role isActive existingUser)))
    /\ db' = mkDb (<[id := user_patch now (UpdateUserRequest.name body) role isActive
                             existingUser]> (users db))
                  (posts db).
Proof.
  unfold users_update_handler.
  destruct (valid_update_user body) eqn:Hvalid; cbn [negb]; [|not_created].
  destruct (users db !! id) as [existing|]; [|not_created].
  assert (Hrole : match UpdateUserRequest.role body with
                  | None => True
                  | Some r => forall v, Role_of_name r = Some v -> Role_name v = r
                  end).
  { destruct (UpdateUserRequest.role body) as [r|]; [|exact I].
    intros v. unfold Role_of_name.
    destruct (String.eqb_spec r "ADMIN") as [->|_]; [by intros [= <-]|].
    destruct (String.eqb_spec r "STAFF") as [->|_]; [by intros [= <-]|].
    destruct (String.eqb_spec r "MEMBER") as [->|_]; [by intros [= <-]|].
    destruct (String.eqb_spec r "OWNER") as [->|_]; [by intros [= <-]|].
    discriminate. }
  destruct (UpdateUserRequest.role body) as [r|].
  - destruct (Role_of_name r) as [v|] eqn:Hv; simpl.
    + destruct (UpdateUserRequest.isActive body) as [[b|text]|]; try not_created;
        intros [= <- <-] _; eexists existing, (Some v), _; repeat split; eauto.
    + destruct (UpdateUserRequest.isActive body) as [[b|text]|]; not_created.
  - destruct (UpdateUserRequest.isActive body) as [[b|text]|]; try not_created;
      intros [= <- <-] _; eexists existing, None, _; repeat split; eauto.
Qed.

Lemma users_update_200 db now authorization id body response db' :
  users_update db now authorization id body = (response, db') ->
  status response = 200 ->
  users_update_handler db now id body = (response, db').
Proof.
  unfold users_update.
  destruct (guarded requireAdmin db now authorization) as [admin|r] eqn:Hg; [done|].
  intros [= <- <-] Hs.
  destruct (guarded_Reply_status _ _ _ _ _ Hg) as [Hr|[Hr|Hr]]; congruence.
Qed.

(** The unique index on [email] survives a row rewritten with its email. *)
Lemma emails_unique_update db key old new :
  users db !! key = Some old ->
  User.email new = User.email old ->
  emails_unique db ->
  emails_unique (mkDb (<[key := new]> (users db)) (posts db)).
Proof.
  unfold emails_unique. simpl. intros Hold He Hu.
  rewrite <- (insert_delete_eq (users db) key new).
  rewrite (map_to_list_insert _ _ _ (lookup_delete_eq (users db) key)).
  rewrite <- (map_to_list_delete _ _ _ Hold) in Hu. simpl in *.
  rewrite He. exact Hu.
Qed.

End InvariantFacts.

(** X15. The writes on users keep the keys of the user table: after a
    registration, an admin creation or an admin update, whatever the
    answer, every row is still stored under its own id and no two rows
    share an email. *)
Theorem user_writes_keep_the_keys `{Jws} `{Env} `{Validator} `{Bcrypt} `{Schema} `{Generated}
    (db : Db) (now : Z) :
  keyed_by_id db ->
  emails_unique db ->
  (forall body,
     keyed_by_id (snd (register db now body))
     /\ emails_unique (snd (register db now body)))
  /\
  (forall authorization body,
     keyed_by_id (snd (users_create db now authorization body))
     /\ emails_unique (snd (users_create db now authorization body)))
  /\
  (forall authorization id body,
     keyed_by_id (snd (users_update db now authorization id body))
     /\ emails_unique (snd (users_update db now authorization id body))).
Proof.
  intros Hkeys Huniq.
  assert (Hcreate : forall data user db',
             user_create db now data = Ok (user, db') ->
             findUserByEmail db (create_email data) = None ->
             keyed_by_id db' /\ emails_unique db').
  { intros data user db' Hc Hnone. split.
    - exact (user_create_keyed_by_id _ _ _ _ _ Hkeys Hc).
    - destruct (user_create_row _ _ _ _ _ Hc) as (Hfree & Hrow & ->).
      apply emails_unique_insert; [exact Hfree | | exact Huniq].
      rewrite Hrow. exact Hnone. }
  split; [|split].
  - intros body. unfold register.
    destruct (negb (valid_new_user body)); [auto|].
    destruct (Role_of_name _) as [role|]; [|auto].
    destruct (findUserByEmail db _) eqn:Hnone; [auto|].
    destruct (user_create db now _) as [[user db1]|e] eqn:Hc; [|auto].
    destruct (Hcreate _ _ _ Hc Hnone).
    destruct (generateTokens _ now); auto.
  - intros authorization body. unfold users_create.
    destruct (guarded requireAdmin db now authorization); [|auto].
    unfold users_create_handler.
    destruct (negb (valid_new_user body)); [auto|].
    destruct (Role_of_name _) as [role|]; [|auto].
    destruct (findUserByEmail db _) eqn:Hnone; [auto|].
    destruct (user_create db now _) as [[user db1]|e] eqn:Hc; [|auto].
    destruct (Hcreate _ _ _ Hc Hnone). auto.
  - intros authorization id body. unfold users_update.
    destruct (guarded requireAdmin db now authorization); [|auto].
    unfold users_update_handler.
    destruct (negb (valid_update_user body)); [auto|].
    destruct (users db !! id) as [existing|] eqn:Hex; [|auto].
    destruct (match UpdateUserRequest.role body with
              | Some r => Some <$> Role_of_name r
              | None => Some None
              end) as [role|]; [|auto].
    destruct (match UpdateUserRequest.isActive body with
              | Some (JBool b) => Some (Some b)
              | Some (JOther _) => None
              | None => Some None
              end) as [isActive|]; [|auto].
    simpl. split.
    + apply map_Forall_insert_2; [|exact Hkeys]. simpl.
      exact (map_Forall_lookup_1 _ _ _ _ Hkeys Hex).
    + by apply (emails_unique_update db id existing).
Qed.

Lemma user_writes_keep_the_keys_witness :
  emails_unique
    (snd (@register sample_jws env_unset validator_plain bcrypt_tagged (schema_plain "u4")
            sample_db 2000000
            (RegisterRequest.mk (Some "Dave@Example.com") (Some "password123") None
               (Some "MEMBER")))).
Proof.
  refine (proj2 (proj1 (@user_writes_keep_the_keys sample_jws env_unset validator_plain
                          bcrypt_tagged (schema_plain "u4") (generated_plain "p4")
                          sample_db 2000000 _ _) _)).
  - apply (bool_decide_unpack _). vm_compute. exact I.
  - apply (bool_decide_unpack _). vm_compute. exact I.
Defined.

(** X16. An admin update of a user takes effect on the very next request
    of that user: the row holds the name, the role and the active flag of
    the body, and a token that names the user, however long ago it was
    issued, is resolved against that row, so it is answered 401
    USER_INACTIVE once the flag is false and otherwise attaches the user
    with the new role. *)
Theorem users_update_takes_effect `{Jws} `{Env} `{Validator} `{Generated}
    (db : Db) (now : Z) (authorization : option string) (id : string)
    (body : UpdateUserRequest.t) (response : Response) (db' : Db) :
  users_update db now authorization id body = (response, db') ->
  status response = 200 ->
  exists row,
    users db' !! id = Some row
    /\ (forall b, UpdateUserRequest.isActive body = Some (JBool b) -> User.isActive row = b)
    /\ (forall r, UpdateUserRequest.role body = Some r -> Role_name (User.role row) = r)
    /\ (forall n, UpdateUserRequest.name body = Some n -> User.name row = Some n)
    /\ (forall now' authorization' token decoded,
          bearer authorization' = Some token -> token <> "" ->
          Jwt.verify token ACCESS_SECRET now' = Ok decoded ->
          JWTPayload.userId decoded = id ->
          authenticateToken db' now' authorization'
          = if User.isActive row then Next (ReqUser.select row)
            else Reply (error 401 "USER_INACTIVE" "User account is inactive")).
Proof.
  intros Hu Hs. apply users_update_200 in Hu; [|exact Hs].
  apply users_update_handler_200 in Hu as (existing & role & isActive & Hex & Hrole & Hflag
                                           & _ & ->); [|exact Hs].
  eexists. split; [simpl; apply lookup_insert_eq|].
  split; [|split; [|split]].
  - intros b Hb. rewrite Hb in Hflag. subst isActive. reflexivity.
  - intros r Hr. rewrite Hr in Hrole. destruct Hrole as (v & -> & Hname). exact Hname.
  - intros n Hn. rewrite Hn. reflexivity.
  - intros now' authorization' token decoded Hb Hne Hv Hid.
    rewrite (authenticateToken_present _ now' _ _ Hb Hne), Hv, Hid.
    cbn [users]. rewrite lookup_insert_eq.
    destruct (User.isActive (user_patch _ _ _ _ _)); reflexivity.
Qed.

(** Alice, the admin, deactivates her own account: the update has no
    guard against it, and her token opens nothing afterwards. *)
Lemma users_update_takes_effect_witness :
  @authenticateToken office_jws env_unset
    (snd (@users_update office_jws env_unset validator_plain (generated_plain "p4") office_db 2000000
            (Some "Bearer alice.access") "u1"
            (UpdateUserRequest.mk None None (Some (JBool false)))))
    2000000 (Some "Bearer alice.access")
  = Reply (error 401 "USER_INACTIVE" "User account is inactive").
Proof.
  destruct (@users_update_takes_effect office_jws env_unset validator_plain (generated_plain "p4") office_db
              2000000 (Some "Bearer alice.access") "u1"
              (UpdateUserRequest.mk None None (Some (JBool false))) _ _
              (surjective_pairing _))
    as (row & _ & Hflag & _ & _ & Hgate).
  - reflexivity.
  - rewrite (Hgate 2000000 (Some "Bearer alice.access") "alice.access"
               (claims alice 1500 2400)); [|reflexivity|discriminate|reflexivity|reflexivity].
    rewrite (Hflag false eq_refl). reflexivity.
Defined.

(** * The client *)

(** ** TokenManager *)

(** X17. What [setTokens] stores is what the getters return, the two
    tokens under keys of their own; [clearTokens] removes both; and neither
    touches any other key of [localStorage]. *)
Theorem stored_tokens_round_trip (ls : Client.Storage) (accessToken refreshToken : string) :
  Client.getAccessToken (Client.setTokens accessToken refreshToken ls) = Some accessToken
  /\ Client.getRefreshToken (Client.setTokens accessToken refreshToken ls) = Some refreshToken
  /\ Client.getAccessToken (Client.clearTokens ls) = None
  /\ Client.getRefreshToken (Client.clearTokens ls) = None
  /\ (forall key,
        key <> Client.ACCESS_TOKEN_KEY -> key <> Client.REFRESH_TOKEN_KEY ->
        Client.setTokens accessToken refreshToken ls !! key = ls !! key
        /\ Client.clearTokens ls !! key = ls !! key).
Proof.
  unfold Client.getAccessToken, Client.getRefreshToken, Client.setTokens, Client.clearTokens.
  assert (Hkeys : Client.REFRESH_TOKEN_KEY <> Client.ACCESS_TOKEN_KEY) by discriminate.
  split; [|split; [|split; [|split]]].
  - rewrite lookup_insert_ne by exact Hkeys. apply lookup_insert_eq.
  - apply lookup_insert_eq.
  - rewrite lookup_delete_ne by exact Hkeys. apply lookup_delete_eq.
  - apply lookup_delete_eq.
  - intros key Ha Hr. split.
    + rewrite !lookup_insert_ne by congruence. reflexivity.
    + rewrite !lookup_delete_ne by congruence. reflexivity.
Qed.

(** X18. The browser and the server read the expiry of a token alike,
    but for one millisecond.  For a token both can read, with a good
    signature and the clocks agreeing: when [isTokenExpired] says expired,
    [jwt.verify] throws TokenExpiredError; and [jwt.verify] finds expired a
    token the browser does not exactly when the clock stands at the expiry
    itself, [exp * 1000]. *)
Theorem expiry_seen_by_browser_and_server `{Jws} `{Client.PayloadReader}
    (token secret alg signature : string) (payload : JWTPayload.t) (exp now : Z) :
  jws_decode token = Some (alg, payload, signature) ->
  Js.blank signature = false ->
  alg ∈ Jwt.HS_ALGS ->
  jws_verify token alg secret = true ->
  JWTPayload.exp payload = Some exp ->
  Client.payload_exp (Js.index (Js.split "." token) 1) = Ok (Some exp) ->
  (Client.isTokenExpired token now = true ->
   Jwt.verify token secret now = Throw (TokenExpiredError "jwt expired"))
  /\
  (Jwt.verify token secret now = Throw (TokenExpiredError "jwt expired")
   /\ Client.isTokenExpired token now = false
   <-> now = exp * 1000).
Proof.
  intros Hd Hb Ha Hv He Hc.
  rewrite (verify_good_signature _ _ now _ _ _ Hd Hb Ha Hv), He.
  unfold Client.isTokenExpired. rewrite Hc.
  pose proof (Z.div_mod now 1000 ltac:(lia)) as Hdm.
  pose proof (Z.mod_pos_bound now 1000 ltac:(lia)) as Hmod.
  destruct (Z.geb_spec (now / 1000) exp) as [Hs|Hs];
    destruct (Z.ltb_spec (exp * 1000) now) as [Hcl|Hcl].
  - split; [reflexivity|]. split; [intros [_ [=]] | lia].
  - split; [discriminate|]. split; [intros _; lia | intros _; split; reflexivity].
  - exfalso. lia.
  - split; [discriminate|]. split; [intros [[=] _] | lia].
Qed.

(** At the very millisecond of its expiry Alice's old token is expired for
    the server and not yet for the browser. *)
Lemma expiry_seen_by_browser_and_server_witness :
  @Jwt.verify sample_jws "alice.expired" "fallback-access-secret" 1000000
  = Throw (TokenExpiredError "jwt expired")
  /\ @Client.isTokenExpired sample_reader "alice.expired" 1000000 = false.
Proof.
  apply (proj2 (@expiry_seen_by_browser_and_server sample_jws sample_reader "alice.expired"
                  "fallback-access-secret" "HS256" "sig-e" (claims alice 100 1000) 1000
                  1000000 eq_refl eq_refl ltac:(apply elem_of_cons; by left) eq_refl eq_refl
                  eq_refl)).
  reflexivity.
Defined.

(** ** HttpClient *)

Section HttpFacts.
Context `{Client.PayloadReader} {D W : Type} (fetch : Client.Request D -> W -> Client.Fetched * W).


End HttpFacts.



(** X20. A request answered 401 TOKEN_EXPIRED is retried once, after a
    refresh that keeps the refresh token.  When the refresh endpoint
    answers with an access token, that token is stored beside the refresh
    token that was there, the request goes out again with it, and whatever
    the second answer is, another TOKEN_EXPIRED included, it is the result;
    when the refresh fails, the first answer is the result and the storage
    is as it was. *)
Theorem expired_answer_is_retried_once `{Client.PayloadReader} {D W : Type}
    (fetch : Client.Request D -> W -> Client.Fetched * W)
    (endpoint method : string) (payload : Client.Payload D)
    (ls : Client.Storage) (now : Z) (w w1 w2 : W)
    (first : Response) (refreshToken : string) :
  fetch (Client.mkRequest (Client.API_BASE_URL ++ endpoint) method
           (Client.sent_authorization ls now) payload) w
  = (Client.Answered first, w1) ->
  status first = 401 ->
  Client.error_code_is "TOKEN_EXPIRED" (body first) = true ->
  Client.getRefreshToken ls = Some refreshToken ->
  refreshToken <> "" ->
  (forall renewed second w3 refreshed,
     fetch (Client.mkRequest (Client.API_BASE_URL ++ "/auth/refresh") "POST" None
              (Client.RefreshJson refreshToken)) w1
     = (Client.Answered refreshed, w2) ->
     body refreshed = AccessTokenData renewed -> renewed <> "" ->
     fetch (Client.mkRequest (Client.API_BASE_URL ++ endpoint) method
              (Some ("Bearer " ++ renewed)) payload) w2
     = (Client.Answered second, w3) ->
     Client.makeRequest fetch endpoint method payload ls now w
     = (body second, Client.setTokens renewed refreshToken ls, w3))
  /\
  (forall refreshed,
     fetch (Client.mkRequest (Client.API_BASE_URL ++ "/auth/refresh") "POST" None
              (Client.RefreshJson refreshToken)) w1
     = (Client.Answered refreshed, w2) ->
     Client.is_success (body refreshed) = false ->
     Client.makeRequest fetch endpoint method payload ls now w = (body first, ls, w2))
  /\
  (fetch (Client.mkRequest (Client.API_BASE_URL ++ "/auth/refresh") "POST" None
            (Client.RefreshJson refreshToken)) w1
   = (Client.Failed, w2) ->
   Client.makeRequest fetch endpoint method payload ls now w = (body first, ls, w2)).
Proof.
  intros Hf Hs Hc Hr Hne.
  assert (Hstart : forall X (k : bool * Client.Storage * W -> X),
             Client.makeRequest fetch endpoint method payload ls now w
             = let '(refreshed, ls2, w2) := Client.refreshAccessToken fetch ls w1 in
               if refreshed then
                 if Js.truthy (Client.getAccessToken ls2) then
                   match fetch (Client.mkRequest (Client.API_BASE_URL ++ endpoint) method
                                  (Some ("Bearer " ++ default "" (Client.getAccessToken ls2)))
                                  payload) w2 with
                   | (Client.Failed, w3) => (Client.NETWORK_ERROR, ls2, w3)
                   | (Client.Answered r', w3) => (body r', ls2, w3)
                   end
                 else (body first, ls2, w2)
               else (body first, ls2, w2)).
  { intros _ _. unfold Client.makeRequest. cbv zeta. rewrite Hf, Hs, Hc. reflexivity. }
  rewrite (Hstart unit (fun _ => tt)). clear Hstart.
  unfold Client.refreshAccessToken. rewrite Hr, (truthy_Some _ Hne).
  cbn [negb from_option id].
  split; [|split].
  - intros renewed second w3 refreshed Hrf Hb Hrn Hretry.
    rewrite Hrf, Hb. cbn [Client.is_success Client.data_accessToken andb].
    rewrite (truthy_Some _ Hrn). cbn [from_option id].
    assert (Hget : Client.getAccessToken (Client.setTokens renewed refreshToken ls)
                   = Some renewed).
    { unfold Client.getAccessToken, Client.setTokens.
      rewrite lookup_insert_ne by discriminate. apply lookup_insert_eq. }
    rewrite Hget, (truthy_Some _ Hrn). cbn [from_option id]. rewrite Hretry. reflexivity.
  - intros refreshed Hrf Hfail. rewrite Hrf, Hfail. reflexivity.
  - intros Hrf. rewrite Hrf. reflexivity.
Qed.

(** At the millisecond its token expires, Bob's browser still sends it; the
    server answers TOKEN_EXPIRED, the refresh gives a new access token, and
    the retry is served. *)
Lemma expired_answer_is_retried_once_witness :
  Client.makeRequest (H := sample_reader)
    (@example_server boundary_jws env_unset sample_db 1000000)
    "/auth/me" "GET" Client.NoBody bob_storage 1000000 tt
  = (UserData (ReqUser.select bob),
     Client.setTokens "bob.access.renewed" "bob.refresh" bob_storage, tt).
Proof.
  refine (proj1 (@expired_answer_is_retried_once sample_reader unit unit
                   (@example_server boundary_jws env_unset sample_db 1000000)
                   "/auth/me" "GET" Client.NoBody bob_storage 1000000 tt tt tt
                   (error 401 "TOKEN_EXPIRED" "Access token has expired") "bob.refresh"
                   _ _ _ _ _)
            "bob.access.renewed" (success 200 (UserData (ReqUser.select bob))) tt
            (success 200 (AccessTokenData "bob.access.renewed")) _ _ _ _).
  - reflexivity.
  - reflexivity.
  - reflexivity.
  - reflexivity.
  - discriminate.
  - reflexivity.
  - reflexivity.
  - discriminate.
  - reflexivity.
Defined.

(** ** AuthManager *)

(** X21. What the client offers is what the server's guards grant: for a
    manager holding a user and a request the gate attached a user of the
    same role to, [canManagePosts] holds exactly when [requireStaff] lets
    the request through, [canManageUsers] and [isAdmin] exactly when
    [requireAdmin] does, and [canViewPosts] exactly when [requireAuth]
    does; with no user, the client offers nothing. *)
Theorem client_permissions_match_guards (m : Client.Manager) (user : ReqUser.t) :
  (forall u, Client.AppState.user (Client.state m) = Some u ->
             Client.User.role u = ReqUser.role user ->
     (Client.canManagePosts m = true <-> requireStaff (Some user) = Next user)
     /\ (Client.isStaff m = true <-> requireStaff (Some user) = Next user)
     /\ (Client.canManageUsers m = true <-> requireAdmin (Some user) = Next user)
     /\ (Client.isAdmin m = true <-> requireAdmin (Some user) = Next user)
     /\ (Client.canViewPosts m = true <-> requireAuth (Some user) = Next user))
  /\
  (Client.AppState.user (Client.state m) = None ->
   Client.canManagePosts m = false /\ Client.canManageUsers m = false
   /\ Client.canViewPosts m = false /\ Client.getRedirectUrl m = "/login.html").
Proof.
  split.
  - intros u Hu Hrole.
    unfold Client.canManagePosts, Client.isStaff, Client.canManageUsers, Client.isAdmin,
      Client.canViewPosts, Client.hasAnyRole, Client.hasRole,
      requireStaff, requireAdmin, requireAuth, requireRole.
    rewrite Hu, Hrole.
    destruct (ReqUser.role user); simpl; repeat split; intros; try done.
  - intros Hnone.
    unfold Client.canManagePosts, Client.canManageUsers, Client.canViewPosts,
      Client.hasAnyRole, Client.hasRole, Client.getRedirectUrl.
    rewrite Hnone. auto.
Qed.

Section ManagerFacts.
Context `{Client.PayloadReader} {D W : Type} (fetch : Client.Request D -> W -> Client.Fetched * W).

Lemma setState_listeners n m : Client.listeners (Client.setState n m) = Client.listeners m.
Proof. reflexivity. Qed.

(** [authApi.logout] leaves no token, whatever the request came to. *)
Lemma authApi_logout_clears ls now w :
  Client.getAccessToken (snd (fst (Client.authApi_logout fetch ls now w))) = None
  /\ Client.getRefreshToken (snd (fst (Client.authApi_logout fetch ls now w))) = None.
Proof.
  unfold Client.authApi_logout.
  destruct (Client.post fetch "/auth/logout" None ls now w) as [[result ls'] w']. simpl.
  unfold Client.getAccessToken, Client.getRefreshToken, Client.clearTokens. split.
  - rewrite lookup_delete_ne by discriminate. apply lookup_delete_eq.
  - apply lookup_delete_eq.
Qed.

End ManagerFacts.

(** X22. [logout] always signs out: whatever the server answers, and when
    the request fails, the manager ends with no user, not authenticated, not
    loading and without an error, both stored tokens are removed, and the
    listeners stay subscribed. *)
Theorem logout_always_signs_out `{Client.PayloadReader} {D W : Type}
    (fetch : Client.Request D -> W -> Client.Fetched * W)
    (m : Client.Manager) (ls : Client.Storage) (now : Z) (w : W) :
  Client.state (fst (fst (Client.logout fetch m ls now w)))
  = Client.AppState.mk None false false None
  /\ Client.getAccessToken (snd (fst (Client.logout fetch m ls now w))) = None
  /\ Client.getRefreshToken (snd (fst (Client.logout fetch m ls now w))) = None
  /\ Client.listeners (fst (fst (Client.logout fetch m ls now w))) = Client.listeners m.
Proof.
  unfold Client.logout.
  destruct (Client.authApi_logout fetch ls now w) as [[result ls'] w']. simpl.
  unfold Client.getAccessToken, Client.getRefreshToken, Client.clearTokens.
  split; [reflexivity|]. split; [|split; [|reflexivity]].
  - rewrite lookup_delete_ne by discriminate. apply lookup_delete_eq.
  - apply lookup_delete_eq.
Qed.



Section SubscriptionFacts.

Lemma indexOf_None l ls : l ∉ ls -> Client.indexOf l ls = None.
Proof.
  induction ls as [|x ls IH]; simpl; [reflexivity|].
  intros Hl. apply not_elem_of_cons in Hl as [Hne Hl].
  destruct (Nat.eqb_spec x l); [congruence|]. by rewrite IH.
Qed.

Lemma indexOf_snoc l ls : l ∉ ls -> Client.indexOf l (ls ++ [l]) = Some (length ls).
Proof.
  induction ls as [|x ls IH]; simpl.
  - intros _. by rewrite Nat.eqb_refl.
  - intros Hl. apply not_elem_of_cons in Hl as [Hne Hl].
    destruct (Nat.eqb_spec x l); [congruence|]. by rewrite IH.
Qed.

(** [indexOf] finds the first place of the listener. *)
Lemma indexOf_Some l ls i :
  Client.indexOf l ls = Some i -> ls !! i = Some l /\ l ∉ take i ls.
Proof.
  revert i. induction ls as [|x ls IH]; simpl; [discriminate|].
  intros i. destruct (Nat.eqb_spec x l) as [->|Hne].
  - intros [= <-]. split; [reflexivity|]. simpl. apply not_elem_of_nil.
  - destruct (Client.indexOf l ls) as [j|]; [|discriminate].
    intros [= <-]. destruct (IH j eq_refl) as [Hj Hnot]. split; [exact Hj|].
    simpl. apply not_elem_of_cons. split; [congruence | exact Hnot].
Qed.

End SubscriptionFacts.

(** X24. Subscribing and unsubscribing.  The function [subscribe] returns
    undoes the subscription: for a listener that was not subscribed the
    manager is as before, and calling it for a listener that is not
    subscribed changes nothing.  A new listener is called after the others,
    with the state the update made.  It removes one subscription only, the
    earliest: a listener subscribed once is not called again, one subscribed
    twice still is. *)
Theorem subscription_round_trip (m : Client.Manager) (listener : nat) :
  (listener ∉ Client.listeners m ->
   Client.unsubscribe listener (Client.subscribe listener m) = m
   /\ Client.unsubscribe listener m = m)
  /\ (forall newState,
        Client.notified (Client.setState newState (Client.subscribe listener m))
        = (Client.notified (Client.setState newState m)
           ++ [(listener, Client.AppState.merge (Client.state m) newState)])%list)
  /\ (NoDup (Client.listeners m) ->
      listener ∉ Client.listeners (Client.unsubscribe listener m))
  /\ listener ∈ Client.listeners
                  (Client.unsubscribe listener
                     (Client.subscribe listener (Client.subscribe listener m))).
Proof.
  destruct m as [st ls log]. unfold Client.unsubscribe, Client.subscribe. simpl.
  split; [|split; [|split]].
  - intros Hl. rewrite (indexOf_snoc _ _ Hl), (indexOf_None _ _ Hl).
    split; [|reflexivity]. f_equal.
    rewrite take_app_length.
    rewrite drop_ge by (rewrite length_app; simpl; lia). apply app_nil_r.
  - intros newState. unfold Client.setState. simpl.
    rewrite fmap_app. simpl. by rewrite app_assoc.
  - intros Hnd. destruct (Client.indexOf listener ls) as [i|] eqn:Hi; simpl.
    + destruct (indexOf_Some _ _ _ Hi) as [Hat Hbefore].
      intros Hin. apply elem_of_app in Hin as [Hin|Hin]; [contradiction|].
      rewrite <- (take_drop_middle _ _ _ Hat) in Hnd.
      apply NoDup_app in Hnd as (_ & _ & Hnd). apply NoDup_cons in Hnd as [Hnd _].
      contradiction.
    + intros Hin. induction ls as [|x ls IH]; [by apply not_elem_of_nil in Hin|].
      simpl in Hi. destruct (Nat.eqb_spec x listener); [discriminate|].
      apply elem_of_cons in Hin as [->|Hin]; [congruence|].
      destruct (Client.indexOf listener ls); [discriminate|].
      apply IH; [by apply NoDup_cons in Hnd as [_ Hnd] | reflexivity | exact Hin].
  - destruct (Client.indexOf listener ((ls ++ [listener]) ++ [listener])) as [i|] eqn:Hi;
      simpl.
    + destruct (indexOf_Some _ _ _ Hi) as [Hat Hbefore].
      assert (Hlt : (i < length (ls ++ [listener]))%nat).
      { destruct (Nat.lt_ge_cases i (length (ls ++ [listener]))) as [Hlt|Hge]; [exact Hlt|].
        exfalso. apply Hbefore.
        rewrite take_app_ge by exact Hge. apply elem_of_app. left.
        apply elem_of_app. right. apply list_elem_of_singleton. reflexivity. }
      apply elem_of_app. right.
      rewrite drop_app_le by lia. apply elem_of_app. right.
      apply list_elem_of_singleton. reflexivity.
    + apply elem_of_app. right. apply list_elem_of_singleton. reflexivity.
Qed.

(** X25. A browser that starts with an expired access token ends signed
    out and without tokens: whatever the server answers to the requests
    [initializeAuth] makes on the way, the state ends with no user and not
    authenticated, and the refresh token it held, expired or not, is
    removed with the access token. *)
Theorem startup_with_expired_token_signs_out `{Client.PayloadReader} {D W : Type}
    (fetch : Client.Request D -> W -> Client.Fetched * W)
    (m : Client.Manager) (ls : Client.Storage) (now : Z) (w : W)
    (accessToken refreshToken : string) :
  Client.getAccessToken ls = Some accessToken -> accessToken <> "" ->
  Client.getRefreshToken ls = Some refreshToken -> refreshToken <> "" ->
  Client.isTokenExpired accessToken now = true ->
  Client.state (fst (fst (Client.initializeAuth fetch m ls now w)))
  = Client.AppState.mk None false false (Client.AppState.error (Client.state m))
  /\ Client.getAccessToken (snd (fst (Client.initializeAuth fetch m ls now w))) = None
  /\ Client.getRefreshToken (snd (fst (Client.initializeAuth fetch m ls now w))) = None.
Proof.
  intros Ha Hane Hr Hrne Hexp. unfold Client.initializeAuth.
  rewrite Ha, Hr, (truthy_Some _ Hane), (truthy_Some _ Hrne).
  cbn [negb orb from_option id]. rewrite Hexp.
  pose proof (authApi_logout_clears fetch ls now w) as [Hca Hcr].
  destruct (Client.authApi_logout fetch ls now w) as [[response ls'] w']. simpl in *.
  split; [reflexivity|].
  destruct (Client.is_success response); [|auto].
  unfold Client.getAccessToken, Client.getRefreshToken, Client.clearTokens. split.
  - rewrite lookup_delete_ne by discriminate. apply lookup_delete_eq.
  - apply lookup_delete_eq.
Qed.

(** Alice opens the page with her old access token and a refresh token. *)
Lemma startup_with_expired_token_signs_out_witness :
  Client.getRefreshToken
    (snd (fst (Client.initializeAuth (H := sample_reader)
                 (@example_server sample_jws env_unset sample_db 2000000)
                 fresh_manager stale_storage 2000000 tt)))
  = None.
Proof.
  refine (proj2 (proj2 (@startup_with_expired_token_signs_out sample_reader unit unit
            (@example_server sample_jws env_unset sample_db 2000000)
            fresh_manager stale_storage 2000000 tt "alice.expired" "alice.refresh"
            _ _ _ _ _))).
  - reflexivity.
  - discriminate.
  - reflexivity.
  - discriminate.
  - reflexivity.
Defined.

(** ** FormUtils *)



(** A password of two letters and three emoji has eight code units and five
    characters: the form accepts it, and a validator that counts characters
    refuses it at register and at login. *)
Example form_accepts_what_the_server_refuses :
  let password := "A1" ++ grinning_face ++ grinning_face ++ grinning_face in
  FormUtils.isValid (FormUtils.validatePassword password) = true
  /\ @isLength_min validator_plain 8 (Some password) = false
  /\ @isLength_min validator_plain 6 (Some password) = false.
Proof. repeat split. Qed.

(** ** postsApi.getPosts *)

Section NumberFacts.

Lemma digit_char_spec (d : Z) :
  0 <= d <= 9 ->
  Js.is_digit (PostsApi.digit_char d) = true
  /\ Js.digit_val (PostsApi.digit_char d) = d.
Proof.
  intros Hd.
  assert (Hcases : d = 0 \/ d = 1 \/ d = 2 \/ d = 3 \/ d = 4 \/ d = 5 \/ d = 6 \/ d = 7
                   \/ d = 8 \/ d = 9) by lia.
  repeat (destruct Hcases as [->|Hcases]; [split; reflexivity|]).
  subst. split; reflexivity.
Qed.

(** Reading the digits printed for [n] continues the number read so far
    with them. *)
Lemma digits_of_read (fuel : nat) :
  forall n acc, 0 <= n < 2 ^ Z.of_nat (S fuel) ->
  exists k : nat,
    (1 <= k)%nat
    /\ forall a c,
         Js.digits a c (PostsApi.digits_of (S fuel) n acc)
         = Js.digits (a * 10 ^ Z.of_nat k + n) (c + k) acc.
Proof.
  induction fuel as [|fuel IH]; intros n acc Hn.
  - exists 1%nat. split; [lia|]. intros a c. simpl.
    assert (Hlt : n < 10) by (change (2 ^ Z.of_nat 1) with 2 in Hn; lia).
    destruct (Z.ltb_spec n 10); [|lia].
    rewrite Z.mod_small by lia.
    destruct (digit_char_spec n ltac:(lia)) as [Hd Hv].
    simpl. rewrite Hd, Hv. f_equal; [f_equal; lia | lia].
  - change (PostsApi.digits_of (S (S fuel)) n acc)
      with (if n <? 10 then String (PostsApi.digit_char (n mod 10)) acc
            else PostsApi.digits_of (S fuel) (n / 10)
                   (String (PostsApi.digit_char (n mod 10)) acc)).
    pose proof (Z.mod_pos_bound n 10 ltac:(lia)) as Hmod.
    pose proof (Z.div_mod n 10 ltac:(lia)) as Hdm.
    destruct (digit_char_spec (n mod 10) ltac:(lia)) as [Hd Hv].
    destruct (Z.ltb_spec n 10) as [Hlt|Hge].
    + exists 1%nat. split; [lia|]. intros a c. simpl. rewrite Hd, Hv.
      rewrite Z.mod_small by lia. f_equal; [f_equal; lia | lia].
    + assert (Hdiv : 0 <= n / 10 < 2 ^ Z.of_nat (S fuel)).
      { split; [apply Z.div_pos; lia|].
        apply Z.div_lt_upper_bound; [lia|].
        rewrite (Nat2Z.inj_succ (S fuel)), Z.pow_succ_r in Hn by lia. lia. }
      destruct (IH (n / 10) (String (PostsApi.digit_char (n mod 10)) acc) Hdiv)
        as (k & Hk & Hread).
      exists (S k). split; [lia|]. intros a c. rewrite Hread. simpl Js.digits at 1.
      rewrite Hd, Hv. rewrite Nat2Z.inj_succ, Z.pow_succ_r by lia.
      f_equal; lia.
Qed.

(** The text printed for a positive number starts with a digit from 1
    to 9. *)
Lemma digits_of_head (fuel : nat) :
  forall n acc, 1 <= n < 2 ^ Z.of_nat (S fuel) ->
  exists m rest,
    PostsApi.digits_of (S fuel) n acc = String (PostsApi.digit_char m) rest
    /\ 1 <= m <= 9.
Proof.
  induction fuel as [|fuel IH]; intros n acc Hn.
  - simpl. assert (Hlt : n < 10) by (change (2 ^ Z.of_nat 1) with 2 in Hn; lia).
    destruct (Z.ltb_spec n 10); [|lia].
    exists n, acc. rewrite Z.mod_small by lia. split; [reflexivity | lia].
  - change (PostsApi.digits_of (S (S fuel)) n acc)
      with (if n <? 10 then String (PostsApi.digit_char (n mod 10)) acc
            else PostsApi.digits_of (S fuel) (n / 10)
                   (String (PostsApi.digit_char (n mod 10)) acc)).
    destruct (Z.ltb_spec n 10) as [Hlt|Hge].
    + exists n, acc. rewrite Z.mod_small by lia. split; [reflexivity | lia].
    + apply IH. split.
      * apply Z.div_le_lower_bound; lia.
      * apply Z.div_lt_upper_bound; [lia|].
        rewrite (Nat2Z.inj_succ (S fuel)), Z.pow_succ_r in Hn by lia. lia.
Qed.

Lemma toString_fuel (n : Z) : 1 <= n -> n < 2 ^ Z.of_nat (S (Z.to_nat (Z.log2 n))).
Proof.
  intros Hn. rewrite Nat2Z.inj_succ, Z2Nat.id by apply Z.log2_nonneg.
  apply Z.log2_spec. lia.
Qed.

(** The digits printed for a positive number, as the server's checks read
    them: no sign, all of them digits. *)
Lemma digits_of_literal (n : Z) :
  1 <= n ->
  let body := PostsApi.digits_of (S (Z.to_nat (Z.log2 n))) n "" in
  (exists k, Js.digits 0 0 body = (n, S k, ""))
  /\ match body with
     | String "-" r => (true, r)
     | String "+" r => (false, r)
     | _ => (false, body)
     end = (false, body).
Proof.
  intros Hn body.
  pose proof (toString_fuel n Hn) as Hfuel.
  assert (Hpos : 0 <= n) by lia.
  destruct (digits_of_head _ n "" (conj Hn Hfuel)) as (m & rest & Hhead & Hm).
  destruct (digits_of_read _ n "" (conj Hpos Hfuel)) as (k & Hk & Hread).
  specialize (Hread 0 0%nat). simpl Js.digits at 2 in Hread.
  fold body in Hhead, Hread. clearbody body.
  assert (Hcases : m = 1 \/ m = 2 \/ m = 3 \/ m = 4 \/ m = 5 \/ m = 6 \/ m = 7 \/ m = 8
                   \/ m = 9) by lia.
  split.
  - destruct k as [|k]; [lia|]. exists k. rewrite Hread. reflexivity.
  - rewrite Hhead.
    repeat (destruct Hcases as [->|Hcases]; [reflexivity|]). subst. reflexivity.
Qed.

(** What the server's checks make of the text of a number: the number. *)
Lemma int_literal_toString (n : Z) : int_literal (PostsApi.toString n) = Some n.
Proof.
  unfold PostsApi.toString.
  destruct (Z.ltb_spec n 0) as [Hneg|Hpos].
  - destruct (digits_of_literal (- n) ltac:(lia)) as ((k & Hread) & _).
    remember (PostsApi.digits_of _ (- n) "") as body eqn:Hbody. clear Hbody.
    unfold int_literal. cbv iota beta. rewrite Hread. simpl.
    f_equal. lia.
  - destruct (Z.eq_dec n 0) as [->|Hnz]; [reflexivity|].
    destruct (digits_of_literal n ltac:(lia)) as ((k & Hread) & Hsign).
    remember (PostsApi.digits_of _ n "") as body eqn:Hbody. clear Hbody.
    unfold int_literal. rewrite Hsign, Hread. reflexivity.
Qed.

(** A number of the client's parameters, as the server's check and
    [parseInt] find it in the query: absent when it is zero or not given,
    else held to the bounds and read back as sent. *)
Lemma sent_number (min : Z) (max : option Z) (n : option Z) (d : Z) :
  min <= d -> match max with Some m => d <= m | None => True end ->
  (forall z, n = Some z -> PostsApi.isSafeInteger z = true) ->
  let v := if PostsApi.truthy_number n
           then Some (PostsApi.toString (default 0 n)) else None in
  let sent := match n with Some z => if z =? 0 then d else z | None => d end in
  optional (isInt min max) v
  = (min <=? sent) && match max with Some m => sent <=? m | None => true end
  /\ Js.num_or (Js.parseInt v) d = sent.
Proof.
  intros Hmin Hmax Hsafe v sent.
  assert (Habsent : true = (min <=? d)
                    && match max with Some m => d <=? m | None => true end).
  { symmetry. apply andb_true_intro. split; [by apply Z.leb_le|].
    destruct max; [by apply Z.leb_le | reflexivity]. }
  destruct n as [z|]; [|split; [exact Habsent | reflexivity]].
  subst v sent. cbn [PostsApi.truthy_number from_option id].
  destruct (Z.eqb_spec z 0) as [->|Hz]; [split; [exact Habsent | reflexivity]|].
  cbn [negb optional].
  assert (Hround : Js.round z = Js.Finite z).
  { apply round_small. specialize (Hsafe z eq_refl).
    unfold PostsApi.isSafeInteger, PostsApi.MAX_SAFE_INTEGER in Hsafe.
    apply andb_prop in Hsafe as [Hlo Hhi]. apply Z.leb_le in Hlo, Hhi.
    change (2 ^ 53) with 9007199254740992 in *. lia. }
  split.
  - unfold isInt. cbn [from_option id]. rewrite int_literal_toString, Hround.
    destruct max; reflexivity.
  - rewrite (int_literal_parseInt _ z (int_literal_toString z)), Hround.
    cbn [Js.num_or]. destruct (Z.eqb_spec z 0); [lia | reflexivity].
Qed.

(** The query the server receives for the parameters of [getPosts]. *)
Lemma query_received_getPosts (p : PostsApi.Params) :
  PostsApi.query_received (PostsApi.getPosts_query (Some p))
  = PostsQuery.mk
      (if PostsApi.truthy_number (PostsApi.page p)
       then Some (PostsApi.toString (default 0 (PostsApi.page p))) else None)
      (if PostsApi.truthy_number (PostsApi.limit p)
       then Some (PostsApi.toString (default 0 (PostsApi.limit p))) else None)
      (if Js.truthy (PostsApi.status p) then Some (default "" (PostsApi.status p))
       else None)
      (if Js.truthy (PostsApi.search p) then Some (default "" (PostsApi.search p))
       else None).
Proof.
  unfold PostsApi.query_received, PostsApi.getPosts_query.
  destruct (PostsApi.truthy_number (PostsApi.page p)),
    (PostsApi.truthy_number (PostsApi.limit p)),
    (Js.truthy (PostsApi.status p)), (Js.truthy (PostsApi.search p));
    reflexivity.
Qed.

End NumberFacts.

(** X27. The parameters of [postsApi.getPosts] as GET /api/posts takes
    them.  For whole numbers that JavaScript prints in plain decimal
    notation, a page or a limit that is zero or not given is left out of
    the query, and the server answers with its defaults 1 and 10; a status
    or a search that is empty is left out too.  The request is served
    exactly when the page sent is at least 1, the limit sent is from 1 to
    100, the status sent is a status name and the search sent measures at
    least 1 for [isLength], as every search of ASCII characters does; the
    page and limit answered are then the numbers sent.  Otherwise it is
    refused with VALIDATION_ERROR. *)
Theorem getPosts_parameters_reach_the_server `{Validator}
    (db : Db) (user : ReqUser.t) (p : PostsApi.Params) :
  (forall n, PostsApi.page p = Some n -> PostsApi.isSafeInteger n = true) ->
  (forall n, PostsApi.limit p = Some n -> PostsApi.isSafeInteger n = true) ->
  let q := PostsApi.query_received (PostsApi.getPosts_query (Some p)) in
  let page_sent :=
    match PostsApi.page p with Some n => if n =? 0 then 1 else n | None => 1 end in
  let limit_sent :=
    match PostsApi.limit p with Some n => if n =? 0 then 10 else n | None => 10 end in
  let search_passes :=
    match PostsApi.search p with
    | Some s => String.eqb s "" || isLength_min 1 (Some s)
    | None => true
    end in
  (if (1 <=? page_sent) && ((1 <=? limit_sent) && (limit_sent <=? 100))
      && match PostsApi.status p with
         | Some s => String.eqb s "" || isIn STATUS_NAMES (Some s)
         | None => true
         end
      && search_passes
   then exists served total pages,
          posts_list_handler db user q
          = (success 200
               (PostsData served (mkPagination page_sent limit_sent total pages)), db)
   else posts_list_handler db user q
        = (error 400 "VALIDATION_ERROR" "Invalid query parameters", db))
  /\ (forall s, PostsApi.search p = Some s -> Js.ascii_text s = true ->
        search_passes = true).
Proof.
  intros Hsafe_page Hsafe_limit q page_sent limit_sent search_passes. subst q.
  split.
  2: { intros s Hs Hascii. subst search_passes. rewrite Hs.
       unfold isLength_min. cbn [from_option id].
       rewrite (isLength_measure_ascii _ Hascii).
       destruct s; reflexivity. }
  rewrite query_received_getPosts.
  assert (Hdefault : 1 <= 10 <= 100) by lia.
  destruct (sent_number 1 None (PostsApi.page p) 1 (Z.le_refl 1) I Hsafe_page)
    as [Hpage Hp].
  destruct (sent_number 1 (Some 100) (PostsApi.limit p) 10
              (proj1 Hdefault) (proj2 Hdefault) Hsafe_limit) as [Hlimit Hl].
  cbv zeta in Hpage, Hp, Hlimit, Hl. fold page_sent in Hpage, Hp.
  fold limit_sent in Hlimit, Hl.
  unfold posts_list_handler, valid_posts_query.
  cbn [PostsQuery.page PostsQuery.limit PostsQuery.status PostsQuery.search].
  rewrite Hpage, Hlimit, Hp, Hl, andb_true_r.
  assert (Hstatus :
            optional (isIn STATUS_NAMES)
              (if Js.truthy (PostsApi.status p)
               then Some (default "" (PostsApi.status p)) else None)
            = match PostsApi.status p with
              | Some s => String.eqb s "" || isIn STATUS_NAMES (Some s)
              | None => true
              end).
  { destruct (PostsApi.status p) as [s|]; [|reflexivity].
    cbn [Js.truthy]. destruct (String.eqb s ""); reflexivity. }
  assert (Hsearch :
            optional (isLength_min 1)
              (if Js.truthy (PostsApi.search p)
               then Some (default "" (PostsApi.search p)) else None) = search_passes).
  { subst search_passes. destruct (PostsApi.search p) as [s|]; [|reflexivity].
    cbn [Js.truthy]. destruct (String.eqb s ""); reflexivity. }
  rewrite Hstatus, Hsearch.
  destruct (Z.leb_spec 1 page_sent) as [Hp1|]; [|reflexivity].
  destruct (Z.leb_spec 1 limit_sent) as [Hl1|]; [|reflexivity].
  destruct (Z.leb_spec limit_sent 100) as [Hl100|]; [|reflexivity].
  destruct (match PostsApi.status p with Some _ => _ | None => _ end); [|reflexivity].
  destruct search_passes; [|reflexivity]. cbn [andb negb].
  assert (Hpage_safe : Z.abs page_sent < 2 ^ 53).
  { subst page_sent. change (2 ^ 53) with 9007199254740992.
    destruct (PostsApi.page p) as [n|]; [|lia].
    specialize (Hsafe_page n eq_refl).
    unfold PostsApi.isSafeInteger, PostsApi.MAX_SAFE_INTEGER in Hsafe_page.
    apply andb_prop in Hsafe_page as [Hlo Hhi]. apply Z.leb_le in Hlo, Hhi.
    change (2 ^ 53) with 9007199254740992 in *.
    destruct (n =? 0); lia. }
  cbn [Js.sub]. rewrite (round_small (page_sent - 1)) by lia. cbn [Js.mul].
  destruct (round_finite ((page_sent - 1) * limit_sent)) as [skip Hskip].
  { assert (2 ^ 53 * 100 < 2 ^ 1000).
    { change 100 with (25 * 2 ^ 2).
      assert (25 * 2 ^ 2 < 2 ^ 7) by (vm_compute; reflexivity).
      assert (2 ^ 53 * 2 ^ 7 = 2 ^ 60) by (rewrite <- Z.pow_add_r by lia; reflexivity).
      assert (2 ^ 60 < 2 ^ 1000) by (apply Z.pow_lt_mono_r; lia).
      pose proof (Z.pow_pos_nonneg 2 53 ltac:(lia) ltac:(lia)). nia. }
    rewrite Z.abs_mul. nia. }
  rewrite Hskip. cbn [post_findMany].
  eexists _, _, _. reflexivity.
Qed.

Lemma getPosts_parameters_reach_the_server_witness :
  exists served total pages,
    @posts_list_handler validator_plain sample_db
      (ReqUser.mk "u1" "alice@example.com" (Some "Alice") ADMIN true 10 10)
      (PostsApi.query_received
         (PostsApi.getPosts_query
            (Some (PostsApi.mkParams (Some 3) (Some 0) (Some "DRAFT") (Some "")))))
    = (success 200 (PostsData served (mkPagination 3 10 total pages)), sample_db).
Proof.
  refine (proj1 (@getPosts_parameters_reach_the_server validator_plain sample_db
            (ReqUser.mk "u1" "alice@example.com" (Some "Alice") ADMIN true 10 10)
            (PostsApi.mkParams (Some 3) (Some 0) (Some "DRAFT") (Some "")) _ _)).
  - intros n [= <-]. reflexivity.
  - intros n [= <-]. reflexivity.
Defined.

(** ** The seed script *)

Section SeedFacts.
Context `{Bcrypt} `{Schema} `{Generated}.
Variable empty_update : Z -> Z -> Z.

Lemma same_account_refl (u : User.t) : Seed.same_account u u.
Proof. unfold Seed.same_account. auto 10. Qed.

Lemma same_account_trans (u v w : User.t) :
  Seed.same_account u v -> Seed.same_account v w -> Seed.same_account u w.
Proof.
  unfold Seed.same_account.
  intros (? & ? & ? & ? & ? & ? & ?) (? & ? & ? & ? & ? & ? & ?).
  repeat split; congruence.
Qed.

(** An upsert writes no post, keeps the keys, and leaves every account that
    was there as it was, but for [updatedAt]; the row it answers is stored
    under its id and has the address asked for. *)
Lemma user_upsert_Ok db now create row db1 :
  keyed_by_id db ->
  Seed.user_upsert empty_update db now create = Ok (row, db1) ->
  keyed_by_id db1
  /\ posts db1 = posts db
  /\ users db1 !! User.id row = Some row
  /\ User.email row = Seed.email create
  /\ (forall k u, users db !! k = Some u ->
        exists u', users db1 !! k = Some u' /\ Seed.same_account u u').
Proof.
  intros Hkeys. unfold Seed.user_upsert.
  destruct (findUserByEmail db (Seed.email create)) as [u|] eqn:Hfind.
  - destruct (findUserByEmail_Some _ _ _ Hfind) as [Hemail [key Hu]].
    pose proof (map_Forall_lookup_1 _ _ _ _ Hkeys Hu) as Hid. simpl in Hid.
    intros [= <- <-]. simpl. repeat split.
    + apply map_Forall_insert_2; [reflexivity | exact Hkeys].
    + apply lookup_insert_eq.
    + exact Hemail.
    + intros k u0 Hk. destruct (decide (k = User.id u)) as [->|Hne].
      * rewrite lookup_insert_eq. eexists. split; [reflexivity|].
        rewrite Hid in Hk. rewrite Hu in Hk. injection Hk as <-.
        unfold Seed.same_account. simpl. auto 10.
      * rewrite lookup_insert_ne by congruence.
        exists u0. split; [exact Hk | apply same_account_refl].
  - destruct (users db !! cuid (users db)) eqn:Hfree; [discriminate|].
    intros [= <- <-]. simpl. repeat split.
    + apply map_Forall_insert_2; [reflexivity | exact Hkeys].
    + apply lookup_insert_eq.
    + intros k u0 Hk. rewrite lookup_insert_ne by congruence.
      exists u0. split; [exact Hk | apply same_account_refl].
Qed.

Lemma upsert_each_Ok clock l :
  forall db tick db1,
  keyed_by_id db ->
  Seed.upsert_each empty_update db clock tick l = Ok db1 ->
  keyed_by_id db1
  /\ posts db1 = posts db
  /\ (forall k u, users db !! k = Some u ->
        exists u', users db1 !! k = Some u' /\ Seed.same_account u u').
Proof.
  induction l as [|create l IH]; intros db tick db1 Hkeys; simpl.
  - intros [= <-]. repeat split; [exact Hkeys|].
    intros k u Hk. exists u. split; [exact Hk | apply same_account_refl].
  - destruct (Seed.user_upsert empty_update db (clock tick) create)
      as [[row db0]|] eqn:Hup; [|discriminate].
    simpl. intros Hrest.
    destruct (user_upsert_Ok _ _ _ _ _ Hkeys Hup) as (Hk0 & Hp0 & _ & _ & Hkeep0).
    destruct (IH _ _ _ Hk0 Hrest) as (Hk1 & Hp1 & Hkeep1).
    repeat split; [exact Hk1 | congruence |].
    intros k u Hk. destruct (Hkeep0 _ _ Hk) as (u0 & Hu0 & Hs0).
    destruct (Hkeep1 _ _ Hu0) as (u1 & Hu1 & Hs1).
    exists u1. split; [exact Hu1 | by eapply same_account_trans].
Qed.

(** A created post goes last, with the columns given. *)
Lemma post_create_Ok db now data post db1 :
  Seed.post_create db now data = Ok (post, db1) ->
  db1 = mkDb (users db) (posts db ++ [post])
  /\ Post.title post = Seed.title data
  /\ Post.status post = Seed.status data
  /\ Post.authorId post = Seed.authorId data
  /\ Post.createdById post = Seed.createdById data.
Proof.
  unfold Seed.post_create.
  destruct (findPost db (post_cuid (posts db))); [discriminate|].
  intros [= <- <-]. auto.
Qed.

End SeedFacts.

(** X28. A run of the seed script that ends well.  Every account that was
    there is still there under its key with its address, password, name,
    role and active flag: an account of a seeded address is not rewritten,
    whatever ADMIN_PASSWORD holds.  The three sample posts are added after
    the posts that were there, two published and one a draft, written by
    the account of admin@site.local, whether or not an earlier run added
    them already.  No other post is touched, and the keys are kept, so the
    same holds of a next run. *)
Theorem seed_keeps_accounts_and_adds_posts
    `{Bcrypt} `{Schema} `{Generated} (empty_update : Z -> Z -> Z)
    (ADMIN_PASSWORD : option string) (clock : nat -> Z) (db db' : Db) :
  keyed_by_id db ->
  Seed.main empty_update ADMIN_PASSWORD clock db = Ok db' ->
  keyed_by_id db'
  /\ (forall k u, users db !! k = Some u ->
        exists u', users db' !! k = Some u' /\ Seed.same_account u u')
  /\ exists admin p1 p2 p3,
       users db' !! User.id admin = Some admin
       /\ User.email admin = "admin@site.local"
       /\ posts db' = (posts db ++ [p1; p2; p3])%list
       /\ Post.title <$> [p1; p2; p3]
          = ["Welcome to AffiliateFlow"; "Getting Started Guide";
             "New Features Coming Soon"]
       /\ Post.status <$> [p1; p2; p3] = [PUBLISHED; PUBLISHED; DRAFT]
       /\ Forall (fun p => Post.authorId p = User.id admin
                           /\ Post.createdById p = User.id admin) [p1; p2; p3].
Proof.
  intros Hkeys. unfold Seed.main.
  destruct (Seed.user_upsert _ db _ _) as [[admin db1]|] eqn:Hadmin; [|discriminate].
  cbn [bindR].
  destruct (Seed.upsert_each _ db1 _ _ _) as [db2|] eqn:Husers; [|discriminate].
  cbn [bindR Seed.create_each Seed.samplePosts].
  destruct (Seed.post_create db2 _ _) as [[p1 db3]|] eqn:Hc1; [|discriminate].
  cbn [bindR].
  destruct (Seed.post_create db3 _ _) as [[p2 db4]|] eqn:Hc2; [|discriminate].
  cbn [bindR].
  destruct (Seed.post_create db4 _ _) as [[p3 db5]|] eqn:Hc3; [|discriminate].
  cbn [bindR]. intros [= <-].
  destruct (user_upsert_Ok _ _ _ _ _ _ Hkeys Hadmin)
    as (Hk1 & Hp1 & Hrow & Hemail & Hkeep1).
  destruct (upsert_each_Ok _ _ _ _ _ _ Hk1 Husers) as (Hk2 & Hp2 & Hkeep2).
  apply post_create_Ok in Hc1 as (-> & Ht1 & Hs1 & Ha1 & Hb1).
  apply post_create_Ok in Hc2 as (-> & Ht2 & Hs2 & Ha2 & Hb2).
  apply post_create_Ok in Hc3 as (-> & Ht3 & Hs3 & Ha3 & Hb3).
  simpl in *.
  assert (Hkeep : forall k u, users db !! k = Some u ->
                    exists u', users db2 !! k = Some u' /\ Seed.same_account u u').
  { intros k u Hk. destruct (Hkeep1 _ _ Hk) as (u1 & Hu1 & Hsame1).
    destruct (Hkeep2 _ _ Hu1) as (u2 & Hu2 & Hsame2).
    exists u2. split; [exact Hu2 | by eapply same_account_trans]. }
  split; [exact Hk2|]. split; [exact Hkeep|].
  destruct (Hkeep2 _ _ Hrow) as (admin' & Hadmin' & Hsame).
  destruct Hsame as (Hid & Hem & _).
  exists admin', p1, p2, p3.
  rewrite Hid, Hem. split; [exact Hadmin'|]. split; [exact Hemail|].
  split; [rewrite Hp2, Hp1, <- !app_assoc; reflexivity|].
  split; [by rewrite Ht1, Ht2, Ht3|]. split; [by rewrite Hs1, Hs2, Hs3|].
  repeat constructor; assumption.
Qed.

(** Two runs, the first on an empty store with ADMIN_PASSWORD unset, the
    second with ADMIN_PASSWORD set to another password: the administrator
    the first run created keeps the password of the first run, and the
    store ends with six posts. *)
Lemma seed_keeps_accounts_and_adds_posts_witness :
  exists db1 db2 admin admin',
    @Seed.main bcrypt_tagged schema_serial generated_serial (fun _ now => now)
      None seed_clock empty_db = Ok db1
    /\ @Seed.main bcrypt_tagged schema_serial generated_serial (fun _ now => now)
         (Some "Changed@2024") seed_clock db1 = Ok db2
    /\ users db1 !! "s1" = Some admin
    /\ User.email admin = "admin@site.local"
    /\ User.password admin = "$2a$Admin@12345"
    /\ users db2 !! "s1" = Some admin'
    /\ User.password admin' = "$2a$Admin@12345"
    /\ length (posts db2) = 6%nat.
Proof.
  pose (admin := User.mk "s1" "admin@site.local" "$2a$Admin@12345"
                   (Some "System Administrator") ADMIN true 1000 1000).
  assert (Hfirst :
            match @Seed.main bcrypt_tagged schema_serial generated_serial
                    (fun _ now => now) None seed_clock empty_db with
            | Ok d => users d !! "s1" = Some admin /\ length (posts d) = 3%nat
            | Throw _ => False
            end) by (vm_compute; split; reflexivity).
  destruct (@Seed.main bcrypt_tagged schema_serial generated_serial (fun _ now => now)
              None seed_clock empty_db) as [db1|e] eqn:Hrun1; [|destruct Hfirst].
  destruct Hfirst as [Hadmin Hthree].
  destruct (@seed_keeps_accounts_and_adds_posts bcrypt_tagged schema_serial
              generated_serial (fun _ now => now) None seed_clock empty_db db1
              (map_Forall_empty _) Hrun1) as (Hkeys1 & _).
  assert (Hsecond :
            match @Seed.main bcrypt_tagged schema_serial generated_serial
                    (fun _ now => now) (Some "Changed@2024") seed_clock db1 with
            | Ok _ => True
            | Throw _ => False
            end).
  { clear -Hrun1. vm_compute in Hrun1. injection Hrun1 as <-. vm_compute. exact I. }
  destruct (@Seed.main bcrypt_tagged schema_serial generated_serial (fun _ now => now)
              (Some "Changed@2024") seed_clock db1) as [db2|e] eqn:Hrun2;
    [|destruct Hsecond].
  destruct (@seed_keeps_accounts_and_adds_posts bcrypt_tagged schema_serial
              generated_serial (fun _ now => now) (Some "Changed@2024") seed_clock
              db1 db2 Hkeys1 Hrun2)
    as (_ & Hkeep & _ & p1 & p2 & p3 & _ & _ & Hposts & _).
  destruct (Hkeep _ _ Hadmin) as (admin' & Hadmin' & _ & _ & Hpassword & _).
  exists db1, db2, admin, admin'.
  split; [reflexivity|]. split; [exact Hrun2|]. split; [exact Hadmin|].
  split; [reflexivity|]. split; [reflexivity|]. split; [exact Hadmin'|].
  split; [exact Hpassword|].
  rewrite Hposts, length_app, Hthree. reflexivity.
Defined.

(** ** Issuing tokens *)

(** X29. Issuing tokens for an identity always succeeds and yields two
    tokens, each the HS256 signature of the claims [userId], [email],
    [role], [iat] and [exp]: [iat] is the second of issuance, [exp] is 900
    seconds later in the access token, signed with the access secret, and
    604800 seconds later in the refresh token, signed with the refresh
    secret.  Where [jws] reads the two tokens back, [jwt.verify] of either
    under any secret is settled by the signature check of [jws] under that
    secret and then by the expiry: a token whose signature checks is good
    until its [exp] and expired from then on, and one whose signature does
    not check is invalid whatever the clock.  The two secrets are
    different when the environment sets neither, and the same when it
    sets both variables to one value. *)
Theorem generateTokens_signs_each_class `{Jws} `{Env}
    (user : Identity.t) (now : Z) (sig_a sig_r : string) :
  let iat := now / 1000 in
  let claims_a :=
    JWTPayload.mk (Identity.id user) (Identity.email user) (Identity.role user)
      (Some iat) (Some (iat + 15 * 60)) in
  let claims_r :=
    JWTPayload.mk (Identity.id user) (Identity.email user) (Identity.role user)
      (Some iat) (Some (iat + 7 * 24 * 60 * 60)) in
  let a := jws_sign "HS256" claims_a ACCESS_SECRET in
  let r := jws_sign "HS256" claims_r REFRESH_SECRET in
  jws_decode a = Some ("HS256", claims_a, sig_a) -> Js.blank sig_a = false ->
  jws_decode r = Some ("HS256", claims_r, sig_r) -> Js.blank sig_r = false ->
  generateTokens user now = Ok (mkTokens a r)
  /\ (forall secret now',
        Jwt.verify a secret now'
        = if jws_verify a "HS256" secret
          then if now' / 1000 >=? iat + 15 * 60
               then Throw (TokenExpiredError "jwt expired") else Ok claims_a
          else Throw (JsonWebTokenError "invalid signature"))
  /\ (forall secret now',
        Jwt.verify r secret now'
        = if jws_verify r "HS256" secret
          then if now' / 1000 >=? iat + 7 * 24 * 60 * 60
               then Throw (TokenExpiredError "jwt expired") else Ok claims_r
          else Throw (JsonWebTokenError "invalid signature"))
  /\ (Js.truthy JWT_ACCESS_SECRET = false -> Js.truthy JWT_REFRESH_SECRET = false ->
      ACCESS_SECRET <> REFRESH_SECRET)
  /\ (Js.truthy JWT_ACCESS_SECRET = true -> JWT_REFRESH_SECRET = JWT_ACCESS_SECRET ->
      REFRESH_SECRET = ACCESS_SECRET).
Proof.
  intros iat claims_a claims_r a r Hda Hba Hdr Hbr.
  split; [apply generateTokens_eq|].
  split; [|split; [|split]].
  - intros secret now'. unfold Jwt.verify. rewrite Hda, Hba. simpl.
    destruct (jws_verify a "HS256" secret); reflexivity.
  - intros secret now'. unfold Jwt.verify. rewrite Hdr, Hbr. simpl.
    destruct (jws_verify r "HS256" secret); reflexivity.
  - unfold ACCESS_SECRET, REFRESH_SECRET, Js.or_else, Js.truthy.
    destruct JWT_ACCESS_SECRET as [s|], JWT_REFRESH_SECRET as [t|];
      repeat match goal with
             | |- context [String.eqb ?x ""] => destruct (String.eqb x "")
             end; simpl; intros; discriminate.
  - unfold ACCESS_SECRET, REFRESH_SECRET, Js.or_else, Js.truthy. intros Ht ->.
    destruct JWT_ACCESS_SECRET as [s|]; [|discriminate].
    destruct (String.eqb s ""); [discriminate | reflexivity].
Qed.

(** Bob's tokens, issued at second 2000: the access token is good under the
    access secret at once and expired 900 seconds later. *)
Lemma generateTokens_signs_each_class_witness :
  @generateTokens sample_jws env_unset (Identity.mk "u2" "bob@example.com" MEMBER) 2000000
  = Ok (mkTokens "bob.access.new" "bob.refresh.new")
  /\ @Jwt.verify sample_jws "bob.access.new" "fallback-access-secret" 2000000
     = Ok (claims bob 2000 2900)
  /\ @Jwt.verify sample_jws "bob.access.new" "fallback-access-secret" 2900000
     = Throw (TokenExpiredError "jwt expired").
Proof.
  pose proof (@generateTokens_signs_each_class sample_jws env_unset
                (Identity.mk "u2" "bob@example.com" MEMBER) 2000000 "sig-n" "sig-m"
                eq_refl eq_refl eq_refl eq_refl) as Hw.
  cbv zeta in Hw. destruct Hw as (Hgen & Haccess & _).
  split; [exact Hgen|].
  split; [exact (Haccess "fallback-access-secret" 2000000)
         | exact (Haccess "fallback-access-secret" 2900000)].
Defined.
